(** * content-kitty: the request-to-operation dispatch pipeline

    A shallow embedding of

    - [src/server/middlewares/mapQuery.ts]   (the query normalizer [mapQuery]),
    - the collection route handler registered with [app.all] in the server
      entry point (hook phases, persistence call, response, webhook fan-out),
    - the function [errHandler] and the way an error given to [next]
      takes through Express,
    - the rest of the server entry point: the registry of collections and
      the routes registered from it, the body of the answer to [GET /] and
      the two plugin routes,

    together with the fragment of the JavaScript runtime these functions
    rely on (own properties, [Object.assign], [Object.fromEntries],
    [String.prototype.split]/[includes], [ToString], [ToNumber], [JSON.parse]).

    Conventions of the model.

    - JavaScript values are the inductive [JS].  Numbers are integers in the
      safe range ([JNum]); any other number is carried symbolically by the
      literal that denotes it ([JFloat]) and the two operations that would
      need IEEE arithmetic on it (rendering it, comparing it with 0) leave
      the model through the error [OutOfModel].
    - Strings are byte strings (UTF-8).  Splitting and searching on [","]
      and ["-"] are byte-exact; the length of a non-ASCII string is outside
      the model.
    - An object is the list of its own properties in enumeration order
      (array indices first, ascending, then the other keys in creation
      order).
    - Code that may throw returns [Res]; code that also mutates shared
      objects and performs calls runs in the monad [M] over a store and a
      trace of events. *)

From Stdlib Require Import List String Ascii ZArith NArith Bool Arith Lia.
Import ListNotations.

Local Open Scope string_scope.
Local Open Scope list_scope.
Local Open Scope Z_scope.

(** ** Values *)

#[local] Unset Elimination Schemes.
Inductive JS : Type :=
| JUndefined
| JNull
| JBool (b : bool)
| JNum (z : Z)
| JFloat (lit : string)
| JStr (s : string)
| JArr (items : list JS)
| JObj (props : list (string * JS)).
#[local] Set Elimination Schemes.

Definition Props := list (string * JS).

(** ** Errors *)

Inductive LogLevel := informative | warning | error.

(** [ContentKittyError] is the project's error class (util/index.js); its
    three fields are the ones [mapQuery] passes to the constructor.
    [ErrorObj name message] is any other instance of [Error], identified by
    the name of its constructor; [Thrown v] is a thrown value that is not
    an [Error]. The message texts of [TypeError] and [SyntaxError] are the
    engine's and are not part of any statement below. *)
Inductive Err :=
| ContentKittyError (level : LogLevel) (message : string) (status : nat)
| TypeError (message : string)
| SyntaxError (message : string)
| ErrorObj (name message : string)
| Thrown (v : JS)
| OutOfModel (what : string).

Inductive Res (A : Type) :=
| Ok (a : A)
| Throw (e : Err).
Arguments Ok {A} a.
Arguments Throw {A} e.

Definition rbind {A B} (r : Res A) (k : A -> Res B) : Res B :=
  match r with
  | Ok a => k a
  | Throw e => Throw e
  end.

Declare Scope res_scope.
Delimit Scope res_scope with res.
Notation "x <- c ;; k" := (rbind c (fun x => k))
  (at level 61, c at next level, right associativity) : res_scope.

Fixpoint rmap {A B} (f : A -> Res B) (l : list A) : Res (list B) :=
  match l with
  | [] => Ok []
  | x :: xs =>
      match f x with
      | Ok y => match rmap f xs with
                | Ok ys => Ok (y :: ys)
                | Throw e => Throw e
                end
      | Throw e => Throw e
      end
  end.

(** ** Strings *)

Definition chr (n : nat) : string := String (ascii_of_nat n) EmptyString.
(** The double quote, for writing JSON texts. *)
Definition dq : string := chr 34.

Definition comma : ascii := ascii_of_nat 44.
Definition hyphen : ascii := ascii_of_nat 45.

(** [String.prototype.includes] with a one-character needle. *)
Fixpoint includes (c : ascii) (s : string) : bool :=
  match s with
  | EmptyString => false
  | String d s' => Ascii.eqb d c || includes c s'
  end.

(** [String.prototype.split] with a one-character separator: always at
    least one piece; ["a,,b"] gives ["a"; ""; "b"]. *)
Fixpoint split (sep : ascii) (s : string) : list string :=
  match s with
  | EmptyString => [EmptyString]
  | String c s' =>
      if Ascii.eqb c sep then EmptyString :: split sep s'
      else match split sep s' with
           | [] => [String c EmptyString]
           | w :: ws => String c w :: ws
           end
  end.

Definition is_ascii (s : string) : bool :=
  forallb (fun c => (nat_of_ascii c <? 128)%nat) (list_ascii_of_string s).

(** ** Digits and integers

    Parsers work on the list of byte codes of a string. *)

Definition codes (s : string) : list N := map N_of_ascii (list_ascii_of_string s).
Definition of_codes (l : list N) : string :=
  string_of_list_ascii (map ascii_of_N l).

Definition is_digit (c : N) : bool := ((48 <=? c) && (c <=? 57))%N.

Definition digit_val (c : N) : Z := Z.of_N c - 48.

Fixpoint digits_val_acc (acc : Z) (l : list N) : Z :=
  match l with
  | [] => acc
  | c :: l' => digits_val_acc (10 * acc + digit_val c) l'
  end.
Definition digits_val (l : list N) : Z := digits_val_acc 0 l.

Definition MAX_SAFE_INTEGER : Z := 9007199254740991.
Definition is_safe (z : Z) : bool :=
  (- MAX_SAFE_INTEGER <=? z) && (z <=? MAX_SAFE_INTEGER).

(** Decimal rendering of an integer, as [Number.prototype.toString] does
    for integers below 1e21. *)
Fixpoint pos_digits (fuel : nat) (z : Z) (acc : string) : string :=
  match fuel with
  | O => acc
  | S f =>
      let d := String (ascii_of_nat (48 + Z.to_nat (z mod 10))) acc in
      if z <? 10 then d else pos_digits f (z / 10) d
  end.

Definition string_of_Z (z : Z) : string :=
  if z <? 0 then String hyphen (pos_digits 20 (- z) EmptyString)
  else pos_digits 20 z EmptyString.

(** ** Own properties *)

Fixpoint lookup (k : string) (ps : Props) : option JS :=
  match ps with
  | [] => None
  | (k', v) :: ps' => if String.eqb k' k then Some v else lookup k ps'
  end.

Definition has_own (k : string) (ps : Props) : bool :=
  match lookup k ps with Some _ => true | None => false end.

(** A key is an array index when it is the canonical decimal numeral of an
    integer below 2^32 - 1; such keys are enumerated first, in ascending
    order. *)
Definition array_index (k : string) : option Z :=
  let l := codes k in
  match l with
  | [] => None
  | c :: rest =>
      if forallb is_digit l
         && (negb (c =? 48)%N || match rest with [] => true | _ => false end)
         && (List.length l <=? 10)%nat
         && (digits_val l <? 4294967295)
      then Some (digits_val l) else None
  end.

Fixpoint replace_prop (k : string) (v : JS) (ps : Props) : Props :=
  match ps with
  | [] => []
  | (k', v') :: ps' =>
      if String.eqb k' k then (k', v) :: ps' else (k', v') :: replace_prop k v ps'
  end.

Fixpoint insert_index (i : Z) (k : string) (v : JS) (ps : Props) : Props :=
  match ps with
  | [] => [(k, v)]
  | (k', v') :: ps' =>
      match array_index k' with
      | Some j => if j <? i then (k', v') :: insert_index i k v ps'
                  else (k, v) :: ps
      | None => (k, v) :: ps
      end
  end.

(** Defining (or overwriting) the own data property [k] of an object. *)
Definition set_prop (k : string) (v : JS) (ps : Props) : Props :=
  if has_own k ps then replace_prop k v ps
  else match array_index k with
       | Some i => insert_index i k v ps
       | None => ps ++ [(k, v)]
       end.

(** ** ToNumber on strings (StringToNumber)

    [Numeric] is the result of a numeric conversion: not-a-number, a safe
    integer, or another number kept as the literal that denotes it. *)

Inductive Numeric :=
| NaN
| Int (z : Z)
| Flt (lit : string).

(** StrWhiteSpaceChar, as UTF-8 byte sequences: TAB LF VT FF CR SP, U+00A0,
    U+1680, U+2000..U+200A, U+2028, U+2029, U+202F, U+205F, U+3000, U+FEFF. *)
Definition ws1 (a : N) : bool := (((9 <=? a) && (a <=? 13)) || (a =? 32))%N.
Definition ws2 (a b : N) : bool := ((a =? 194) && (b =? 160))%N.
Definition ws3 (a b c : N) : bool :=
  (((a =? 225) && (b =? 154) && (c =? 128))
   || ((a =? 226) && (b =? 128)
       && (((128 <=? c) && (c <=? 138)) || (c =? 168) || (c =? 169) || (c =? 175)))
   || ((a =? 226) && (b =? 129) && (c =? 159))
   || ((a =? 227) && (b =? 128) && (c =? 128))
   || ((a =? 239) && (b =? 187) && (c =? 191)))%N.

Fixpoint strip_ws (l : list N) : list N :=
  match l with
  | [] => []
  | a :: l1 =>
      if ws1 a then strip_ws l1
      else match l1 with
           | [] => l
           | b :: l2 =>
               if ws2 a b then strip_ws l2
               else match l2 with
                    | [] => l
                    | c :: l3 => if ws3 a b c then strip_ws l3 else l
                    end
           end
  end.

Fixpoint take_while (p : N -> bool) (l : list N) : list N * list N :=
  match l with
  | [] => ([], [])
  | c :: l' =>
      if p c then let (ds, r) := take_while p l' in (c :: ds, r) else ([], l)
  end.

Fixpoint strip_prefix (p l : list N) : option (list N) :=
  match p, l with
  | [], _ => Some l
  | a :: p', b :: l' => if (a =? b)%N then strip_prefix p' l' else None
  | _ :: _, [] => None
  end.

(** The number denoted by sign, integer digits [d1], fraction digits [d2]
    and decimal exponent [ex]: an [Int] when it is an integer of the safe
    range (exponents of more than three digits are not evaluated), the
    literal [lit] otherwise. *)
Definition decimal_value (lit : string) (neg : bool) (d1 d2 : list N)
    (ex : option (bool * list N)) : Numeric :=
  let m := digits_val (d1 ++ d2) in
  if m =? 0 then Int 0
  else
    let exp_ok := match ex with
                  | Some (_, ds) => (List.length ds <=? 3)%nat
                  | None => true
                  end in
    if negb exp_ok then Flt lit
    else
      let x := match ex with
               | Some (true, ds) => - digits_val ds
               | Some (false, ds) => digits_val ds
               | None => 0
               end in
      let e := x - Z.of_nat (List.length d2) in
      let sgn (v : Z) := if neg then - v else v in
      if 0 <=? e then
        let v := sgn (m * 10 ^ e) in
        if is_safe v then Int v else Flt lit
      else
        let p := 10 ^ (- e) in
        if m mod p =? 0 then
          let v := sgn (m / p) in
          if is_safe v then Int v else Flt lit
        else Flt lit.

Definition take_sign (l : list N) : bool * list N :=
  match l with
  | c :: l' =>
      if (c =? 45)%N then (true, l')
      else if (c =? 43)%N then (false, l')
      else (false, l)
  | [] => (false, l)
  end.

(** An optional ExponentPart: [e] or [E], an optional sign, one digit or
    more.  When the text after the mantissa is not an exponent nothing is
    consumed. *)
Definition take_exponent (l : list N) : option (bool * list N) * list N :=
  match l with
  | c :: l' =>
      if ((c =? 101) || (c =? 69))%N then
        let (neg, l2) := take_sign l' in
        let (ds, r) := take_while is_digit l2 in
        match ds with
        | [] => (None, l)
        | _ => (Some (neg, ds), r)
        end
      else (None, l)
  | [] => (None, l)
  end.

(** StrDecimalLiteral: returns the number and the unread rest. *)
Definition parse_decimal (lit : string) (l : list N) : option (Numeric * list N) :=
  let (neg, l1) := take_sign l in
  match strip_prefix (codes "Infinity") l1 with
  | Some r => Some (Flt lit, r)
  | None =>
      let (d1, l2) := take_while is_digit l1 in
      let (d2, l3) :=
        match l2 with
        | c :: l2' => if (c =? 46)%N then take_while is_digit l2' else ([], l2)
        | [] => ([], l2)
        end in
      match d1, d2 with
      | [], [] => None
      | _, _ =>
          let (ex, r) := take_exponent l3 in
          Some (decimal_value lit neg d1 d2 ex, r)
      end
  end.

Definition is_octal (c : N) : bool := ((48 <=? c) && (c <=? 55))%N.
Definition is_binary (c : N) : bool := ((48 <=? c) && (c <=? 49))%N.
Definition is_hex (c : N) : bool :=
  (is_digit c || ((97 <=? c) && (c <=? 102)) || ((65 <=? c) && (c <=? 70)))%N.
Definition hex_val (c : N) : Z :=
  if is_digit c then Z.of_N c - 48
  else if (97 <=? c)%N then Z.of_N c - 87 else Z.of_N c - 55.

Fixpoint radix_val (b acc : Z) (l : list N) : Z :=
  match l with
  | [] => acc
  | c :: l' => radix_val b (b * acc + hex_val c) l'
  end.

(** NonDecimalIntegerLiteral: [0x], [0o], [0b] and one digit or more. *)
Definition parse_nondecimal (lit : string) (l : list N) : option (Numeric * list N) :=
  match l with
  | z :: p :: l' =>
      let go (b : Z) (ok : N -> bool) :=
        let (ds, r) := take_while ok l' in
        match ds with
        | [] => None
        | _ => let v := radix_val b 0 ds in
               Some (if is_safe v then Int v else Flt lit, r)
        end in
      if negb (z =? 48)%N then None
      else if ((p =? 120) || (p =? 88))%N then go 16 is_hex
      else if ((p =? 111) || (p =? 79))%N then go 8 is_octal
      else if ((p =? 98) || (p =? 66))%N then go 2 is_binary
      else None
  | _ => None
  end.

Definition string_to_number (s : string) : Numeric :=
  match strip_ws (codes s) with
  | [] => Int 0
  | l =>
      let lit :=
        match parse_nondecimal s l with
        | Some r => Some r
        | None => parse_decimal s l
        end in
      match lit with
      | Some (n, rest) => match strip_ws rest with [] => n | _ => NaN end
      | None => NaN
      end
  end.

(** ** ToString and ToNumber

    A plain object converts through [Object.prototype.toString] unless it
    has an own property [toString]: a data property is not callable, the
    inherited [valueOf] returns the object itself, and OrdinaryToPrimitive
    ends in a TypeError.  An array converts through [join]. *)

Definition no_primitive : Err := TypeError "Cannot convert object to primitive value".

Fixpoint to_string (v : JS) : Res string :=
  match v with
  | JUndefined => Ok "undefined"
  | JNull => Ok "null"
  | JBool true => Ok "true"
  | JBool false => Ok "false"
  | JNum z => if is_safe z then Ok (string_of_Z z) else Throw (OutOfModel "number rendering")
  | JFloat _ => Throw (OutOfModel "number rendering")
  | JStr s => Ok s
  | JArr items =>
      (fix join (l : list JS) : Res string :=
         match l with
         | [] => Ok ""
         | x :: rest =>
             let sx := match x with
                       | JUndefined | JNull => Ok ""
                       | _ => to_string x
                       end in
             match sx with
             | Throw e => Throw e
             | Ok a =>
                 match rest with
                 | [] => Ok a
                 | _ => match join rest with
                        | Ok b => Ok (a ++ "," ++ b)%string
                        | Throw e => Throw e
                        end
                 end
             end
         end) items
  | JObj ps => if has_own "toString" ps then Throw no_primitive
               else Ok "[object Object]"
  end.

Definition to_number (v : JS) : Res Numeric :=
  match v with
  | JUndefined => Ok NaN
  | JNull => Ok (Int 0)
  | JBool b => Ok (Int (if b then 1 else 0))
  | JNum z => Ok (Int z)
  | JFloat lit => Ok (Flt lit)
  | JStr s => Ok (string_to_number s)
  | JArr _ | JObj _ =>
      match to_string v with
      | Ok s => Ok (string_to_number s)
      | Throw e => Throw e
      end
  end.

(** [isNaN(v) ? v : Number(v)], the last statement of the [map] callback of
    [mapQuery]. *)
Definition coerce_number (v : JS) : Res JS :=
  match to_number v with
  | Ok NaN => Ok v
  | Ok (Int z) => Ok (JNum z)
  | Ok (Flt lit) => Ok (JFloat lit)
  | Throw e => Throw e
  end.

(** [v > 0] (IsLessThan(0, v)): both sides go through ToNumber, a
    comparison with NaN is false. *)
Definition gt_zero (v : JS) : Res bool :=
  match to_number v with
  | Ok NaN => Ok false
  | Ok (Int z) => Ok (0 <? z)
  | Ok (Flt _) => Throw (OutOfModel "number comparison")
  | Throw e => Throw e
  end.

(** ** JSON.parse *)

Definition json_ws (c : N) : bool := ((c =? 32) || (c =? 9) || (c =? 10) || (c =? 13))%N.

Fixpoint skip_ws (l : list N) : list N :=
  match l with
  | c :: l' => if json_ws c then skip_ws l' else l
  | [] => []
  end.

(** UTF-8 bytes of a code point (a lone surrogate is written like any
    other three-byte code point). *)
Definition utf8 (cp : N) : list N :=
  (if cp <? 128 then [cp]
   else if cp <? 2048 then [192 + cp / 64; 128 + cp mod 64]
   else if cp <? 65536 then [224 + cp / 4096; 128 + (cp / 64) mod 64; 128 + cp mod 64]
   else [240 + cp / 262144; 128 + (cp / 4096) mod 64; 128 + (cp / 64) mod 64; 128 + cp mod 64])%N.

Definition hex4 (l : list N) : option (N * list N) :=
  match l with
  | a :: b :: c :: d :: r =>
      if is_hex a && is_hex b && is_hex c && is_hex d
      then Some (Z.to_N (radix_val 16 0 [a; b; c; d]), r)
      else None
  | _ => None
  end.

(** The characters of a string literal after its opening quote. *)
Fixpoint parse_chars (fuel : nat) (l : list N) (acc : list N) : option (string * list N) :=
  match fuel with
  | O => None
  | S f =>
      match l with
      | [] => None
      | 34%N :: r => Some (of_codes (rev acc), r)
      | 92%N :: e :: r =>
          let simple (c : N) := parse_chars f r (c :: acc) in
          if (e =? 34)%N then simple 34%N
          else if (e =? 92)%N then simple 92%N
          else if (e =? 47)%N then simple 47%N
          else if (e =? 98)%N then simple 8%N
          else if (e =? 102)%N then simple 12%N
          else if (e =? 110)%N then simple 10%N
          else if (e =? 114)%N then simple 13%N
          else if (e =? 116)%N then simple 9%N
          else if (e =? 117)%N then
            match hex4 r with
            | None => None
            | Some (hi, r1) =>
                let single := parse_chars f r1 (rev (utf8 hi) ++ acc) in
                if ((55296 <=? hi) && (hi <=? 56319))%N then
                  match r1 with
                  | 92%N :: 117%N :: r2 =>
                      match hex4 r2 with
                      | Some (lo, r3) =>
                          if ((56320 <=? lo) && (lo <=? 57343))%N then
                            let cp := (65536 + (hi - 55296) * 1024 + (lo - 56320))%N in
                            parse_chars f r3 (rev (utf8 cp) ++ acc)
                          else single
                      | None => single
                      end
                  | _ => single
                  end
                else single
            end
          else None
      | c :: r => if (c <? 32)%N then None else parse_chars f r (c :: acc)
      end
  end.

(** A JSON number: an optional minus, an integer part without leading
    zero, an optional fraction (dot and digits), an optional exponent. *)
Definition parse_json_number (l : list N) : option (JS * list N) :=
  let (neg, l1) := match l with 45%N :: l' => (true, l') | _ => (false, l) end in
  let (d1, l2) := take_while is_digit l1 in
  let int_ok := match d1 with
                | [] => false
                | [_] => true
                | c :: _ => negb (c =? 48)%N
                end in
  if negb int_ok then None
  else
    let (d2, l3) :=
      match l2 with
      | 46%N :: l2' =>
          let (d2, l3) := take_while is_digit l2' in
          match d2 with [] => ([], l2) | _ => (d2, l3) end
      | _ => ([], l2)
      end in
    let (ex, r) := take_exponent l3 in
    let lit := of_codes (firstn (List.length l - List.length r) l) in
    Some (match decimal_value lit neg d1 d2 ex with
          | Int z => JNum z
          | _ => JFloat lit
          end, r).

Fixpoint parse_value (fuel : nat) (l : list N) : option (JS * list N) :=
  match fuel with
  | O => None
  | S f =>
      match skip_ws l with
      | [] => None
      | c :: r =>
          if (c =? 110)%N then option_map (pair JNull) (strip_prefix (codes "ull") r)
          else if (c =? 116)%N then option_map (pair (JBool true)) (strip_prefix (codes "rue") r)
          else if (c =? 102)%N then option_map (pair (JBool false)) (strip_prefix (codes "alse") r)
          else if (c =? 34)%N then
            match parse_chars (S (List.length r)) r [] with
            | Some (s, r') => Some (JStr s, r')
            | None => None
            end
          else if (c =? 91)%N then
            match skip_ws r with
            | 93%N :: r' => Some (JArr [], r')
            | _ => parse_elements f r []
            end
          else if (c =? 123)%N then
            match skip_ws r with
            | 125%N :: r' => Some (JObj [], r')
            | _ => parse_members f r []
            end
          else parse_json_number (c :: r)
      end
  end
with parse_elements (fuel : nat) (l : list N) (acc : list JS) : option (JS * list N) :=
  match fuel with
  | O => None
  | S f =>
      match parse_value f l with
      | None => None
      | Some (v, r) =>
          match skip_ws r with
          | 44%N :: r' => parse_elements f r' (v :: acc)
          | 93%N :: r' => Some (JArr (rev (v :: acc)), r')
          | _ => None
          end
      end
  end
with parse_members (fuel : nat) (l : list N) (acc : Props) : option (JS * list N) :=
  match fuel with
  | O => None
  | S f =>
      match skip_ws l with
      | 34%N :: r =>
          match parse_chars (S (List.length r)) r [] with
          | None => None
          | Some (k, r1) =>
              match skip_ws r1 with
              | 58%N :: r2 =>
                  match parse_value f r2 with
                  | None => None
                  | Some (v, r3) =>
                      match skip_ws r3 with
                      | 44%N :: r4 => parse_members f r4 (set_prop k v acc)
                      | 125%N :: r4 => Some (JObj (set_prop k v acc), r4)
                      | _ => None
                      end
                  end
              | _ => None
              end
          end
      | _ => None
      end
  end.

(** [JSON.parse] of a text: one value, white space around it, nothing
    else; a SyntaxError otherwise. *)
Definition JSON_parse (text : string) : Res JS :=
  let l := codes text in
  match parse_value (2 * List.length l + 2) l with
  | Some (v, r) =>
      match skip_ws r with
      | [] => Ok v
      | _ => Throw (SyntaxError "Unexpected non-whitespace character after JSON")
      end
  | None => Throw (SyntaxError "Unexpected token in JSON")
  end.

(** ** The query normalizer ([src/server/middlewares/mapQuery.ts]) *)

(** [newValue.includes(c)]: on a string, substring search; on an array,
    [Array.prototype.includes] (an element that is the one-character string
    itself); property access fails on [undefined] and [null]; any other
    value has no callable [includes]. *)
Definition js_includes (c : ascii) (v : JS) : Res bool :=
  match v with
  | JStr s => Ok (includes c s)
  | JArr items =>
      Ok (existsb (fun x => match x with
                            | JStr s => String.eqb s (String c EmptyString)
                            | _ => false
                            end) items)
  | JUndefined | JNull =>
      Throw (TypeError "Cannot read properties of undefined (reading 'includes')")
  | _ => Throw (TypeError "newValue.includes is not a function")
  end.

(** [newValue.split(c)]: only strings have [split]. *)
Definition js_split (c : ascii) (v : JS) : Res (list string) :=
  match v with
  | JStr s => Ok (split c s)
  | JUndefined | JNull =>
      Throw (TypeError "Cannot read properties of undefined (reading 'split')")
  | _ => Throw (TypeError "newValue.split is not a function")
  end.

(** [Object.fromEntries]: the properties are defined one after the other,
    a later entry overwrites an earlier one with the same key. *)
Definition fromEntries (es : list (string * JS)) : Props :=
  fold_left (fun acc kv => set_prop (fst kv) (snd kv) acc) es [].

(** The entry [[k, v]] read from the array of pieces of a sub-pair: the
    first two pieces, [undefined] where a piece is missing. *)
Definition entry_of_pieces (ps : list string) : string * JS :=
  match ps with
  | [] => ("undefined", JUndefined)
  | [k] => (k, JUndefined)
  | k :: v :: _ => (k, JStr v)
  end.

Definition malformed_where : Err :=
  ContentKittyError informative "Malformed JSON in the WHERE clause." 400.

(** The [try { newValue = JSON.parse(newValue) } catch ...] of the [where]
    branch: [JSON.parse] converts its argument to a string first; whatever
    is thrown is replaced by the project's error with status 400. *)
Definition parse_where (value : JS) : Res JS :=
  match rbind (to_string value) JSON_parse with
  | Ok v => Ok v
  | Throw (OutOfModel w) => Throw (OutOfModel w)
  | Throw _ => Throw malformed_where
  end.

(** The structural step of the callback: everything before the numeric
    coercion. *)
Definition structure (key : string) (value : JS) : Res JS :=
  if String.eqb key "where" then parse_where value
  else
    match js_includes comma value with
    | Throw e => Throw e
    | Ok true =>
        if String.eqb key "distinct" then
          match js_split comma value with
          | Ok pieces => Ok (JArr (map JStr pieces))
          | Throw e => Throw e
          end
        else
          match js_split comma value with
          | Ok pieces =>
              Ok (JObj (fromEntries
                          (map (fun subPair => entry_of_pieces (split hyphen subPair)) pieces)))
          | Throw e => Throw e
          end
    | Ok false =>
        match js_includes hyphen value with
        | Throw e => Throw e
        | Ok true =>
            match js_split hyphen value with
            | Ok pieces =>
                let (subKey, subValue) := entry_of_pieces pieces in
                Ok (JObj (set_prop subKey subValue []))
            | Throw e => Throw e
            end
        | Ok false => Ok value
        end
    end.

(** The callback given to [map]: one entry of the query to one entry of
    the result. *)
Definition map_entry (kv : string * JS) : Res (string * JS) :=
  let (key, value) := kv in
  match structure key value with
  | Throw e => Throw e
  | Ok newValue =>
      match coerce_number newValue with
      | Ok n => Ok (key, n)
      | Throw e => Throw e
      end
  end.

(** [mapQuery]: on the own properties of the query object, in enumeration
    order; the first entry that throws ends the call. *)
Definition mapQuery (query : Props) : Res Props :=
  match rmap map_entry query with
  | Ok es => Ok (fromEntries es)
  | Throw e => Throw e
  end.

(** ** Operations, methods and the method table *)

Inductive Operation := create | read | update | delete.

(** The type [Method] of [src/util/types.ts]. *)
Inductive Method := GET | POST | PUT | PATCH | DELETE | HEAD | OPTIONS | TRACE | CONNECT.

Definition Operation_eqb (a b : Operation) : bool :=
  match a, b with
  | create, create | read, read | update, update | delete, delete => true
  | _, _ => false
  end.

(** Modelled from the spec: [crudMapping] and [flippedCrudMapping] are
    exported by util/index.js, which is not among the sources; the table is
    the one the specification gives (GET to read, POST to create, PUT to
    update, DELETE to delete).  Indexing the flipped table with any other
    method yields [undefined], here [None]. *)
Definition crudMapping (op : Operation) : Method :=
  match op with
  | create => POST
  | read => GET
  | update => PUT
  | delete => DELETE
  end.

Definition flippedCrudMapping (m : Method) : option Operation :=
  match m with
  | GET => Some read
  | POST => Some create
  | PUT => Some update
  | DELETE => Some delete
  | _ => None
  end.

(** ** The objects a request shares with hooks and plugins *)

(** [keyof CRUDHooks], the values of [ctx.util.currentHook]. *)
Inductive HookName := beforeOperation | validateInput | modifyInput | afterOperation.

(** The data of [Context] (the Prisma client, the collection registry and
    the Express handles are not data; the response is in [Store]). *)
Record Context := {
  sessionData : JS;
  customVars : Props;
  isLocalhost : bool;
  currentHook : HookName
}.

(** Everything a hook or a plugin can reach and mutate: the one long-lived
    [ctx] object, the object [req.body] (which the handler's constant
    [inputData] names and [operationArgs.inputData] initially aliases), the
    slot [operationArgs.inputData] itself ([None] while it still refers to
    [req.body], [Some v] once a hook has assigned another value to it), the
    own properties of the object [req.query], and the response
    ([res.statusCode], and what has been sent if [res.headersSent]). *)
Record Store := {
  ctx : Context;
  inputData : JS;
  argsInputData : option JS;
  reqQuery : Props;
  statusCode : nat;
  sent : option (nat * JS)
}.

Definition set_ctx (c : Context) (s : Store) : Store :=
  {| ctx := c; inputData := inputData s; argsInputData := argsInputData s;
     reqQuery := reqQuery s; statusCode := statusCode s; sent := sent s |}.

Definition set_inputData (v : JS) (s : Store) : Store :=
  {| ctx := ctx s; inputData := v; argsInputData := argsInputData s;
     reqQuery := reqQuery s; statusCode := statusCode s; sent := sent s |}.

Definition set_statusCode (code : nat) (s : Store) : Store :=
  {| ctx := ctx s; inputData := inputData s; argsInputData := argsInputData s;
     reqQuery := reqQuery s; statusCode := code; sent := sent s |}.

Definition set_sent (r : option (nat * JS)) (s : Store) : Store :=
  {| ctx := ctx s; inputData := inputData s; argsInputData := argsInputData s;
     reqQuery := reqQuery s; statusCode := statusCode s; sent := r |}.

Definition headersSent (s : Store) : bool :=
  match sent s with Some _ => true | None => false end.

(** What a hook reads as [operationArgs.inputData]. *)
Definition seen_inputData (s : Store) : JS :=
  match argsInputData s with
  | Some v => v
  | None => inputData s
  end.

(** The part of a request that nothing mutates: [req.method], from which
    [operationArgs.operation] is read, and the reading of the clock that
    [new Date().toISOString()] returns. *)
Record Request := {
  method : Method;
  now : string
}.

(** A hook is called with [operationArgs] and awaited: knowing the request,
    it may mutate the store, then returns a value or throws.  A plugin
    function is called with [ctx] and not awaited: it is modelled by what
    it does before it returns; it returns a [Context]. *)
Definition Hook := Request -> Store -> Res JS * Store.
Definition PluginFn := Request -> Store -> Res Context * Store.

Record DatabasePlugin := {
  active : bool;
  title : string;
  author : string;
  version : string;
  fn : PluginFn
}.

Record Webhook := {
  name : string;
  api : string;
  onOperation : list Operation
}.

Module CRUDHooks.
Record t := {
  beforeOperation : option (list Hook);
  validateInput : option (list Hook);
  modifyInput : option (list Hook);
  afterOperation : option (list Hook)
}.
(** [hooks || {}] *)
Definition empty : t :=
  {| beforeOperation := None; validateInput := None;
     modifyInput := None; afterOperation := None |}.
End CRUDHooks.

Record Collection := {
  hooks : option CRUDHooks.t;
  webhooks : option (list Webhook)
}.

(** The methods of the Prisma delegate [prisma[cKey]] the handler calls. *)
Module Prisma.
Inductive method :=
| findMany | create | createMany | update | updateMany | delete | deleteMany.
End Prisma.

Record EventTriggerPayload := {
  event : option Operation;
  collection : string;
  data : JS;
  timestamp : string
}.

(** ** Events: the calls a request makes, in order

    [ResJson] is a call of [res.json] that writes the response;
    [ErrorPage] is the response Express's final handler writes for an
    error nothing has handled. *)

Inductive Event :=
| PluginCall (hook : HookName) (plugin : string)
| HookCall (hook : HookName) (index : nat) (seen_ctx : Context) (seen_input : JS)
| PrismaCall (m : Prisma.method) (args : JS)
| ResJson (status : nat) (body : JS)
| WebhookTrigger (w : Webhook) (payload : EventTriggerPayload)
| LoggerCall (e : Err)
| ConsoleLog (e : Err)
| ErrorPage (status : nat) (e : Err).

(** ** The monad of the handler: a store, thrown errors, emitted events *)

Definition M (A : Type) := Store -> Res A * Store * list Event.

Definition ret {A} (a : A) : M A := fun s => (Ok a, s, []).

Definition bind {A B} (m : M A) (k : A -> M B) : M B :=
  fun s =>
    match m s with
    | (Ok a, s1, t1) =>
        match k a s1 with
        | (r, s2, t2) => (r, s2, t1 ++ t2)
        end
    | (Throw e, s1, t1) => (Throw e, s1, t1)
    end.

Declare Scope m_scope.
Delimit Scope m_scope with M.
Notation "x <- c ;; k" := (bind c (fun x => k))
  (at level 61, c at next level, right associativity) : m_scope.
Notation "c ;; k" := (bind c (fun _ => k))
  (at level 61, right associativity) : m_scope.

Definition emit (e : Event) : M unit := fun s => (Ok tt, s, [e]).
Definition get : M Store := fun s => (Ok s, s, []).
Definition lift {A} (r : Res A) : M A := fun s => (r, s, []).
Definition modify (f : Store -> Store) : M unit := fun s => (Ok tt, f s, []).

(** Calling a hook or a plugin function and discarding what it returns. *)
Definition call {A} (f : Store -> Res A * Store) : M unit :=
  fun s =>
    match f s with
    | (Ok _, s') => (Ok tt, s', [])
    | (Throw e, s') => (Throw e, s', [])
    end.

Fixpoint forEach {A} (f : A -> M unit) (l : list A) : M unit :=
  match l with
  | [] => ret tt
  | x :: xs => bind (f x) (fun _ => forEach f xs)
  end.

(** ** Property access and [Object.assign] *)

(** [v.k] for a key [k] that no prototype defines ([data], [where],
    [select], [skipDuplicates], [message], [name]) or for [length]. *)
Definition get_prop (v : JS) (k : string) : Res JS :=
  match v with
  | JUndefined | JNull =>
      Throw (TypeError ("Cannot read properties of undefined (reading '" ++ k ++ "')"))
  | JObj ps => Ok (match lookup k ps with Some x => x | None => JUndefined end)
  | JArr items =>
      if String.eqb k "length" then Ok (JNum (Z.of_nat (List.length items)))
      else Ok JUndefined
  | JStr s =>
      if String.eqb k "length" then
        if is_ascii s then Ok (JNum (Z.of_nat (String.length s)))
        else Throw (OutOfModel "length of a non-ASCII string")
      else Ok JUndefined
  | _ => Ok JUndefined
  end.

Definition isArray (v : JS) : bool :=
  match v with JArr _ => true | _ => false end.

Fixpoint indexed (i : Z) (l : list JS) : Props :=
  match l with
  | [] => []
  | x :: xs => (string_of_Z i, x) :: indexed (i + 1) xs
  end.

(** The own enumerable properties [Object.assign] copies from a source:
    none for [undefined], [null], booleans and numbers; the elements of an
    array and the characters of a string under their indices. *)
Definition own_enumerable (src : JS) : Res Props :=
  match src with
  | JObj ps => Ok ps
  | JArr items => Ok (indexed 0 items)
  | JStr s =>
      if is_ascii s
      then Ok (indexed 0 (map (fun c => JStr (String c EmptyString)) (list_ascii_of_string s)))
      else Throw (OutOfModel "characters of a non-ASCII string")
  | _ => Ok []
  end.

(** [Object.assign] writes with [[Set]]: on a plain target the key
    [__proto__] reaches the accessor of [Object.prototype] and defines no
    own property. *)
Definition assign_props (target : Props) (ps : Props) : Props :=
  fold_left (fun acc kv =>
               if String.eqb (fst kv) "__proto__" then acc
               else set_prop (fst kv) (snd kv) acc) ps target.

Definition assign (target : Props) (src : JS) : Res Props :=
  match own_enumerable src with
  | Ok ps => Ok (assign_props target ps)
  | Throw e => Throw e
  end.

(** [Object.assign({}, models[cKey], x)] *)
Definition merge_defaults (model x : JS) : Res JS :=
  match assign [] model with
  | Ok t => match assign t x with
            | Ok t' => Ok (JObj t')
            | Throw e => Throw e
            end
  | Throw e => Throw e
  end.

(** [mergeData]: element by element when [inputData.data] is an array. *)
Definition mergeData (model d : JS) : Res JS :=
  match d with
  | JArr items =>
      match rmap (merge_defaults model) items with
      | Ok l => Ok (JArr l)
      | Throw e => Throw e
      end
  | _ => merge_defaults model d
  end.

(** ** The collection route handler (the [app.all] callback of the server) *)

(** What the callback closes over: the collection key and value of the
    enclosing loop, the global webhooks, the plugin lists returned by
    [plugin(prisma).load()], the default template [models[cKey]] and the
    delegate [prisma[cKey]], of which only the outcome of a call matters. *)
Record Env := {
  cKey : string;
  cValue : Collection;
  globalWebhooks : option (list Webhook);
  activePlugins : list DatabasePlugin;
  inactivePlugins : list DatabasePlugin;
  models : JS;
  query : Prisma.method -> JS -> Res JS
}.

Definition or_empty {A} (o : option (list A)) : list A :=
  match o with Some l => l | None => [] end.

Definition hooks_of (env : Env) : CRUDHooks.t :=
  match hooks (cValue env) with Some h => h | None => CRUDHooks.empty end.

(** [[...(globalWebhooks || []), ...(webhooks || [])]] *)
Definition mergedWebhooks (env : Env) : list Webhook :=
  or_empty (globalWebhooks env) ++ or_empty (webhooks (cValue env)).

Definition with_currentHook (h : HookName) (c : Context) : Context :=
  {| sessionData := sessionData c; customVars := customVars c;
     isLocalhost := isLocalhost c; currentHook := h |}.

Definition set_currentHook (h : HookName) : M unit :=
  modify (fun s => set_ctx (with_currentHook h (ctx s)) s).

(** [for (const obj of activePlugins) obj.fn(ctx)] *)
Definition run_plugins (req : Request) (h : HookName) (ps : list DatabasePlugin) : M unit :=
  forEach (fun obj => bind (emit (PluginCall h (title obj))) (fun _ => call (fn obj req))) ps.

(** [for (const op of hooks || []) await op(operationArgs)]; the event
    records what the hook is given. *)
Fixpoint run_hooks (req : Request) (h : HookName) (i : nat) (ops : list Hook) : M unit :=
  match ops with
  | [] => ret tt
  | op :: rest =>
      bind get (fun s =>
      bind (emit (HookCall h i (ctx s) (seen_inputData s))) (fun _ =>
      bind (call (op req)) (fun _ =>
      run_hooks req h (S i) rest)))
  end.

Definition phase (env : Env) (req : Request) (h : HookName) (ops : option (list Hook))
    : M unit :=
  bind (set_currentHook h) (fun _ =>
  bind (run_plugins req h (activePlugins env)) (fun _ =>
  run_hooks req h 0 (or_empty ops))).

Definition prisma (env : Env) (m : Prisma.method) (args : JS) : M JS :=
  bind (emit (PrismaCall m args)) (fun _ => lift (query env m args)).

(** [res.json(body)]: Express refuses to write a second response. *)
Definition headers_sent : Err :=
  ErrorObj "Error" "Cannot set headers after they are sent to the client".

Definition res_json (body : JS) : M unit :=
  fun s =>
    if headersSent s then (Throw headers_sent, s, [])
    else (Ok tt, set_sent (Some (statusCode s, body)) s, [ResJson (statusCode s) body]).

Definition res_status (code : nat) : M unit := modify (set_statusCode code).

(** The persistence step of a request that is not a GET: [isArr],
    [mergeData] and the chain of tests on [reqMethod], which has no final
    [else]; [resultData] keeps its initial value [[]] when no test
    succeeds. *)
Definition persist (env : Env) (reqMethod : Method) : M JS :=
  bind get (fun s =>
  let body := inputData s in
  bind (lift (get_prop body "data")) (fun d =>
  let isArr := isArray d in
  bind (lift (mergeData (models env) d)) (fun md =>
  match reqMethod with
  | POST =>
      if isArr then
        bind (lift (get_prop body "skipDuplicates")) (fun sk =>
        prisma env Prisma.createMany (JObj [("data", md); ("skipDuplicates", sk)]))
      else
        bind (lift (get_prop body "select")) (fun sel =>
        prisma env Prisma.create (JObj [("data", md); ("select", sel)]))
  | PUT =>
      bind (lift (get_prop body "where")) (fun w =>
      prisma env (if isArr then Prisma.updateMany else Prisma.update)
             (JObj [("data", md); ("where", w)]))
  | DELETE =>
      bind (lift (get_prop body "where")) (fun w =>
      prisma env (if isArr then Prisma.deleteMany else Prisma.delete)
             (JObj [("where", w)]))
  | _ => ret (JArr [])
  end))).

(** [obj.onOperation.includes(flippedCrudMapping[reqMethod])] *)
Definition includes_operation (ops : list Operation) (o : option Operation) : bool :=
  match o with
  | Some op => existsb (Operation_eqb op) ops
  | None => false
  end.

(** The event envelope and the [forEach] over the merged webhooks. *)
Definition webhookTriggerPayload (env : Env) (req : Request) (resultData : JS)
    : Res EventTriggerPayload :=
  match get_prop resultData "length" with
  | Throw e => Throw e
  | Ok len =>
      match gt_zero len with
      | Throw e => Throw e
      | Ok positive =>
          Ok {| event := flippedCrudMapping (method req);
                collection := cKey env;
                data := if positive then resultData else JNull;
                timestamp := now req |}
      end
  end.

Definition fan_out (env : Env) (req : Request) (payload : EventTriggerPayload) : M unit :=
  forEach (fun obj =>
             if includes_operation (onOperation obj) (flippedCrudMapping (method req))
             then emit (WebhookTrigger obj payload)
             else ret tt)
          (mergedWebhooks env).

(** The body of the [try] block. *)
Definition handler (env : Env) (req : Request) : M unit :=
  let h := hooks_of env in
  bind (phase env req beforeOperation (CRUDHooks.beforeOperation h)) (fun _ =>
  bind (match method req with
        | GET =>
            bind get (fun s =>
            bind (lift (mapQuery (reqQuery s))) (fun mappedQuery =>
            prisma env Prisma.findMany (JObj mappedQuery)))
        | reqMethod =>
            bind (phase env req validateInput (CRUDHooks.validateInput h)) (fun _ =>
            bind (phase env req modifyInput (CRUDHooks.modifyInput h)) (fun _ =>
            persist env reqMethod))
        end) (fun resultData =>
  bind (phase env req afterOperation (CRUDHooks.afterOperation h)) (fun _ =>
  bind (res_json resultData) (fun _ =>
  bind (lift (webhookTriggerPayload env req resultData)) (fun payload =>
  fan_out env req payload))))).

(** ** The function [errHandler]

    The function as it is written, that is, what it does when it is
    called with an error. *)

Definition prismaErrors : list string :=
  [ "PrismaClientInitializationError"; "PrismaClientKnownRequestError";
    "PrismaClientRustPanicError"; "PrismaClientUnknownRequestError";
    "PrismaClientValidationError" ].

(** [err.constructor.name] *)
Definition constructor_name (err : Err) : Res JS :=
  match err with
  | ContentKittyError _ _ _ => Ok (JStr "ContentKittyError")
  | TypeError _ => Ok (JStr "TypeError")
  | SyntaxError _ => Ok (JStr "SyntaxError")
  | ErrorObj n _ => Ok (JStr n)
  | Thrown v =>
      match v with
      | JUndefined | JNull =>
          Throw (TypeError "Cannot read properties of undefined (reading 'constructor')")
      | JBool _ => Ok (JStr "Boolean")
      | JNum _ | JFloat _ => Ok (JStr "Number")
      | JStr _ => Ok (JStr "String")
      | JArr _ => Ok (JStr "Array")
      | JObj ps =>
          match lookup "constructor" ps with
          | None => Ok (JStr "Object")
          | Some c => get_prop c "name"
          end
      end
  | OutOfModel w => Throw (OutOfModel w)
  end.

Definition isPrismaErr (err : Err) : Res bool :=
  match constructor_name err with
  | Ok (JStr n) => Ok (existsb (String.eqb n) prismaErrors)
  | Ok _ => Ok false
  | Throw e => Throw e
  end.

(** [err.message] *)
Definition err_message (err : Err) : Res JS :=
  match err with
  | ContentKittyError _ m _ | TypeError m | SyntaxError m | ErrorObj _ m => Ok (JStr m)
  | Thrown v => get_prop v "message"
  | OutOfModel w => Throw (OutOfModel w)
  end.

(** [err instanceof Error || err instanceof SystemPandaError ? err.message : err] *)
Definition message_or_self (err : Err) : Res JS :=
  match err with
  | Thrown v => Ok v
  | _ => err_message err
  end.

Definition errHandler (err : Err) : M unit :=
  bind (lift (isPrismaErr err)) (fun prismaErr =>
  bind get (fun s =>
  bind (if negb (headersSent s) then
          bind (res_status 500) (fun _ =>
          bind (lift (if prismaErr then err_message err else message_or_self err)) (fun msg =>
          res_json (JObj [("success", JBool false); ("message", msg)])))
        else ret tt) (fun _ =>
  bind (emit (LoggerCall err)) (fun _ =>
  emit (ConsoleLog err))))).

(** ** Express: where an error given to [next] goes

    Express is not among the sources.  What the server relies on is taken
    from its router and its final handler:

    - a falsy value given to [next], and the strings ["route"] and
      ["router"], are no error for the router, which goes on to the routes
      registered later; this continuation is outside the model;
    - an error is handed to the error-handling middleware, which Express
      recognizes by their four parameters.  [errHandler], installed with
      [app.use(srvDefaultAfterResponse)], is declared with three,
      [(err, req, res)]: the router skips it while an error is pending.
      The configuration's [extendServer] is taken to install no
      error-handling middleware, so the error reaches the final handler;
    - the final handler answers, unless a response has been sent, with the
      status [err.status] or [err.statusCode] when that is a number from
      400 to 599, else with [res.statusCode] when that is from 400 to 599,
      else with 500, and with a page of its own: it calls neither
      [res.json] nor the logger of the project nor [console.log].  When a
      response has been sent it writes nothing (and closes the
      connection).  Outside the test environment the application also
      prints the stack of the error with [console.error]; that is no
      event of the model. *)

(** ToBoolean *)
Definition truthy (v : JS) : bool :=
  match v with
  | JUndefined | JNull | JBool false => false
  | JNum z => negb (z =? 0)
  | JStr s => negb (String.eqb s "")
  | _ => true
  end.

(** Modelled from the spec: the class [ContentKittyError] is exported by
    util/index.js, which is not among the sources; an instance is taken to
    carry the status it was constructed with as its property [status] (the
    malformed-input error is the specification's HTTP 400) and to have no
    property [statusCode].  The other instances of [Error] of the model
    have neither property; a thrown value has the properties it has. *)
Definition error_property (err : Err) (k : string) : Res JS :=
  match err with
  | ContentKittyError _ _ status =>
      Ok (if String.eqb k "status" then JNum (Z.of_nat status) else JUndefined)
  | TypeError _ | SyntaxError _ | ErrorObj _ _ => Ok JUndefined
  | Thrown v => get_prop v k
  | OutOfModel w => Throw (OutOfModel w)
  end.

(** [typeof v === 'number' && v >= 400 && v < 600] *)
Definition status_in_range (v : JS) : Res (option nat) :=
  match v with
  | JNum z => Ok (if (400 <=? z) && (z <? 600) then Some (Z.to_nat z) else None)
  | JFloat _ => Throw (OutOfModel "number comparison")
  | _ => Ok None
  end.

Definition getErrorStatusCode (err : Err) : Res (option nat) :=
  match rbind (error_property err "status") status_in_range with
  | Throw e => Throw e
  | Ok (Some code) => Ok (Some code)
  | Ok None => rbind (error_property err "statusCode") status_in_range
  end.

Definition getResponseStatusCode (s : Store) : nat :=
  if ((statusCode s <? 400) || (599 <? statusCode s))%nat then 500%nat else statusCode s.

(** The status the final handler answers with. *)
Definition final_status (err : Err) (s : Store) : Res nat :=
  match getErrorStatusCode err with
  | Throw e => Throw e
  | Ok (Some code) => Ok code
  | Ok None => Ok (getResponseStatusCode s)
  end.

(** The page the final handler writes is no data of the model: what has
    been sent is recorded with [undefined] for its body. *)
Definition page : JS := JUndefined.

Definition finalhandler (err : Err) : M unit :=
  fun s =>
    match final_status err s with
    | Throw e => (Throw e, s, [])
    | Ok status =>
        if headersSent s then (Ok tt, s, [])
        else (Ok tt, set_sent (Some (status, page)) (set_statusCode status s),
              [ErrorPage status err])
    end.

(** [next(err)] in the [catch] of the route handler. *)
Definition next_err (err : Err) : M unit :=
  match err with
  | OutOfModel w => lift (Throw (OutOfModel w))
  | Thrown v =>
      if negb (truthy v) then lift (Throw (OutOfModel "next called with a falsy value"))
      else
        match v with
        | JStr s =>
            if String.eqb s "route" || String.eqb s "router"
            then lift (Throw (OutOfModel "next called with route or router"))
            else finalhandler err
        | _ => finalhandler err
        end
  | _ => finalhandler err
  end.

(** ** One request: [try { ... } catch (err) { next(err) }]

    The route handler, run for a request, and where its error goes.  Which
    requests reach the handler is decided by the middlewares installed
    before it: with its default options [cors] answers an OPTIONS request
    itself. *)
Definition serve (env : Env) (req : Request) : M unit :=
  fun s =>
    match handler env req s with
    | (Ok tt, s1, t1) => (Ok tt, s1, t1)
    | (Throw e, s1, t1) =>
        match next_err e s1 with
        | (r, s2, t2) => (r, s2, t1 ++ t2)
        end
    end.

Definition trace_of {A} (x : Res A * Store * list Event) : list Event := snd x.
Definition store_of {A} (x : Res A * Store * list Event) : Store := snd (fst x).
Definition result_of {A} (x : Res A * Store * list Event) : Res A := fst (fst x).

(** * Vocabulary of the statements *)

(** ** Kinds of events *)

Definition is_prisma (e : Event) : bool :=
  match e with PrismaCall _ _ => true | _ => false end.

Definition is_webhook (e : Event) : bool :=
  match e with WebhookTrigger _ _ => true | _ => false end.

Definition is_response (e : Event) : bool :=
  match e with ResJson _ _ => true | _ => false end.

(** A response written to the client: by [res.json] or by the final
    handler. *)
Definition is_answer (e : Event) : bool :=
  match e with ResJson _ _ | ErrorPage _ _ => true | _ => false end.

(** A call of the project's logger or of [console.log]. *)
Definition is_log (e : Event) : bool :=
  match e with LoggerCall _ | ConsoleLog _ => true | _ => false end.

(** An error the router hands on to the final handler. *)
Definition passed_on (err : Err) : bool :=
  match err with
  | OutOfModel _ => false
  | Thrown v =>
      truthy v
      && negb match v with
              | JStr s => String.eqb s "route" || String.eqb s "router"
              | _ => false
              end
  | _ => true
  end.

(** The phase of a plugin or hook call. *)
Definition hook_of (e : Event) : option HookName :=
  match e with
  | PluginCall h _ | HookCall h _ _ _ => Some h
  | _ => None
  end.

(** The plugin a call event names. *)
Definition plugin_of (e : Event) : option string :=
  match e with
  | PluginCall _ p => Some p
  | _ => None
  end.

(** ** What a computation can emit *)

Definition emits {A} (P : Event -> Prop) (m : M A) : Prop :=
  forall s, Forall P (trace_of (m s)).

Create HintDb emits.

(** An error of the program, as opposed to leaving the model. *)
Definition in_model (e : Err) : Prop :=
  match e with OutOfModel _ => False | _ => True end.


(** ** The handler on a method outside the table

    What is left of the handler when [reqMethod] is none of GET, POST, PUT
    and DELETE: the four phases, the evaluation of [inputData.data] and of
    [mergeData] (which may throw), and the response [[]]. *)
Definition unmapped_method (env : Env) (req : Request) : M unit :=
  let h := hooks_of env in
  bind (phase env req beforeOperation (CRUDHooks.beforeOperation h)) (fun _ =>
  bind (phase env req validateInput (CRUDHooks.validateInput h)) (fun _ =>
  bind (phase env req modifyInput (CRUDHooks.modifyInput h)) (fun _ =>
  bind get (fun s =>
  bind (lift (get_prop (inputData s) "data")) (fun d =>
  bind (lift (mergeData (models env) d)) (fun _ =>
  bind (phase env req afterOperation (CRUDHooks.afterOperation h)) (fun _ =>
  res_json (JArr [])))))))).

(** ** The stages of the handler *)

(** The three hook phases that precede the persistence call of a write. *)
Definition before_persist (env : Env) (req : Request) : M unit :=
  let h := hooks_of env in
  bind (phase env req beforeOperation (CRUDHooks.beforeOperation h)) (fun _ =>
  bind (phase env req validateInput (CRUDHooks.validateInput h)) (fun _ =>
  phase env req modifyInput (CRUDHooks.modifyInput h))).

(** Everything up to the assignment of [resultData]. *)
Definition obtain_result (env : Env) (req : Request) : M JS :=
  let h := hooks_of env in
  bind (phase env req beforeOperation (CRUDHooks.beforeOperation h)) (fun _ =>
  match method req with
  | GET =>
      bind get (fun s =>
      bind (lift (mapQuery (reqQuery s))) (fun mappedQuery =>
      prisma env Prisma.findMany (JObj mappedQuery)))
  | reqMethod =>
      bind (phase env req validateInput (CRUDHooks.validateInput h)) (fun _ =>
      bind (phase env req modifyInput (CRUDHooks.modifyInput h)) (fun _ =>
      persist env reqMethod))
  end).

(** Everything after it: the [afterOperation] phase, the response, the
    envelope and the fan-out. *)
Definition after_result (env : Env) (req : Request) (resultData : JS) : M unit :=
  bind (phase env req afterOperation (CRUDHooks.afterOperation (hooks_of env))) (fun _ =>
  bind (res_json resultData) (fun _ =>
  bind (lift (webhookTriggerPayload env req resultData)) (fun payload =>
  fan_out env req payload))).

(** The webhooks of the merged list that listen to the operation of the
    request. *)
Definition listeners (env : Env) (req : Request) : list Webhook :=
  filter (fun w => includes_operation (onOperation w) (flippedCrudMapping (method req)))
         (mergedWebhooks env).

(** The delegate method a write calls. *)
Definition write_method (m : Method) (isArr : bool) : option Prisma.method :=
  match m with
  | POST => Some (if isArr then Prisma.createMany else Prisma.create)
  | PUT => Some (if isArr then Prisma.updateMany else Prisma.update)
  | DELETE => Some (if isArr then Prisma.deleteMany else Prisma.delete)
  | _ => None
  end.

(** ** Calls of plugins and hooks

    A trace read as the sequence of plugin and hook calls it holds, without
    what each call was given. *)
Inductive Call :=
| PluginCalled (h : HookName) (plugin : string)
| HookCalled (h : HookName) (index : nat).

Definition call_of (e : Event) : option Call :=
  match e with
  | PluginCall h p => Some (PluginCalled h p)
  | HookCall h i _ _ => Some (HookCalled h i)
  | _ => None
  end.

Fixpoint calls (t : list Event) : list Call :=
  match t with
  | [] => []
  | e :: t' =>
      match call_of e with
      | Some c => c :: calls t'
      | None => calls t'
      end
  end.

(** The calls of a whole phase: every active plugin, in the order of the
    list, then every hook of the phase, in the order of its declaration. *)
Definition phase_calls (env : Env) (h : HookName) (ops : option (list Hook)) : list Call :=
  map (fun p => PluginCalled h (title p)) (activePlugins env)
  ++ map (HookCalled h) (seq 0 (List.length (or_empty ops))).

(** The calls of a whole request: two phases for a GET, four otherwise. *)
Definition expected_calls (env : Env) (req : Request) : list Call :=
  let hs := hooks_of env in
  phase_calls env beforeOperation (CRUDHooks.beforeOperation hs)
  ++ match method req with
     | GET => []
     | _ => phase_calls env validateInput (CRUDHooks.validateInput hs)
            ++ phase_calls env modifyInput (CRUDHooks.modifyInput hs)
     end
  ++ phase_calls env afterOperation (CRUDHooks.afterOperation hs).

(** [m] makes the calls [l]: all of them, in order, when it returns; a
    prefix of them when it throws. *)
Definition follows {A} (m : M A) (l : list Call) : Prop :=
  forall s,
    (exists rest, l = calls (trace_of (m s)) ++ rest)
    /\ (forall a, result_of (m s) = Ok a -> calls (trace_of (m s)) = l).

(** ** Configurations that differ in returned values only *)

(** [f] with its returned value replaced by [b]; what it throws and what it
    does to the store are kept. *)
Definition returning {A B} (b : B) (f : Store -> Res A * Store) : Store -> Res B * Store :=
  fun s =>
    match f s with
    | (Ok _, s') => (Ok b, s')
    | (Throw e, s') => (Throw e, s')
    end.

Definition hooks_returning (v : JS) (ops : option (list Hook)) : option (list Hook) :=
  option_map (map (fun (op : Hook) req => returning v (op req))) ops.

Definition plugin_returning (c : Context) (p : DatabasePlugin) : DatabasePlugin :=
  {| active := active p; title := title p; author := author p; version := version p;
     fn := fun req => returning c (fn p req) |}.

(** The configuration [env] in which every hook returns [v] and every
    plugin function returns [c]. *)
Definition env_returning (v : JS) (c : Context) (env : Env) : Env :=
  {| cKey := cKey env;
     cValue :=
       {| hooks :=
            Some {| CRUDHooks.beforeOperation :=
                      hooks_returning v (CRUDHooks.beforeOperation (hooks_of env));
                    CRUDHooks.validateInput :=
                      hooks_returning v (CRUDHooks.validateInput (hooks_of env));
                    CRUDHooks.modifyInput :=
                      hooks_returning v (CRUDHooks.modifyInput (hooks_of env));
                    CRUDHooks.afterOperation :=
                      hooks_returning v (CRUDHooks.afterOperation (hooks_of env)) |};
          webhooks := webhooks (cValue env) |};
     globalWebhooks := globalWebhooks env;
     activePlugins := map (plugin_returning c) (activePlugins env);
     inactivePlugins := inactivePlugins env;
     models := models env;
     query := query env |}.

(** ** Commas *)

Definition has_comma (l : list N) : bool := existsb (N.eqb 44) l.

(** ** Counting persistence calls *)

Definition prisma_calls (t : list Event) : nat := List.length (filter is_prisma t).

(** * Sample configurations

    The concrete collections, hooks, plugins and requests at which the
    statements below are evaluated. *)

(** The context as the server creates it and a fresh response. *)
Definition ctx0 : Context :=
  {| sessionData := JArr []; customVars := []; isLocalhost := false;
     currentHook := beforeOperation |}.

Definition init_store (body : JS) (q : Props) : Store :=
  {| ctx := ctx0; inputData := body; argsInputData := None; reqQuery := q;
     statusCode := 200; sent := None |}.

(** A [beforeOperation] hook that denies: it returns [false]. *)
Definition deny : Hook := fun _ s => (Ok (JBool false), s).

(** A [modifyInput] hook that returns a replacement for [inputData] and
    mutates nothing. *)
Definition retitled : JS := JObj [("data", JObj [("title", JStr "changed")])].
Definition return_replacement : Hook := fun _ s => (Ok retitled, s).

(** A [modifyInput] hook that mutates [req.body] in place (it assigns
    [inputData.data]) and returns nothing. *)
Definition retitle_in_place : Hook :=
  fun _ s =>
    (Ok JUndefined,
     set_inputData
       match inputData s with
       | JObj ps => JObj (set_prop "data" (JObj [("title", JStr "changed")]) ps)
       | v => v
       end s).

(** An [afterOperation] hook with no effect. *)
Definition noop : Hook := fun _ s => (Ok JUndefined, s).

(** A plugin whose function returns a modified [Context] (a copy with one
    more custom variable) and leaves the shared object as it is. *)
Definition flagged (c : Context) : Context :=
  {| sessionData := sessionData c; customVars := customVars c ++ [("flag", JBool true)];
     isLocalhost := isLocalhost c; currentHook := currentHook c |}.

Definition flag_plugin : DatabasePlugin :=
  {| active := true; title := "flag"; author := "a"; version := "1";
     fn := fun _ s => (Ok (flagged (ctx s)), s) |}.

Definition idle_plugin : DatabasePlugin :=
  {| active := false; title := "idle"; author := "a"; version := "1";
     fn := fun _ s => (Ok (ctx s), s) |}.

(** A delegate: [findMany] returns one row, the writes return the record
    they are given ([createMany] a count). *)
Definition sample_db : Prisma.method -> JS -> Res JS :=
  fun m args =>
    match m with
    | Prisma.findMany => Ok (JArr [JObj [("id", JNum 1)]])
    | Prisma.createMany | Prisma.updateMany | Prisma.deleteMany => Ok (JObj [("count", JNum 1)])
    | Prisma.delete => Ok (JObj [("id", JNum 1)])
    | _ => get_prop args "data"
    end.

(** A delegate for a collection that has a field named [length]. *)
Definition film_db : Prisma.method -> JS -> Res JS :=
  fun _ _ => Ok (JObj [("id", JNum 1); ("length", JNum 5)]).

Definition on_writes : Webhook :=
  {| name := "audit"; api := "https://example.org/audit";
     onOperation := [create; update; delete] |}.
Definition on_reads : Webhook :=
  {| name := "stats"; api := "https://example.org/stats"; onOperation := [read] |}.

Definition sample_env (before modify : list Hook) (plugins : list DatabasePlugin)
    (db : Prisma.method -> JS -> Res JS) : Env :=
  {| cKey := "posts";
     cValue := {| hooks := Some {| CRUDHooks.beforeOperation := Some before;
                                   CRUDHooks.validateInput := None;
                                   CRUDHooks.modifyInput := Some modify;
                                   CRUDHooks.afterOperation := Some [noop] |};
                  webhooks := Some [on_writes] |};
     globalWebhooks := Some [on_reads];
     activePlugins := plugins;
     inactivePlugins := [idle_plugin];
     models := JObj [("title", JUndefined); ("body", JUndefined)];
     query := db |}.

Definition sample_req (m : Method) : Request :=
  {| method := m; now := "2024-01-01T00:00:00.000Z" |}.

Definition post_body : JS := JObj [("data", JObj [("title", JStr "x")])].

(** * The rest of the server entry point

    Around the collection routes the entry point builds the registry of
    the collections it serves, answers [GET /] with the plugins and the
    collections, and serves the plugin routes. *)

(** ** Objects whose values are not data

    The registry of collections and the listing of plugins are objects
    that hold collection definitions and plugin objects; their own
    properties behave as those of [Props]. *)

Section Objects.
Context {V : Type}.

Fixpoint own (k : string) (ps : list (string * V)) : option V :=
  match ps with
  | [] => None
  | (k', v) :: ps' => if String.eqb k' k then Some v else own k ps'
  end.

Fixpoint redefine (k : string) (v : V) (ps : list (string * V)) : list (string * V) :=
  match ps with
  | [] => []
  | (k', v') :: ps' =>
      if String.eqb k' k then (k', v) :: ps' else (k', v') :: redefine k v ps'
  end.

Fixpoint define_index (i : Z) (k : string) (v : V) (ps : list (string * V))
    : list (string * V) :=
  match ps with
  | [] => [(k, v)]
  | (k', v') :: ps' =>
      match array_index k' with
      | Some j => if j <? i then (k', v') :: define_index i k v ps'
                  else (k, v) :: ps
      | None => (k, v) :: ps
      end
  end.

(** Defining the own property [k]: an existing property keeps its place,
    a new array index goes among the indices, any other new key last. *)
Definition define (k : string) (v : V) (ps : list (string * V)) : list (string * V) :=
  match own k ps with
  | Some _ => redefine k v ps
  | None =>
      match array_index k with
      | Some i => define_index i k v ps
      | None => ps ++ [(k, v)]
      end
  end.

(** [{ ...target, ...src }]: the own properties of the source are defined
    on the copy of the target one after the other. *)
Definition spread (target src : list (string * V)) : list (string * V) :=
  fold_left (fun acc kv => define (fst kv) (snd kv) acc) src target.

(** The own enumerable properties of an array: its elements under their
    indices, counted from [i]. *)
Fixpoint elements (i : Z) (l : list V) : list (string * V) :=
  match l with
  | [] => []
  | x :: xs => (string_of_Z i, x) :: elements (i + 1) xs
  end.

End Objects.

(** ** The registry of collections *)

(** [config.session], of which the entry point reads [slug]. *)
Record Session := {
  slug : option string
}.

(** [session?.slug || "users"]: without session, without slug and with the
    empty slug the key is ["users"]. *)
Definition usersKey (session : option Session) : string :=
  match session with
  | Some {| slug := Some s |} => if String.eqb s "" then "users" else s
  | _ => "users"
  end.

(** [{ [session?.slug || "users"]: defaultCollections.users }]; the
    built-in collection [defaultCollections.users] is exported by
    lib/collection and is the parameter [users]. *)
Definition usersCollection (session : option Session) (users : Collection)
    : list (string * Collection) :=
  define (usersKey session) users [].

(** [{ ...collections, ...usersCollection }] *)
Definition defaultAndCustomCollections (collections : option (list (string * Collection)))
    (session : option Session) (users : Collection) : list (string * Collection) :=
  spread (spread [] (or_empty collections)) (usersCollection session users).

(** What the entry point is called with and what it has loaded before it
    registers the routes: [content.collections], [content.webhooks],
    [config.session], the built-in users collection, the plugins returned by
    [plugin(prisma).load()], the templates [models] and the client
    [prisma]. *)
Module Options.
Record t := {
  collections : option (list (string * Collection));
  webhooks : option (list Webhook);
  session : option Session;
  users : Collection;
  active : list DatabasePlugin;
  inactive : list DatabasePlugin;
  models : string -> JS;
  prisma : string -> Prisma.method -> JS -> Res JS
}.
End Options.

(** [for (const [cKey, cValue] of Object.entries(defaultAndCustomCollections))]:
    one route per entry, whose handler closes over the key and the value
    of the entry. *)
Definition collection_routes (o : Options.t) : list Env :=
  map (fun kv =>
         {| cKey := fst kv;
            cValue := snd kv;
            globalWebhooks := Options.webhooks o;
            activePlugins := Options.active o;
            inactivePlugins := Options.inactive o;
            models := Options.models o (fst kv);
            query := Options.prisma o (fst kv) |})
      (defaultAndCustomCollections (Options.collections o) (Options.session o)
                                   (Options.users o)).

(** ** [GET /]: the two fields of the body *)

(** [{ ...activePlugins, ...inactivePlugins }] *)
Definition index_plugins (activePlugins inactivePlugins : list DatabasePlugin)
    : list (string * DatabasePlugin) :=
  spread (spread [] (elements 0 activePlugins)) (elements 0 inactivePlugins).

(** [Object.keys(defaultAndCustomCollections).map(x => "/" + x)] *)
Definition index_collections (registry : list (string * Collection)) : list string :=
  map (fun x => "/" ++ x)%string (map fst registry).

(** ** The plugin routes

    [/plugins/:title/:installOrUninstall] and
    [/plugins/:title/:enableOrDisable] are two routes of the same shape,
    registered in this order; [next()] in the first hands the request to
    the second, [next()] in the second to what is registered after it. *)

Module PluginOperations.
Inductive name := install | uninstall | enable | disable.
End PluginOperations.

(** How a route callback ends: [next()], [next(err)] or [res.json(body)]. *)
Inductive Routed :=
| Next
| NextErr (e : Err)
| Json (body : JS).

Definition toUpperCase (c : ascii) : ascii :=
  let n := nat_of_ascii c in
  if ((97 <=? n) && (n <=? 122))%nat then ascii_of_nat (n - 32) else c.

(** [s[0].toUpperCase() + s.slice(1)] for a string that starts with an
    ASCII character; [s[0]] is [undefined] when [s] is empty. *)
Definition capitalized (s : string) : Res string :=
  match s with
  | EmptyString =>
      Throw (TypeError "Cannot read properties of undefined (reading 'toUpperCase')")
  | String c rest => Ok (String (toUpperCase c) rest)
  end.

Definition restart_notice : string := ". Please restart and rebuild your application.".

(** The callbacks are given the operations of [plugin(prisma)] as [run];
    they return how they end and the operations they have called. *)
Definition installOrUninstall_route (run : PluginOperations.name -> string -> Res unit)
    (title installOrUninstall : string) : Routed * list (PluginOperations.name * string) :=
  if negb (String.eqb installOrUninstall "install")
     && negb (String.eqb installOrUninstall "uninstall")
  then (Next, [])
  else
    let op := if String.eqb installOrUninstall "install"
              then PluginOperations.install else PluginOperations.uninstall in
    match run op title with
    | Throw e => (NextErr e, [(op, title)])
    | Ok _ =>
        match capitalized installOrUninstall with
        | Throw e => (NextErr e, [(op, title)])
        | Ok verb =>
            (Json (JObj [("message",
                          JStr (verb ++ "led plugin: " ++ title ++ restart_notice))]),
             [(op, title)])
        end
    end.

Definition enableOrDisable_route (run : PluginOperations.name -> string -> Res unit)
    (title enableOrDisable : string) : Routed * list (PluginOperations.name * string) :=
  if negb (String.eqb enableOrDisable "enable")
     && negb (String.eqb enableOrDisable "disable")
  then (Next, [])
  else
    let op := if String.eqb enableOrDisable "enable"
              then PluginOperations.enable else PluginOperations.disable in
    match run op title with
    | Throw e => (NextErr e, [(op, title)])
    | Ok _ =>
        match capitalized enableOrDisable with
        | Throw e => (NextErr e, [(op, title)])
        | Ok verb =>
            (Json (JObj [("message",
                          JStr (verb ++ "d plugin: " ++ title ++ restart_notice))]),
             [(op, title)])
        end
    end.

Definition plugin_routes (run : PluginOperations.name -> string -> Res unit)
    (title action : string) : Routed * list (PluginOperations.name * string) :=
  match installOrUninstall_route run title action with
  | (Next, called) =>
      let (r, called') := enableOrDisable_route run title action in
      (r, called ++ called')
  | ended => ended
  end.

(** The operation a path segment names. *)
Definition operation_named (action : string) : option PluginOperations.name :=
  if String.eqb action "install" then Some PluginOperations.install
  else if String.eqb action "uninstall" then Some PluginOperations.uninstall
  else if String.eqb action "enable" then Some PluginOperations.enable
  else if String.eqb action "disable" then Some PluginOperations.disable
  else None.

(** * More vocabulary *)

(** The responses written in a trace. *)
Definition responses (t : list Event) : nat := List.length (filter is_answer t).

(** The body [errHandler] answers with. *)
Definition failure (message : JS) : JS :=
  JObj [("success", JBool false); ("message", message)].

(** A query value that holds white space only, or nothing. *)
Definition blank (v : string) : bool :=
  match strip_ws (codes v) with [] => true | _ => false end.

(** A thrown value that is no instance of [Error], is neither [undefined]
    nor [null] and, when an object, has no own property [constructor]. *)
Definition plain_thrown (v : JS) : bool :=
  match v with
  | JUndefined | JNull => false
  | JObj ps => negb (has_own "constructor" ps)
  | _ => true
  end.

(** Hooks and plugin functions that leave [res.statusCode] as it is. *)
Definition keeps_status {A} (f : Store -> Res A * Store) : Prop :=
  forall s, statusCode (snd (f s)) = statusCode s.

Definition all_hooks (env : Env) : list Hook :=
  let h := hooks_of env in
  or_empty (CRUDHooks.beforeOperation h) ++ or_empty (CRUDHooks.validateInput h)
  ++ or_empty (CRUDHooks.modifyInput h) ++ or_empty (CRUDHooks.afterOperation h).

Definition status_untouched (env : Env) (req : Request) : Prop :=
  (forall p, In p (activePlugins env) -> keeps_status (fn p req))
  /\ (forall op, In op (all_hooks env) -> keeps_status (op req)).

(** The phases that precede the call of the delegate: one for a read,
    three for any other request. *)
Definition before_delegate (env : Env) (req : Request) : M unit :=
  match method req with
  | GET => phase env req beforeOperation (CRUDHooks.beforeOperation (hooks_of env))
  | _ => before_persist env req
  end.

(** The step that assigns [resultData]: the normalized query to [findMany]
    for a read, the persistence step for any other request. *)
Definition delegate_step (env : Env) (req : Request) : M JS :=
  match method req with
  | GET =>
      bind get (fun s =>
      bind (lift (mapQuery (reqQuery s))) (fun mappedQuery =>
      prisma env Prisma.findMany (JObj mappedQuery)))
  | reqMethod => persist env reqMethod
  end.

(** A computation that leaves [res.statusCode] as it is. *)
Definition preserves_status {A} (m : M A) : Prop :=
  forall s, statusCode (store_of (m s)) = statusCode s.

(** The decimal numeral [ds] (byte codes) of the natural number [z]: digits
    only, no leading zero, of value [z], and no longer than [z] needs. *)
Definition canonical (z : Z) (ds : list N) : Prop :=
  forallb is_digit ds = true
  /\ digits_val ds = z
  /\ match ds with
     | [] => False
     | c :: rest => c <> 48%N \/ (z = 0 /\ rest = [])
     end
  /\ forall k, (0 < k)%nat -> z < 10 ^ Z.of_nat k -> (List.length ds <= k)%nat.

(** The text of the answer of a plugin route. *)
Definition confirmation (op : PluginOperations.name) : string :=
  match op with
  | PluginOperations.install => "Installled plugin: "
  | PluginOperations.uninstall => "Uninstallled plugin: "
  | PluginOperations.enable => "Enabled plugin: "
  | PluginOperations.disable => "Disabled plugin: "
  end.

(** A piece of the text of a query value: a string, or [undefined] where
    the piece is missing. *)
Definition is_piece (v : JS) : Prop :=
  v = JUndefined \/ exists s, v = JStr s.

(** * More sample configurations *)

(** A hook that refuses by throwing. *)
Definition forbidden : Err := ErrorObj "Error" "forbidden".
Definition refuse : Hook := fun _ s => (Throw forbidden, s).

(** A hook that answers the request itself, with status 204. *)
Definition answer : Hook := fun _ s => (Ok JUndefined, set_sent (Some (204%nat, JNull)) s).

(** A collection like [sample_env] with the given [afterOperation] hooks
    and no plugin. *)
Definition env_after (after : list Hook) : Env :=
  {| cKey := "posts";
     cValue := {| hooks := Some {| CRUDHooks.beforeOperation := None;
                                   CRUDHooks.validateInput := None;
                                   CRUDHooks.modifyInput := None;
                                   CRUDHooks.afterOperation := Some after |};
                  webhooks := Some [on_writes] |};
     globalWebhooks := Some [on_reads];
     activePlugins := [];
     inactivePlugins := [];
     models := JObj [("title", JUndefined); ("body", JUndefined)];
     query := sample_db |}.

(** A delegate whose [findMany] finds nothing. *)
Definition empty_db : Prisma.method -> JS -> Res JS :=
  fun m args =>
    match m with
    | Prisma.findMany => Ok (JArr [])
    | _ => sample_db m args
    end.

(** A configuration that declares two collections, one of them under the
    key of the users collection, and no session. *)
Definition posts : Collection := {| hooks := None; webhooks := Some [on_writes] |}.
Definition own_users : Collection := {| hooks := None; webhooks := Some [on_reads] |}.
Definition built_in_users : Collection := {| hooks := None; webhooks := None |}.

Definition sample_options : Options.t :=
  {| Options.collections := Some [("posts", posts); ("users", own_users)];
     Options.webhooks := None;
     Options.session := None;
     Options.users := built_in_users;
     Options.active := [flag_plugin];
     Options.inactive := [idle_plugin];
     Options.models := fun _ => JObj [];
     Options.prisma := fun _ => sample_db |}.

(** * Properties *)

(** ** Running the monad *)

Lemma bind_ok {A B} (m : M A) (k : A -> M B) s a s1 t1 :
  m s = (Ok a, s1, t1) ->
  bind m k s = (result_of (k a s1), store_of (k a s1), t1 ++ trace_of (k a s1)).
Proof.
  intros H. unfold bind. rewrite H.
  destruct (k a s1) as [[r s2] t2]. reflexivity.
Qed.

Lemma bind_throw {A B} (m : M A) (k : A -> M B) s e s1 t1 :
  m s = (Throw e, s1, t1) -> bind m k s = (Throw e, s1, t1).
Proof. intros H. unfold bind. rewrite H. reflexivity. Qed.

Lemma bind_ext {A B} (m : M A) (k k' : A -> M B) s :
  (forall a s', k a s' = k' a s') -> bind m k s = bind m k' s.
Proof.
  intros H. unfold bind. destruct (m s) as [[[a|e] s1] t1]; [rewrite H|]; reflexivity.
Qed.

Lemma bind_assoc {A B C} (m : M A) (f : A -> M B) (g : B -> M C) s :
  bind (bind m f) g s = bind m (fun a => bind (f a) g) s.
Proof.
  unfold bind. destruct (m s) as [[[a|e] s1] t1]; [|reflexivity].
  destruct (f a s1) as [[[b|e] s2] t2]; [|reflexivity].
  destruct (g b s2) as [[r s3] t3]. rewrite app_assoc. reflexivity.
Qed.

(** ** What a computation can emit *)

Lemma emits_ret {A} P (a : A) : emits P (ret a).
Proof. intros s. constructor. Qed.

Lemma emits_lift {A} P (r : Res A) : emits P (lift r).
Proof. intros s. constructor. Qed.

Lemma emits_get P : emits P get.
Proof. intros s. constructor. Qed.

Lemma emits_modify P f : emits P (modify f).
Proof. intros s. constructor. Qed.

Lemma emits_emit (P : Event -> Prop) e : P e -> emits P (emit e).
Proof. intros H s. repeat constructor. exact H. Qed.

Lemma emits_call {A} P (f : Store -> Res A * Store) : emits P (call f).
Proof. intros s. unfold call. destruct (f s) as [[a|e] s']; constructor. Qed.

Lemma emits_bind {A B} P (m : M A) (k : A -> M B) :
  emits P m -> (forall a, emits P (k a)) -> emits P (bind m k).
Proof.
  intros Hm Hk s. specialize (Hm s). unfold bind.
  destruct (m s) as [[[a|e] s1] t1]; [|exact Hm].
  specialize (Hk a s1). destruct (k a s1) as [[r s2] t2].
  apply Forall_app. split; assumption.
Qed.

Lemma emits_forEach {A} P (f : A -> M unit) l :
  (forall x, In x l -> emits P (f x)) -> emits P (forEach f l).
Proof.
  induction l as [|x xs IH]; intros H; simpl.
  - apply emits_ret.
  - apply emits_bind; [apply H; left; reflexivity|].
    intros _. apply IH. intros y Hy. apply H. right. exact Hy.
Qed.

Lemma emits_weaken {A} (P Q : Event -> Prop) (m : M A) :
  (forall e, P e -> Q e) -> emits P m -> emits Q m.
Proof. intros H Hm s. eapply Forall_impl; [exact H|apply Hm]. Qed.

#[local] Hint Resolve emits_ret emits_lift emits_get emits_modify emits_call : emits.

Lemma run_plugins_emits req h ps :
  emits (fun e => exists p, In p ps /\ e = PluginCall h (title p)) (run_plugins req h ps).
Proof.
  unfold run_plugins. apply emits_forEach. intros p Hp.
  apply emits_bind; [|auto with emits].
  apply emits_emit. exists p. auto.
Qed.

Lemma run_hooks_emits req h ops : forall i,
  emits (fun e => exists j c d, e = HookCall h j c d) (run_hooks req h i ops).
Proof.
  induction ops as [|op rest IH]; intros i; simpl; [auto with emits|].
  apply emits_bind; [auto with emits|]. intros s.
  apply emits_bind; [apply emits_emit; eauto|]. intros _.
  apply emits_bind; [auto with emits|]. intros _. apply IH.
Qed.

(** A phase emits calls of that phase only, and only of active plugins. *)
Lemma phase_emits env req h ops :
  emits (fun e => hook_of e = Some h /\
                  (forall p, plugin_of e = Some p -> In p (map title (activePlugins env))))
        (phase env req h ops).
Proof.
  unfold phase.
  apply emits_bind; [unfold set_currentHook; auto with emits|]. intros _.
  apply emits_bind.
  - eapply emits_weaken; [|apply run_plugins_emits].
    intros e (p & Hp & ->). split; [reflexivity|].
    intros q Hq. injection Hq as <-. apply in_map. exact Hp.
  - intros _. eapply emits_weaken; [|apply run_hooks_emits].
    intros e (j & c & d & ->). split; [reflexivity|]. intros p Hp. discriminate.
Qed.

Lemma prisma_emits env m args :
  emits (fun e => e = PrismaCall m args) (prisma env m args).
Proof.
  unfold prisma. apply emits_bind; [apply emits_emit; reflexivity|auto with emits].
Qed.

Lemma res_json_emits body :
  emits (fun e => is_response e = true) (res_json body).
Proof.
  intros s. unfold res_json. destruct (headersSent s); repeat constructor.
Qed.

Lemma fan_out_emits env req payload :
  emits (fun e => exists w, In w (mergedWebhooks env) /\
                   includes_operation (onOperation w) (flippedCrudMapping (method req)) = true /\
                   e = WebhookTrigger w payload)
        (fan_out env req payload).
Proof.
  unfold fan_out. apply emits_forEach. intros w Hw.
  destruct (includes_operation _ _) eqn:E; [|auto with emits].
  apply emits_emit. eauto.
Qed.

Lemma errHandler_emits err :
  emits (fun e => match e with
                  | ResJson _ _ | LoggerCall _ | ConsoleLog _ => True
                  | _ => False
                  end) (errHandler err).
Proof.
  unfold errHandler.
  apply emits_bind; [auto with emits|]. intros b.
  apply emits_bind; [auto with emits|]. intros s.
  apply emits_bind.
  - destruct (negb (headersSent s)); [|auto with emits].
    apply emits_bind; [unfold res_status; auto with emits|]. intros _.
    apply emits_bind; [auto with emits|]. intros msg.
    eapply emits_weaken; [|apply res_json_emits].
    intros [] H; simpl in H; try discriminate; exact I.
  - intros _. apply emits_bind; [apply emits_emit; exact I|].
    intros _. apply emits_emit. exact I.
Qed.

Lemma finalhandler_emits err :
  emits (fun e => exists st, e = ErrorPage st err) (finalhandler err).
Proof.
  intros s. unfold finalhandler.
  destruct (final_status err s) as [st|e]; [|constructor].
  destruct (headersSent s); repeat constructor. eauto.
Qed.

Lemma next_err_emits err :
  emits (fun e => exists st, e = ErrorPage st err) (next_err err).
Proof.
  unfold next_err. destruct err as [l m st|m|m|n m|v|w];
    try apply finalhandler_emits; try solve [auto with emits].
  destruct (negb (truthy v)); [auto with emits|].
  destruct v; try apply finalhandler_emits.
  destruct (_ || _); [auto with emits|apply finalhandler_emits].
Qed.

Lemma next_err_passed_on err : passed_on err = true -> next_err err = finalhandler err.
Proof.
  unfold next_err, passed_on. destruct err as [l m st|m|m|n m|v|w]; try reflexivity;
    try discriminate.
  destruct (truthy v); [|discriminate]. simpl.
  destruct v; try reflexivity. destruct (_ || _); [discriminate|reflexivity].
Qed.

(** ** The catch of the handler *)

Lemma serve_ok env req s s1 t1 :
  handler env req s = (Ok tt, s1, t1) -> serve env req s = (Ok tt, s1, t1).
Proof. intros H. unfold serve. rewrite H. reflexivity. Qed.

Lemma serve_throw env req s e s1 t1 :
  handler env req s = (Throw e, s1, t1) ->
  serve env req s =
  (result_of (next_err e s1), store_of (next_err e s1),
   t1 ++ trace_of (next_err e s1)).
Proof.
  intros H. unfold serve. rewrite H.
  destruct (next_err e s1) as [[r s2] t2]. reflexivity.
Qed.

(** ** [mapQuery] and a [where] entry that is not JSON *)

Lemma rmap_app_throw {A B} (f : A -> Res B) pre x post es e :
  rmap f pre = Ok es -> f x = Throw e -> rmap f (pre ++ x :: post) = Throw e.
Proof.
  revert es. induction pre as [|y ys IH]; intros es Hpre Hx; simpl.
  - rewrite Hx. reflexivity.
  - simpl in Hpre. destruct (f y) as [b|e']; [|discriminate].
    destruct (rmap f ys) as [bs|e'] eqn:E; [|discriminate].
    rewrite (IH bs eq_refl Hx). reflexivity.
Qed.

Lemma JSON_parse_throws_SyntaxError text e :
  JSON_parse text = Throw e -> exists m, e = SyntaxError m.
Proof.
  unfold JSON_parse. destruct (parse_value _ _) as [[v r]|].
  - destruct (skip_ws r); intros H; [discriminate|]. injection H as <-. eauto.
  - intros H. injection H as <-. eauto.
Qed.

Lemma map_entry_where_malformed w e :
  JSON_parse w = Throw e -> map_entry ("where", JStr w) = Throw malformed_where.
Proof.
  intros H. destruct (JSON_parse_throws_SyntaxError _ _ H) as [m ->].
  unfold map_entry, structure, parse_where. simpl. rewrite H. reflexivity.
Qed.

Lemma mapQuery_where_malformed pre w post es e :
  rmap map_entry pre = Ok es ->
  JSON_parse w = Throw e ->
  mapQuery (pre ++ ("where", JStr w) :: post) = Throw malformed_where.
Proof.
  intros Hpre Hw. unfold mapQuery.
  rewrite (rmap_app_throw _ _ _ _ _ _ Hpre (map_entry_where_malformed _ _ Hw)).
  reflexivity.
Qed.

(** ** C1: the return value of a [beforeOperation] hook *)

(** C1 (the code at the failing input).  A collection whose only
    [beforeOperation] hook returns [false] receives a POST: the hook is
    called, and the request goes on to the persistence call, the
    [afterOperation] hook, the response and the webhook; nothing is
    denied. *)
Theorem C1_veto_is_ignored :
  fst (deny (sample_req POST) (init_store post_body [])) = Ok (JBool false) /\
  serve (sample_env [deny] [] [] sample_db) (sample_req POST) (init_store post_body []) =
  (Ok tt,
   set_sent (Some (200%nat, JObj [("title", JStr "x"); ("body", JUndefined)]))
            (set_ctx (with_currentHook afterOperation ctx0) (init_store post_body [])),
   [ HookCall beforeOperation 0 ctx0 post_body;
     PrismaCall Prisma.create
       (JObj [("data", JObj [("title", JStr "x"); ("body", JUndefined)]);
              ("select", JUndefined)]);
     HookCall afterOperation 0 (with_currentHook afterOperation ctx0) post_body;
     ResJson 200 (JObj [("title", JStr "x"); ("body", JUndefined)]);
     WebhookTrigger on_writes
       {| event := Some create; collection := "posts"; data := JNull;
          timestamp := "2024-01-01T00:00:00.000Z" |} ]).
Proof. split; reflexivity. Qed.

(** ** C2: a [where] entry that is not JSON *)

(** C2 (as stated, refuted).  With one [beforeOperation] hook and the query
    [where={bad], the hook has been called before the request fails; the
    error then reaches the final handler, which answers with status 400. *)
Lemma C2_hook_runs_before_where_is_parsed :
  JSON_parse "{bad" = Throw (SyntaxError "Unexpected token in JSON") /\
  trace_of (serve (sample_env [deny] [] [] sample_db) (sample_req GET)
                  (init_store (JObj []) [("where", JStr "{bad")])) =
  [ HookCall beforeOperation 0 ctx0 (JObj []);
    ErrorPage 400 malformed_where ].
Proof. split; reflexivity. Qed.

(** C2 (amended).  A GET whose query, when the handler comes to normalize
    it, has a [where] entry that is not JSON (the entries enumerated before
    it being normalized without error) fails with the project's error
    carrying status 400, once the [beforeOperation] phase has run: the
    events of the handler are exactly those of that phase; the error goes
    to the final handler, which answers with status 400 unless a response
    has been sent; and the whole request makes no persistence call, runs no
    plugin or hook of a later phase and triggers no webhook. *)
Theorem C2_malformed_where env req s s1 t1 pre w post es e :
  method req = GET ->
  phase env req beforeOperation (CRUDHooks.beforeOperation (hooks_of env)) s = (Ok tt, s1, t1) ->
  reqQuery s1 = pre ++ ("where", JStr w) :: post ->
  rmap map_entry pre = Ok es ->
  JSON_parse w = Throw e ->
  handler env req s = (Throw malformed_where, s1, t1)
  /\ Forall (fun ev => hook_of ev = Some beforeOperation) t1
  /\ trace_of (serve env req s)
     = t1 ++ (if headersSent s1 then [] else [ErrorPage 400 malformed_where])
  /\ Forall (fun ev => is_prisma ev = false /\ is_webhook ev = false /\
                       (hook_of ev = None \/ hook_of ev = Some beforeOperation))
            (trace_of (serve env req s)).
Proof.
  intros Hm Hph Hq Hpre Hw.
  assert (Hh : handler env req s = (Throw malformed_where, s1, t1)).
  { unfold handler. rewrite (bind_ok _ _ _ _ _ _ Hph). rewrite Hm.
    assert (Hl : bind get (fun s0 =>
                 bind (lift (mapQuery (reqQuery s0))) (fun mappedQuery =>
                 prisma env Prisma.findMany (JObj mappedQuery))) s1
                 = (Throw malformed_where, s1, [])).
    { unfold bind, get, lift.
      rewrite Hq, (mapQuery_where_malformed _ _ _ _ _ Hpre Hw). reflexivity. }
    rewrite (bind_throw _ _ _ _ _ _ Hl).
    simpl. rewrite app_nil_r. reflexivity. }
  assert (Ht1 : Forall (fun ev => hook_of ev = Some beforeOperation) t1).
  { pose proof (phase_emits env req beforeOperation
                  (CRUDHooks.beforeOperation (hooks_of env)) s) as H.
    rewrite Hph in H. simpl in H.
    eapply Forall_impl; [|exact H]. intros ev [Hev _]. exact Hev. }
  assert (Hs : trace_of (serve env req s)
               = t1 ++ (if headersSent s1 then [] else [ErrorPage 400 malformed_where])).
  { rewrite (serve_throw _ _ _ _ _ _ Hh). unfold next_err, finalhandler. simpl.
    destruct (headersSent s1); reflexivity. }
  repeat split; try assumption.
  rewrite Hs. apply Forall_app. split.
  - eapply Forall_impl; [|exact Ht1]. intros ev Hev.
    destruct ev; simpl in *; try discriminate; auto.
  - destruct (headersSent s1); repeat constructor; auto.
Qed.

Lemma C2_malformed_where_witness :
  handler (sample_env [deny] [] [flag_plugin] sample_db) (sample_req GET)
          (init_store (JObj []) [("take", JStr "5"); ("where", JStr "{bad")])
  = (Throw malformed_where,
     init_store (JObj []) [("take", JStr "5"); ("where", JStr "{bad")],
     [PluginCall beforeOperation "flag"; HookCall beforeOperation 0 ctx0 (JObj [])])
  /\ trace_of (serve (sample_env [deny] [] [flag_plugin] sample_db) (sample_req GET)
                     (init_store (JObj []) [("take", JStr "5"); ("where", JStr "{bad")]))
     = [PluginCall beforeOperation "flag"; HookCall beforeOperation 0 ctx0 (JObj [])]
       ++ [ErrorPage 400 malformed_where].
Proof.
  destruct (C2_malformed_where
              (sample_env [deny] [] [flag_plugin] sample_db) (sample_req GET)
              (init_store (JObj []) [("take", JStr "5"); ("where", JStr "{bad")])
              (init_store (JObj []) [("take", JStr "5"); ("where", JStr "{bad")])
              [PluginCall beforeOperation "flag"; HookCall beforeOperation 0 ctx0 (JObj [])]
              [("take", JStr "5")] "{bad" [] [("take", JNum 5)]
              (SyntaxError "Unexpected token in JSON")
              eq_refl eq_refl eq_refl eq_refl eq_refl) as (H1 & _ & H3 & _).
  split; [exact H1|exact H3].
Defined.

(** ** Methods outside the table *)

Lemma emits_ext {A} P (m m' : M A) :
  (forall s, m s = m' s) -> emits P m -> emits P m'.
Proof. intros H Hm s. rewrite <- H. apply Hm. Qed.

Lemma serve_emits env req (P : Event -> Prop) :
  emits P (handler env req) ->
  (forall st e, P (ErrorPage st e)) ->
  emits P (serve env req).
Proof.
  intros Hh He s. specialize (Hh s). unfold serve.
  destruct (handler env req s) as [[[[]|e] s1] t1]; [exact Hh|].
  pose proof (next_err_emits e s1) as Hn.
  destruct (next_err e s1) as [[r s2] t2]. simpl in *.
  apply Forall_app. split; [exact Hh|].
  eapply Forall_impl; [|exact Hn]. intros ev [st ->]. apply He.
Qed.

Lemma fan_out_no_operation env req payload s :
  flippedCrudMapping (method req) = None ->
  fan_out env req payload s = (Ok tt, s, []).
Proof.
  intros H. unfold fan_out. rewrite H. simpl.
  induction (mergedWebhooks env) as [|w ws IH]; simpl; [reflexivity|].
  unfold bind at 1. unfold ret at 1. rewrite IH. reflexivity.
Qed.

(** After the response [[]] nothing else happens when the method has no
    operation: the envelope is built ([[].length > 0] is false) and no
    webhook matches. *)
Lemma respond_empty_unmapped env req s :
  flippedCrudMapping (method req) = None ->
  bind (res_json (JArr [])) (fun _ =>
  bind (lift (webhookTriggerPayload env req (JArr []))) (fun payload =>
  fan_out env req payload)) s = res_json (JArr []) s.
Proof.
  intros H. unfold bind, res_json, lift. destruct (headersSent s); [reflexivity|].
  simpl. rewrite fan_out_no_operation by exact H. reflexivity.
Qed.

Lemma handler_unmapped env req s :
  flippedCrudMapping (method req) = None ->
  handler env req s = unmapped_method env req s.
Proof.
  intros H. unfold handler, unmapped_method.
  apply bind_ext. intros _ s1.
  assert (Hp : forall s', persist env (method req) s' =
                 bind get (fun s0 =>
                 bind (lift (get_prop (inputData s0) "data")) (fun d =>
                 bind (lift (mergeData (models env) d)) (fun _ => ret (JArr [])))) s').
  { intros s'. unfold persist. destruct (method req); try discriminate; reflexivity. }
  assert (Hb : forall (k : JS -> M unit) s',
             bind (bind (phase env req validateInput (CRUDHooks.validateInput (hooks_of env))) (fun _ =>
                   bind (phase env req modifyInput (CRUDHooks.modifyInput (hooks_of env))) (fun _ =>
                   persist env (method req)))) k s' =
             bind (phase env req validateInput (CRUDHooks.validateInput (hooks_of env))) (fun _ =>
             bind (phase env req modifyInput (CRUDHooks.modifyInput (hooks_of env))) (fun _ =>
             bind get (fun s0 =>
             bind (lift (get_prop (inputData s0) "data")) (fun d =>
             bind (lift (mergeData (models env) d)) (fun _ => k (JArr [])))))) s').
  { intros k s'. rewrite bind_assoc. apply bind_ext. intros _ s2.
    rewrite bind_assoc. apply bind_ext. intros _ s3.
    unfold bind at 1. rewrite Hp.
    unfold bind, get, lift, ret.
    destruct (get_prop (inputData s3) "data") as [d|e]; [|reflexivity].
    destruct (mergeData (models env) d) as [md|e]; [|reflexivity].
    simpl. destruct (k (JArr []) s3) as [[r s4] t4]. reflexivity. }
  destruct (method req) eqn:Em; try discriminate;
    rewrite Hb; do 6 (apply bind_ext; intros ? ?);
      apply respond_empty_unmapped; rewrite Em; reflexivity.
Qed.

Lemma unmapped_method_emits env req :
  emits (fun ev => is_prisma ev = false /\ is_webhook ev = false) (unmapped_method env req).
Proof.
  assert (Hph : forall h ops,
             emits (fun ev => is_prisma ev = false /\ is_webhook ev = false) (phase env req h ops)).
  { intros h ops. eapply emits_weaken; [|apply phase_emits].
    intros [] [H _]; simpl in *; try discriminate; auto. }
  unfold unmapped_method.
  repeat (apply emits_bind; [solve [apply Hph | auto with emits]|intros ?]).
  eapply emits_weaken; [|apply res_json_emits].
  intros [] H; simpl in *; try discriminate; auto.
Qed.


(** ** The stages of the handler *)

Lemma handler_stages env req s :
  handler env req s = bind (obtain_result env req) (after_result env req) s.
Proof.
  unfold handler, obtain_result, after_result.
  rewrite bind_assoc. reflexivity.
Qed.

Lemma obtain_result_write env req s :
  method req <> GET ->
  obtain_result env req s =
  bind (before_persist env req) (fun _ => persist env (method req)) s.
Proof.
  intros H. unfold obtain_result, before_persist.
  rewrite bind_assoc. apply bind_ext. intros _ s1.
  rewrite bind_assoc.
  destruct (method req); try reflexivity. contradiction.
Qed.

Lemma bind_ok_trace {A B} (m : M A) (k : A -> M B) s a s1 t1 :
  m s = (Ok a, s1, t1) -> trace_of (bind m k s) = t1 ++ trace_of (k a s1).
Proof. intros H. rewrite (bind_ok _ _ _ _ _ _ H). reflexivity. Qed.

(** ** Own properties after [set_prop] and [Object.assign] *)

Lemma lookup_app k ps qs :
  lookup k (ps ++ qs) = match lookup k ps with Some v => Some v | None => lookup k qs end.
Proof.
  induction ps as [|[k' v'] ps IH]; simpl; [reflexivity|].
  destruct (String.eqb k' k); [reflexivity|exact IH].
Qed.

Lemma lookup_replace_prop k k' v ps :
  lookup k' (replace_prop k v ps) =
  if String.eqb k k' then match lookup k ps with Some _ => Some v | None => None end
  else lookup k' ps.
Proof.
  induction ps as [|[k1 v1] ps IH]; simpl.
  - destruct (String.eqb k k'); reflexivity.
  - destruct (String.eqb k1 k) eqn:E1; simpl.
    + apply String.eqb_eq in E1. subst k1.
      destruct (String.eqb k k'); reflexivity.
    + destruct (String.eqb k1 k') eqn:E2.
      * destruct (String.eqb k k') eqn:E3; [|reflexivity].
        apply String.eqb_eq in E2, E3. subst.
        rewrite String.eqb_refl in E1. discriminate.
      * exact IH.
Qed.

Lemma lookup_insert_index i k k' v ps :
  lookup k ps = None ->
  lookup k' (insert_index i k v ps) = if String.eqb k k' then Some v else lookup k' ps.
Proof.
  induction ps as [|[k1 v1] ps IH]; simpl; intros Hk.
  - destruct (String.eqb k k'); reflexivity.
  - destruct (String.eqb k1 k) eqn:E1; [discriminate|].
    assert (Hhead : lookup k' ((k, v) :: (k1, v1) :: ps) =
                    if String.eqb k k' then Some v else lookup k' ((k1, v1) :: ps))
      by reflexivity.
    destruct (array_index k1) as [j|]; [|exact Hhead].
    destruct (j <? i); [|exact Hhead].
    simpl. destruct (String.eqb k1 k') eqn:E2.
    + destruct (String.eqb k k') eqn:E3; [|reflexivity].
      apply String.eqb_eq in E2, E3. subst.
      rewrite String.eqb_refl in E1. discriminate.
    + apply IH. exact Hk.
Qed.

Lemma lookup_set_prop k k' v ps :
  lookup k' (set_prop k v ps) = if String.eqb k k' then Some v else lookup k' ps.
Proof.
  unfold set_prop, has_own. destruct (lookup k ps) as [x|] eqn:E.
  - rewrite lookup_replace_prop, E. reflexivity.
  - destruct (array_index k) as [i|].
    + apply lookup_insert_index. exact E.
    + rewrite lookup_app. simpl.
      destruct (String.eqb k k') eqn:E1.
      * apply String.eqb_eq in E1. subst. rewrite E. reflexivity.
      * destruct (lookup k' ps); reflexivity.
Qed.

Lemma lookup_assign_props_absent k ps : forall t,
  ~ In k (map fst ps) -> lookup k (assign_props t ps) = lookup k t.
Proof.
  unfold assign_props.
  induction ps as [|[k1 v1] ps IH]; intros t Hk; simpl; [reflexivity|].
  simpl in Hk. rewrite IH by tauto.
  destruct (String.eqb k1 "__proto__"); [reflexivity|].
  rewrite lookup_set_prop.
  destruct (String.eqb k1 k) eqn:E; [|reflexivity].
  apply String.eqb_eq in E. tauto.
Qed.

Lemma lookup_not_in_keys k ps : lookup k ps = None -> ~ In k (map fst ps).
Proof.
  induction ps as [|[k1 v1] ps IH]; simpl; [tauto|].
  destruct (String.eqb k1 k) eqn:E; [discriminate|].
  apply String.eqb_neq in E. intros H [H1|H1]; [contradiction|]. exact (IH H H1).
Qed.

Lemma lookup_assign_props_present k v ps : forall t,
  NoDup (map fst ps) -> lookup k ps = Some v -> k <> "__proto__" ->
  lookup k (assign_props t ps) = Some v.
Proof.
  induction ps as [|[k1 v1] ps IH]; intros t Hnd Hk Hp; simpl in *; [discriminate|].
  inversion Hnd as [|? ? Hnotin Hnd']; subst.
  destruct (String.eqb k1 k) eqn:E.
  - apply String.eqb_eq in E. subst k1. injection Hk as ->.
    change (lookup k (assign_props
                        (if String.eqb k "__proto__" then t else set_prop k v t) ps) = Some v).
    rewrite lookup_assign_props_absent by exact Hnotin.
    destruct (String.eqb k "__proto__") eqn:E2.
    + apply String.eqb_eq in E2. contradiction.
    + rewrite lookup_set_prop, String.eqb_refl. reflexivity.
  - apply (IH _ Hnd' Hk Hp).
Qed.

(** The merge of the template with an object: the caller's fields win,
    the template's fields are kept where the caller gives none. *)
Lemma merge_defaults_object model defaults x :
  own_enumerable model = Ok defaults ->
  merge_defaults model (JObj x) = Ok (JObj (assign_props (assign_props [] defaults) x)).
Proof. intros H. unfold merge_defaults, assign. rewrite H. reflexivity. Qed.

Lemma merge_caller_wins defaults x k v :
  NoDup (map fst x) -> lookup k x = Some v -> k <> "__proto__" ->
  lookup k (assign_props (assign_props [] defaults) x) = Some v.
Proof. intros. apply lookup_assign_props_present; assumption. Qed.

Lemma merge_default_kept defaults x k v :
  NoDup (map fst defaults) -> lookup k defaults = Some v -> k <> "__proto__" ->
  lookup k x = None ->
  lookup k (assign_props (assign_props [] defaults) x) = Some v.
Proof.
  intros Hnd Hd Hp Hx.
  rewrite lookup_assign_props_absent by (apply lookup_not_in_keys; exact Hx).
  apply lookup_assign_props_present; assumption.
Qed.

(** ** C4: the data handed to the persistence primitive *)

Lemma get_prop_body_total body d k :
  get_prop body "data" = Ok d ->
  String.eqb k "length" = false ->
  exists v, get_prop body k = Ok v.
Proof.
  intros H Hk. destruct body; simpl in *; try discriminate; eauto.
  - rewrite Hk. eauto.
  - rewrite Hk. eauto.
Qed.

Lemma persist_write env reqMethod s d md m :
  get_prop (inputData s) "data" = Ok d ->
  mergeData (models env) d = Ok md ->
  write_method reqMethod (isArray d) = Some m ->
  exists args,
    persist env reqMethod s = (query env m args, s, [PrismaCall m args]) /\
    (reqMethod <> DELETE -> exists other, args = JObj (("data", md) :: other)) /\
    (reqMethod = DELETE ->
       exists w, get_prop (inputData s) "where" = Ok w /\ args = JObj [("where", w)]).
Proof.
  intros Hd Hmd Hm.
  destruct (get_prop_body_total _ _ "skipDuplicates" Hd eq_refl) as [sk Hsk].
  destruct (get_prop_body_total _ _ "select" Hd eq_refl) as [sel Hsel].
  destruct (get_prop_body_total _ _ "where" Hd eq_refl) as [w Hw].
  unfold persist, bind, get, lift, prisma, emit. rewrite Hd, Hmd.
  destruct reqMethod; simpl in Hm; try discriminate; injection Hm as <-.
  - destruct (isArray d); [rewrite Hsk|rewrite Hsel]; simpl;
      (eexists; split; [reflexivity|]; split; [intros _; eauto|intros H; discriminate]).
  - rewrite Hw. simpl.
    eexists; split; [reflexivity|]; split; [intros _; eauto|intros H; discriminate].
  - rewrite Hw. simpl.
    eexists; split; [reflexivity|]; split; [intros H; contradiction|intros _; eauto].
Qed.

Lemma handler_write_trace env req s s3 t3 d md m :
  method req <> GET ->
  before_persist env req s = (Ok tt, s3, t3) ->
  get_prop (inputData s3) "data" = Ok d ->
  mergeData (models env) d = Ok md ->
  write_method (method req) (isArray d) = Some m ->
  exists args rest,
    trace_of (handler env req s) = t3 ++ PrismaCall m args :: rest /\
    (method req <> DELETE -> exists other, args = JObj (("data", md) :: other)) /\
    (method req = DELETE ->
       exists w, get_prop (inputData s3) "where" = Ok w /\ args = JObj [("where", w)]).
Proof.
  intros Hg Hb Hd Hmd Hm.
  destruct (persist_write env _ s3 _ _ _ Hd Hmd Hm) as (args & Hp & Hdata & Hdel).
  exists args.
  assert (Ho : obtain_result env req s = (query env m args, s3, t3 ++ [PrismaCall m args])).
  { rewrite (obtain_result_write _ _ _ Hg), (bind_ok _ _ _ _ _ _ Hb), Hp. reflexivity. }
  rewrite handler_stages.
  destruct (query env m args) as [r|e].
  - exists (trace_of (after_result env req r s3)).
    rewrite (bind_ok_trace _ _ _ _ _ _ Ho), <- app_assoc. auto.
  - exists []. rewrite (bind_throw _ _ _ _ _ _ Ho). auto.
Qed.

(** C4 (the code at the failing input).  The first [modifyInput] hook
    returns a replacement for [inputData] whose title is ["changed"]; the
    second hook is still given the original body and the persistence call
    receives the original title. *)
Lemma C4_returned_replacement_is_not_persisted :
  fst (return_replacement (sample_req POST) (init_store post_body [])) = Ok retitled /\
  trace_of (serve (sample_env [] [return_replacement; noop] [] sample_db)
                  (sample_req POST) (init_store post_body [])) =
  [ HookCall modifyInput 0 (with_currentHook modifyInput ctx0) post_body;
    HookCall modifyInput 1 (with_currentHook modifyInput ctx0) post_body;
    PrismaCall Prisma.create
      (JObj [("data", JObj [("title", JStr "x"); ("body", JUndefined)]);
             ("select", JUndefined)]);
    HookCall afterOperation 0 (with_currentHook afterOperation ctx0) post_body;
    ResJson 200 (JObj [("title", JStr "x"); ("body", JUndefined)]);
    WebhookTrigger on_writes
      {| event := Some create; collection := "posts"; data := JNull;
         timestamp := "2024-01-01T00:00:00.000Z" |} ].
Proof. split; reflexivity. Qed.

(** For a create or an update whose three hook phases have run to their
    end, the persistence primitive ([create] or [update], [createMany] or
    [updateMany] when [inputData.data] is a list) is called next, and the
    [data] it is handed is the merge of the template [models[cKey]] with
    the property [data] of the object [req.body] as it stands after the
    three phases: for an object, [Object.assign({}, template, data)], in
    which a field given by the caller overrides the template and the other
    fields of the template are kept; for a list, that merge element by
    element. *)
Theorem data_handed_to_persistence env req s s3 t3 d md :
  method req = POST \/ method req = PUT ->
  before_persist env req s = (Ok tt, s3, t3) ->
  get_prop (inputData s3) "data" = Ok d ->
  mergeData (models env) d = Ok md ->
  (exists m other rest,
      write_method (method req) (isArray d) = Some m /\
      trace_of (handler env req s) =
      t3 ++ PrismaCall m (JObj (("data", md) :: other)) :: rest)
  /\ (forall defaults x,
        own_enumerable (models env) = Ok defaults -> d = JObj x ->
        md = JObj (assign_props (assign_props [] defaults) x)
        /\ (forall k v, NoDup (map fst x) -> lookup k x = Some v -> k <> "__proto__" ->
                        get_prop md k = Ok v)
        /\ (forall k v, NoDup (map fst defaults) -> lookup k defaults = Some v ->
                        k <> "__proto__" -> lookup k x = None ->
                        get_prop md k = Ok v))
  /\ (forall items,
        d = JArr items ->
        exists mds, md = JArr mds /\ rmap (merge_defaults (models env)) items = Ok mds).
Proof.
  intros Hm Hb Hd Hmd. split; [|split].
  - assert (Hw : exists m, write_method (method req) (isArray d) = Some m)
      by (destruct Hm as [-> | ->]; simpl; eauto).
    destruct Hw as [m Hw]. 
    assert (Hg : method req <> GET) by (destruct Hm as [-> | ->]; discriminate).
    assert (Hnd : method req <> DELETE) by (destruct Hm as [-> | ->]; discriminate).
    destruct (handler_write_trace _ _ _ _ _ _ _ _ Hg Hb Hd Hmd Hw)
      as (args & rest & Ht & Hdata & _).
    destruct (Hdata Hnd) as [other ->]. eauto.
  - intros defaults x Hdef ->. simpl in Hmd.
    rewrite (merge_defaults_object _ _ _ Hdef) in Hmd. injection Hmd as <-.
    split; [reflexivity|]. split.
    + intros k v Hnd Hk Hp. simpl.
      rewrite (merge_caller_wins defaults x k v Hnd Hk Hp). reflexivity.
    + intros k v Hnd Hk Hp Hx. simpl.
      rewrite (merge_default_kept defaults x k v Hnd Hk Hp Hx). reflexivity.
  - intros items ->. simpl in Hmd.
    destruct (rmap (merge_defaults (models env)) items) as [mds|e]; [|discriminate].
    injection Hmd as <-. eauto.
Qed.

Lemma data_handed_to_persistence_witness :
  exists m other rest,
    write_method POST false = Some m /\
    trace_of (handler (sample_env [] [retitle_in_place] [] sample_db)
                      (sample_req POST) (init_store post_body [])) =
    [HookCall modifyInput 0 (with_currentHook modifyInput ctx0) post_body]
    ++ PrismaCall m (JObj (("data", JObj [("title", JStr "changed"); ("body", JUndefined)])
                            :: other)) :: rest.
Proof.
  apply (proj1 (data_handed_to_persistence
                  (sample_env [] [retitle_in_place] [] sample_db)
                  (sample_req POST) (init_store post_body [])
                  (set_ctx (with_currentHook modifyInput ctx0)
                     (init_store (JObj [("data", JObj [("title", JStr "changed")])]) []))
                  [HookCall modifyInput 0 (with_currentHook modifyInput ctx0) post_body]
                  (JObj [("title", JStr "changed")])
                  (JObj [("title", JStr "changed"); ("body", JUndefined)])
                  (or_introl eq_refl) eq_refl eq_refl eq_refl)).
Defined.

(** A delete hands over no data: its only argument is [where]. *)
Lemma delete_hands_over_where_only env req s s3 t3 d md :
  method req = DELETE ->
  before_persist env req s = (Ok tt, s3, t3) ->
  get_prop (inputData s3) "data" = Ok d ->
  mergeData (models env) d = Ok md ->
  exists w rest,
    get_prop (inputData s3) "where" = Ok w /\
    trace_of (handler env req s) =
    t3 ++ PrismaCall (if isArray d then Prisma.deleteMany else Prisma.delete)
                     (JObj [("where", w)]) :: rest.
Proof.
  intros Hm Hb Hd Hmd.
  assert (Hg : method req <> GET) by (rewrite Hm; discriminate).
  assert (Hw : write_method (method req) (isArray d) =
               Some (if isArray d then Prisma.deleteMany else Prisma.delete))
    by (rewrite Hm; reflexivity).
  destruct (handler_write_trace _ _ _ _ _ _ _ _ Hg Hb Hd Hmd Hw)
    as (args & rest & Ht & _ & Hdel).
  destruct (Hdel Hm) as (w & Hw' & ->). eauto.
Qed.

Lemma delete_hands_over_where_only_witness :
  exists w rest,
    get_prop (JObj [("where", JObj [("id", JNum 1)])]) "where" = Ok w /\
    trace_of (handler (sample_env [] [] [] sample_db) (sample_req DELETE)
                      (init_store (JObj [("where", JObj [("id", JNum 1)])]) [])) =
    [] ++ PrismaCall Prisma.delete (JObj [("where", w)]) :: rest.
Proof.
  apply (delete_hands_over_where_only
           (sample_env [] [] [] sample_db) (sample_req DELETE)
           (init_store (JObj [("where", JObj [("id", JNum 1)])]) [])
           (set_ctx (with_currentHook modifyInput ctx0)
              (init_store (JObj [("where", JObj [("id", JNum 1)])]) []))
           [] JUndefined (JObj [("title", JUndefined); ("body", JUndefined)])
           eq_refl eq_refl eq_refl eq_refl).
Defined.

(** ** C5: the webhook fan-out *)

Lemma persist_emits env m :
  emits (fun ev => is_prisma ev = true) (persist env m).
Proof.
  assert (Hp : forall pm args, emits (fun ev => is_prisma ev = true) (prisma env pm args)).
  { intros pm args. eapply emits_weaken; [|apply prisma_emits]. intros ev ->. reflexivity. }
  unfold persist.
  apply emits_bind; [auto with emits|]. intros s.
  apply emits_bind; [auto with emits|]. intros d.
  apply emits_bind; [auto with emits|]. intros md.
  destruct m; auto with emits;
    try destruct (isArray d); (apply emits_bind; [auto with emits|]; intros ?; apply Hp).
Qed.

(** Before [resultData] is assigned there is neither a response of the
    handler nor a webhook. *)
Lemma obtain_result_emits env req :
  emits (fun ev => is_webhook ev = false /\ is_response ev = false)
        (obtain_result env req).
Proof.
  assert (Hph : forall h ops,
             emits (fun ev => is_webhook ev = false /\ is_response ev = false)
                   (phase env req h ops)).
  { intros h ops. eapply emits_weaken; [|apply phase_emits].
    intros [] [H _]; simpl in *; try discriminate; auto. }
  assert (Hpr : forall pm args,
             emits (fun ev => is_webhook ev = false /\ is_response ev = false)
                   (prisma env pm args)).
  { intros pm args. eapply emits_weaken; [|apply prisma_emits]. intros ev ->. auto. }
  assert (Hpe : forall m,
             emits (fun ev => is_webhook ev = false /\ is_response ev = false)
                   (persist env m)).
  { intros m. eapply emits_weaken; [|apply persist_emits].
    intros [] H; simpl in *; try discriminate; auto. }
  unfold obtain_result.
  apply emits_bind; [apply Hph|]. intros _.
  destruct (method req);
    try (apply emits_bind; [apply Hph|]; intros _;
         apply emits_bind; [apply Hph|]; intros _; apply Hpe).
  apply emits_bind; [auto with emits|]. intros s0.
  apply emits_bind; [auto with emits|]. intros q. apply Hpr.
Qed.

Lemma forEach_fan_out req payload ws s :
  forEach (fun obj =>
             if includes_operation (onOperation obj) (flippedCrudMapping (method req))
             then emit (WebhookTrigger obj payload) else ret tt) ws s =
  (Ok tt, s,
   map (fun w => WebhookTrigger w payload)
       (filter (fun w => includes_operation (onOperation w) (flippedCrudMapping (method req)))
               ws)).
Proof.
  revert s. induction ws as [|w ws IH]; intros s; [reflexivity|].
  cbn [forEach filter].
  destruct (includes_operation _ _).
  - erewrite bind_ok by reflexivity. rewrite IH. reflexivity.
  - erewrite bind_ok by reflexivity. rewrite IH. reflexivity.
Qed.

(** The fan-out cannot fail and triggers exactly the listeners, in the
    order of the merged list. *)
Lemma fan_out_run env req payload s :
  fan_out env req payload s =
  (Ok tt, s, map (fun w => WebhookTrigger w payload) (listeners env req)).
Proof. apply forEach_fan_out. Qed.

(** The two ways the part after [resultData] ends. *)
Lemma after_result_shape env req resultData s1 :
  (exists e s' t,
      after_result env req resultData s1 = (Throw e, s', t)
      /\ Forall (fun ev => is_webhook ev = false) t)
  \/ (exists s' pre st payload,
         after_result env req resultData s1 =
         (Ok tt, s',
          pre ++ ResJson st resultData
              :: map (fun w => WebhookTrigger w payload) (listeners env req))
         /\ Forall (fun ev => is_webhook ev = false) pre
         /\ webhookTriggerPayload env req resultData = Ok payload).
Proof.
  pose proof (phase_emits env req afterOperation
                (CRUDHooks.afterOperation (hooks_of env)) s1) as Ha.
  destruct (phase env req afterOperation (CRUDHooks.afterOperation (hooks_of env)) s1)
    as [[[[]|e] s2] t2] eqn:Ea; simpl in Ha.
  2:{ left. exists e, s2, t2. split.
      - unfold after_result. rewrite (bind_throw _ _ _ _ _ _ Ea). reflexivity.
      - eapply Forall_impl; [|exact Ha].
        intros [] [H _]; simpl in *; try discriminate; auto. }
  assert (H2 : Forall (fun ev => is_webhook ev = false) t2).
  { eapply Forall_impl; [|exact Ha]. intros [] [H _]; simpl in *; try discriminate; auto. }
  destruct (headersSent s2) eqn:Hs.
  { assert (Hr : res_json resultData s2 = (Throw headers_sent, s2, []))
      by (unfold res_json; rewrite Hs; reflexivity).
    left. exists headers_sent, s2, t2. split; [|exact H2].
    unfold after_result. rewrite (bind_ok _ _ _ _ _ _ Ea). cbv beta.
    rewrite (bind_throw _ _ _ _ _ _ Hr). simpl. rewrite app_nil_r. reflexivity. }
  pose (s3 := set_sent (Some (statusCode s2, resultData)) s2).
  assert (Hr : res_json resultData s2 =
               (Ok tt, s3, [ResJson (statusCode s2) resultData]))
    by (unfold res_json; rewrite Hs; reflexivity).
  destruct (webhookTriggerPayload env req resultData) as [payload|e] eqn:Ep.
  - right. exists s3, t2, (statusCode s2), payload. split; [|split; [exact H2|reflexivity]].
    unfold after_result. rewrite (bind_ok _ _ _ _ _ _ Ea). cbv beta.
    rewrite (bind_ok _ _ _ _ _ _ Hr). cbv beta. rewrite Ep.
    assert (Hl : lift (Ok payload) s3 = (Ok payload, s3, [])) by reflexivity.
    rewrite (bind_ok _ _ _ _ _ _ Hl). cbv beta. rewrite fan_out_run. reflexivity.
  - left. exists e, s3, (t2 ++ [ResJson (statusCode s2) resultData]). split.
    + unfold after_result. rewrite (bind_ok _ _ _ _ _ _ Ea). cbv beta.
      rewrite (bind_ok _ _ _ _ _ _ Hr). cbv beta. rewrite Ep.
      assert (Hl : lift (@Throw EventTriggerPayload e) s3 = (Throw e, s3, [])) by reflexivity.
      rewrite (bind_throw _ _ _ _ _ _ Hl). reflexivity.
    + apply Forall_app. split; [exact H2|]. repeat constructor.
Qed.


Lemma next_err_no_webhook e s :
  Forall (fun ev => is_webhook ev = false) (trace_of (next_err e s)).
Proof.
  eapply Forall_impl; [|apply next_err_emits].
  intros ev [st ->]. reflexivity.
Qed.







(** ** The function [errHandler] *)

(** What [errHandler] does with an instance of [Error]: status 500 and the
    JSON body when nothing has been sent, nothing otherwise; the log and
    the console in both cases. *)
Lemma errHandler_on_Error err msg s :
  err_message err = Ok (JStr msg) ->
  (forall v, err <> Thrown v) ->
  trace_of (errHandler err s) =
  (if headersSent s then []
   else [ResJson 500 (JObj [("success", JBool false); ("message", JStr msg)])])
  ++ [LoggerCall err; ConsoleLog err].
Proof.
  intros Hm Hnt.
  destruct s as [c i a q sc [snt|]];
    destruct err as [l m st|m|m|n m|v|w]; simpl in Hm; try discriminate;
    try (exfalso; exact (Hnt v eq_refl));
    injection Hm as ->;
    unfold errHandler, bind, lift, get, isPrismaErr, constructor_name; simpl;
    try match goal with
        | |- context [if ?b then Ok (JStr msg) else _] => destruct b
        end; reflexivity.
Qed.

Lemma errHandler_on_Error_witness :
  trace_of (errHandler (TypeError "x is not a function")
                       (set_sent (Some (200%nat, JArr [])) (init_store (JObj []) [])))
  = [LoggerCall (TypeError "x is not a function");
     ConsoleLog (TypeError "x is not a function")].
Proof.
  rewrite (errHandler_on_Error _ "x is not a function") by (reflexivity || discriminate).
  reflexivity.
Defined.

(** ** C7: plugins and hooks, phase by phase *)

Lemma calls_app t1 t2 : calls (t1 ++ t2) = calls t1 ++ calls t2.
Proof.
  induction t1 as [|e t1 IH]; simpl; [reflexivity|].
  destruct (call_of e); simpl; rewrite IH; reflexivity.
Qed.

Lemma calls_none t : Forall (fun e => call_of e = None) t -> calls t = [].
Proof.
  induction 1 as [|e t He _ IH]; simpl; [reflexivity|]. rewrite He. exact IH.
Qed.

Lemma follows_silent {A} (m : M A) :
  emits (fun e => call_of e = None) m -> follows m [].
Proof.
  intros H s. rewrite (calls_none _ (H s)). split; [exists []; reflexivity|auto].
Qed.

Lemma follows_bind {A B} (m : M A) (k : A -> M B) l1 l2 :
  follows m l1 -> (forall a, follows (k a) l2) -> follows (bind m k) (l1 ++ l2).
Proof.
  intros Hm Hk s. destruct (Hm s) as [[rest Hpre] Hall].
  destruct (m s) as [[[a|e] s1] t1] eqn:Em.
  - rewrite (bind_ok _ _ _ _ _ _ Em). simpl.
    specialize (Hall a eq_refl). simpl in Hall.
    destruct (Hk a s1) as [[rest2 Hpre2] Hall2].
    rewrite calls_app, Hall. split.
    + exists rest2. rewrite <- app_assoc, <- Hpre2. reflexivity.
    + intros b Hb. rewrite (Hall2 b Hb). reflexivity.
  - rewrite (bind_throw _ _ _ _ _ _ Em). simpl. simpl in Hpre. split.
    + exists (rest ++ l2). rewrite app_assoc, <- Hpre. reflexivity.
    + intros b Hb. discriminate.
Qed.

Lemma follows_eq {A} (m : M A) l l' : follows m l -> l = l' -> follows m l'.
Proof. intros H <-. exact H. Qed.

Lemma follows_emit e c : call_of e = Some c -> follows (emit e) [c].
Proof.
  intros H s. simpl. rewrite H. split; [exists []; reflexivity|auto].
Qed.

Lemma follows_run_plugins req h ps :
  follows (run_plugins req h ps) (map (fun p => PluginCalled h (title p)) ps).
Proof.
  unfold run_plugins. induction ps as [|p ps IH]; simpl.
  - apply follows_silent. auto with emits.
  - change (PluginCalled h (title p) :: map (fun p0 => PluginCalled h (title p0)) ps)
      with (([PluginCalled h (title p)] ++ [])
              ++ map (fun p0 => PluginCalled h (title p0)) ps).
    apply follows_bind; [|intros _; exact IH].
    apply follows_bind; [apply follows_emit; reflexivity|].
    intros _. apply follows_silent. auto with emits.
Qed.

Lemma follows_run_hooks req h ops : forall i,
  follows (run_hooks req h i ops) (map (HookCalled h) (seq i (List.length ops))).
Proof.
  induction ops as [|op rest IH]; intros i; simpl.
  - apply follows_silent. auto with emits.
  - change (HookCalled h i :: map (HookCalled h) (seq (S i) (List.length rest)))
      with ([] ++ [HookCalled h i] ++ [] ++ map (HookCalled h) (seq (S i) (List.length rest))).
    apply follows_bind; [apply follows_silent; auto with emits|]. intros s.
    apply follows_bind; [apply follows_emit; reflexivity|]. intros _.
    apply follows_bind; [apply follows_silent; auto with emits|]. intros _.
    apply IH.
Qed.

Lemma follows_phase env req h ops : follows (phase env req h ops) (phase_calls env h ops).
Proof.
  unfold phase, phase_calls.
  change (map (fun p => PluginCalled h (title p)) (activePlugins env)
          ++ map (HookCalled h) (seq 0 (List.length (or_empty ops))))
    with ([] ++ map (fun p => PluginCalled h (title p)) (activePlugins env)
          ++ map (HookCalled h) (seq 0 (List.length (or_empty ops)))).
  apply follows_bind; [apply follows_silent; unfold set_currentHook; auto with emits|].
  intros _. apply follows_bind; [apply follows_run_plugins|].
  intros _. apply follows_run_hooks.
Qed.

Lemma silent_prisma env m args : emits (fun e => call_of e = None) (prisma env m args).
Proof. eapply emits_weaken; [|apply prisma_emits]. intros e ->. reflexivity. Qed.

Lemma silent_persist env m : emits (fun e => call_of e = None) (persist env m).
Proof.
  eapply emits_weaken; [|apply persist_emits].
  intros [] H; simpl in *; try discriminate; reflexivity.
Qed.

Lemma silent_res_json body : emits (fun e => call_of e = None) (res_json body).
Proof.
  eapply emits_weaken; [|apply res_json_emits].
  intros [] H; simpl in *; try discriminate; reflexivity.
Qed.

Lemma silent_fan_out env req payload :
  emits (fun e => call_of e = None) (fan_out env req payload).
Proof.
  eapply emits_weaken; [|apply fan_out_emits]. intros e (w & _ & _ & ->). reflexivity.
Qed.

Lemma silent_next_err err : emits (fun e => call_of e = None) (next_err err).
Proof.
  eapply emits_weaken; [|apply next_err_emits].
  intros ev [st ->]. reflexivity.
Qed.

Lemma follows_handler env req : follows (handler env req) (expected_calls env req).
Proof.
  unfold handler, expected_calls. cbv zeta.
  apply follows_bind; [apply follows_phase|]. intros _.
  apply follows_bind.
  - destruct (method req);
      try (apply follows_bind; [apply follows_phase|]; intros _;
           eapply follows_eq;
           [apply follows_bind;
            [apply follows_phase|intros _; apply follows_silent; apply silent_persist]
           |apply app_nil_r]).
    eapply follows_eq;
      [apply follows_bind;
       [apply follows_silent; auto with emits
       |intros s0; apply follows_bind;
        [apply follows_silent; auto with emits
        |intros q; apply follows_silent; apply silent_prisma]]
      |reflexivity].
  - intros r. eapply follows_eq.
    + apply follows_bind; [apply follows_phase|]. intros _.
      apply follows_bind; [apply follows_silent; apply silent_res_json|]. intros _.
      apply follows_bind; [apply follows_silent; auto with emits|]. intros p.
      apply follows_silent. apply silent_fan_out.
    + simpl. apply app_nil_r.
Qed.

Lemma calls_serve env req s :
  calls (trace_of (serve env req s)) = calls (trace_of (handler env req s)).
Proof.
  unfold serve. destruct (handler env req s) as [[[[]|e] s1] t1]; [reflexivity|].
  pose proof (silent_next_err e s1) as H.
  destruct (next_err e s1) as [[r s2] t2]. simpl in H. simpl.
  rewrite calls_app, (calls_none _ H), app_nil_r. reflexivity.
Qed.

(** Every event of the handler is an event of a phase, a call of the
    delegate, the response or a webhook delivery. *)
Lemma handler_emits env req (P : Event -> Prop) :
  (forall h ops, emits P (phase env req h ops)) ->
  (forall m args, P (PrismaCall m args)) ->
  (forall st body, P (ResJson st body)) ->
  (forall w payload, P (WebhookTrigger w payload)) ->
  emits P (handler env req).
Proof.
  intros Hph Hpr Hre Hwh.
  assert (Hprisma : forall m args, emits P (prisma env m args)).
  { intros m args. eapply emits_weaken; [|apply prisma_emits]. intros e ->. apply Hpr. }
  unfold handler.
  apply emits_bind; [apply Hph|]. intros _.
  apply emits_bind.
  - destruct (method req);
      try (apply emits_bind; [apply Hph|]; intros _;
           apply emits_bind; [apply Hph|]; intros _;
           eapply emits_weaken; [|apply persist_emits];
           intros [] H; simpl in *; try discriminate; apply Hpr).
    apply emits_bind; [auto with emits|]. intros s0.
    apply emits_bind; [auto with emits|]. intros q. apply Hprisma.
  - intros r. apply emits_bind; [apply Hph|]. intros _.
    apply emits_bind.
    + eapply emits_weaken; [|apply res_json_emits].
      intros [] H; simpl in *; try discriminate; apply Hre.
    + intros _. apply emits_bind; [auto with emits|]. intros p.
      eapply emits_weaken; [|apply fan_out_emits]. intros e (w & _ & _ & ->). apply Hwh.
Qed.

Lemma only_active_plugins env req s e p :
  In e (trace_of (serve env req s)) -> plugin_of e = Some p ->
  In p (map title (activePlugins env)).
Proof.
  intros Hin Hp.
  assert (H : emits (fun e => forall p, plugin_of e = Some p ->
                                 In p (map title (activePlugins env)))
                    (serve env req)).
  { apply serve_emits.
    - apply handler_emits; try (intros; discriminate).
      intros h ops. eapply emits_weaken; [|apply phase_emits]. intros ev [_ H]. exact H.
    - intros st err q Hq. discriminate. }
  specialize (H s). rewrite Forall_forall in H. exact (H e Hin p Hp).
Qed.

Lemma first_hook_sees_shared_ctx env req h ops s0 s1 t1 op rest :
  bind (set_currentHook h) (fun _ => run_plugins req h (activePlugins env)) s0 = (Ok tt, s1, t1) ->
  or_empty ops = op :: rest ->
  exists t', trace_of (phase env req h ops s0)
             = t1 ++ HookCall h 0 (ctx s1) (seen_inputData s1) :: t'.
Proof.
  intros Hp Hops. unfold phase. rewrite <- bind_assoc, Hops.
  rewrite (bind_ok_trace _ _ _ _ _ _ Hp).
  cbn [run_hooks]. unfold bind at 1. unfold get at 1. cbv beta iota.
  unfold bind at 1. unfold emit at 1. cbv beta iota.
  destruct (bind (call (op req)) (fun _ => run_hooks req h 1 rest) s1) as [[r s2] t2].
  simpl. eauto.
Qed.

(** C7 (the code at the failing input).  The active plugin returns a
    modified [Context] (one more custom variable); the [beforeOperation]
    hook that follows it in the same phase is given the context without
    that variable. *)
Lemma C7_returned_context_is_not_observed :
  fst (fn flag_plugin (sample_req GET) (init_store (JObj []) [])) = Ok (flagged ctx0) /\
  customVars (flagged ctx0) = [("flag", JBool true)] /\
  trace_of (serve (sample_env [deny] [] [flag_plugin] sample_db) (sample_req GET)
                  (init_store (JObj []) [])) =
  [ PluginCall beforeOperation "flag";
    HookCall beforeOperation 0 ctx0 (JObj []);
    PrismaCall Prisma.findMany (JObj []);
    PluginCall afterOperation "flag";
    HookCall afterOperation 0 (with_currentHook afterOperation ctx0) (JObj []);
    ResJson 200 (JArr [JObj [("id", JNum 1)]]);
    WebhookTrigger on_reads
      {| event := Some read; collection := "posts";
         data := JArr [JObj [("id", JNum 1)]];
         timestamp := "2024-01-01T00:00:00.000Z" |} ].
Proof. repeat split. Qed.

(** The plugin and hook calls of a request are, in order,
    those of its phases (two for a GET, four otherwise), each phase being
    every active plugin once, in the order of the list, followed by the
    hooks of the phase in the order of their declaration: all of them when
    the handler runs to its end, a prefix of them when something throws.
    Only active plugins are ever called.  The first hook of a phase is
    given the one shared context as the plugins of the phase have left
    it. *)
Theorem plugins_before_hooks env req s :
  (exists rest, expected_calls env req = calls (trace_of (serve env req s)) ++ rest)
  /\ (result_of (handler env req s) = Ok tt ->
      calls (trace_of (serve env req s)) = expected_calls env req)
  /\ (forall e p, In e (trace_of (serve env req s)) -> plugin_of e = Some p ->
                  In p (map title (activePlugins env)))
  /\ (forall h ops s0 s1 t1 op rest,
        bind (set_currentHook h) (fun _ => run_plugins req h (activePlugins env)) s0
        = (Ok tt, s1, t1) ->
        or_empty ops = op :: rest ->
        exists t', trace_of (phase env req h ops s0)
                   = t1 ++ HookCall h 0 (ctx s1) (seen_inputData s1) :: t').
Proof.
  destruct (follows_handler env req s) as [Hpre Hall].
  rewrite calls_serve. split; [exact Hpre|]. split; [apply Hall|].
  split; [apply only_active_plugins|].
  intros h ops s0 s1 t1 op rest. apply first_hook_sees_shared_ctx.
Qed.

Lemma plugins_before_hooks_witness :
  calls (trace_of (serve (sample_env [deny] [noop] [flag_plugin] sample_db)
                         (sample_req POST) (init_store post_body [])))
  = [ PluginCalled beforeOperation "flag"; HookCalled beforeOperation 0;
      PluginCalled validateInput "flag";
      PluginCalled modifyInput "flag"; HookCalled modifyInput 0;
      PluginCalled afterOperation "flag"; HookCalled afterOperation 0 ].
Proof.
  apply (proj1 (proj2 (plugins_before_hooks
                         (sample_env [deny] [noop] [flag_plugin] sample_db)
                         (sample_req POST) (init_store post_body [])))).
  reflexivity.
Defined.

(** ** Values returned by hooks and plugins are discarded *)

Lemma call_returning {A B} (b : B) (f : Store -> Res A * Store) s :
  call (returning b f) s = call f s.
Proof. unfold call, returning. destruct (f s) as [[a|e] s']; reflexivity. Qed.

Lemma bind_cong {A B} (m m' : M A) (k k' : A -> M B) s :
  m s = m' s -> (forall a s', k a s' = k' a s') -> bind m k s = bind m' k' s.
Proof.
  intros Hm Hk. unfold bind. rewrite Hm.
  destruct (m' s) as [[[a|e] s1] t1]; [rewrite Hk|]; reflexivity.
Qed.

Lemma run_hooks_returning v req h ops : forall i s,
  run_hooks req h i (map (fun (op : Hook) r => returning v (op r)) ops) s
  = run_hooks req h i ops s.
Proof.
  induction ops as [|op rest IH]; intros i s; [reflexivity|].
  cbn [run_hooks map]. apply bind_ext. intros s0 s1.
  apply bind_ext. intros _ s2.
  apply bind_cong; [apply call_returning|]. intros _ s3. apply IH.
Qed.

Lemma run_plugins_returning c req h ps : forall s,
  run_plugins req h (map (plugin_returning c) ps) s = run_plugins req h ps s.
Proof.
  unfold run_plugins. induction ps as [|p ps IH]; intros s; [reflexivity|].
  cbn [forEach map]. apply bind_cong; [|intros _ s1; apply IH].
  apply bind_ext. intros _ s1. apply call_returning.
Qed.

Lemma phase_returning v c env req h ops s :
  phase (env_returning v c env) req h (hooks_returning v ops) s = phase env req h ops s.
Proof.
  unfold phase. apply bind_ext. intros _ s1.
  apply bind_cong; [apply run_plugins_returning|]. intros _ s2.
  destruct ops as [ops|]; simpl; [apply run_hooks_returning|reflexivity].
Qed.

(** Whatever the hooks and the plugin functions return, the request runs
    the same: same events, same final store, same outcome. *)
Theorem returned_values_are_discarded v c env req s :
  serve (env_returning v c env) req s = serve env req s.
Proof.
  assert (Hh : forall s0, handler (env_returning v c env) req s0 = handler env req s0).
  { intros s0. unfold handler.
    change (hooks_of (env_returning v c env)) with
      {| CRUDHooks.beforeOperation :=
           hooks_returning v (CRUDHooks.beforeOperation (hooks_of env));
         CRUDHooks.validateInput :=
           hooks_returning v (CRUDHooks.validateInput (hooks_of env));
         CRUDHooks.modifyInput :=
           hooks_returning v (CRUDHooks.modifyInput (hooks_of env));
         CRUDHooks.afterOperation :=
           hooks_returning v (CRUDHooks.afterOperation (hooks_of env)) |}.
    cbn [CRUDHooks.beforeOperation CRUDHooks.validateInput CRUDHooks.modifyInput
         CRUDHooks.afterOperation].
    apply bind_cong; [apply phase_returning|]. intros _ s1.
    apply bind_cong.
    - destruct (method req);
        try (apply bind_cong; [apply phase_returning|]; intros _ s2;
             apply bind_cong; [apply phase_returning|]; intros _ s3; reflexivity).
      reflexivity.
    - intros r s2. apply bind_cong; [apply phase_returning|]. intros _ s3. reflexivity. }
  unfold serve. rewrite Hh. reflexivity.
Qed.

(** ** C8: the shapes produced by [mapQuery] *)

(** The three examples of the specification. *)
Lemma mapQuery_examples :
  mapQuery [("orderBy", JStr "x-asc,y-desc")]
  = Ok [("orderBy", JObj [("x", JStr "asc"); ("y", JStr "desc")])]
  /\ mapQuery [("distinct", JStr "a,b,c")]
     = Ok [("distinct", JArr [JStr "a"; JStr "b"; JStr "c"])]
  /\ mapQuery [("take", JStr "5")] = Ok [("take", JNum 5)].
Proof. repeat split. Qed.

Lemma coerce_number_object ps :
  coerce_number (JObj ps) =
  if has_own "toString" ps then Throw no_primitive else Ok (JObj ps).
Proof.
  unfold coerce_number, to_number, to_string.
  destruct (has_own "toString" ps); reflexivity.
Qed.

(** A value without comma and with a hyphen: the one-entry mapping of the
    first two pieces, unless the key of that entry is [toString]. *)
Lemma map_entry_hyphen key v :
  String.eqb key "where" = false ->
  includes comma v = false -> includes hyphen v = true ->
  map_entry (key, JStr v) =
  let (subKey, subValue) := entry_of_pieces (split hyphen v) in
  if String.eqb subKey "toString" then Throw no_primitive
  else Ok (key, JObj [(subKey, subValue)]).
Proof.
  intros Hk Hc Hh. unfold map_entry, structure. rewrite Hk. simpl.
  rewrite Hc, Hh. destruct (entry_of_pieces (split hyphen v)) as [subKey subValue].
  rewrite coerce_number_object.
  unfold set_prop, has_own. simpl.
  destruct (array_index subKey); simpl;
    rewrite (String.eqb_sym subKey "toString");
    destruct (String.eqb "toString" subKey); reflexivity.
Qed.

(** A value without comma and without hyphen stays a scalar; it becomes a
    number when it reads as one. *)
Lemma map_entry_scalar key v :
  String.eqb key "where" = false ->
  includes comma v = false -> includes hyphen v = false ->
  map_entry (key, JStr v) =
  Ok (key, match string_to_number v with
           | NaN => JStr v
           | Int z => JNum z
           | Flt lit => JFloat lit
           end).
Proof.
  intros Hk Hc Hh. unfold map_entry, structure. rewrite Hk. simpl.
  rewrite Hc, Hh. unfold coerce_number. simpl.
  destruct (string_to_number v); reflexivity.
Qed.

(** ** A text with a comma is not a number *)

Lemma includes_codes v : includes comma v = has_comma (codes v).
Proof.
  induction v as [|a v IH]; [reflexivity|].
  cbn [includes]. rewrite IH. unfold has_comma, codes. cbn [list_ascii_of_string map existsb].
  f_equal. destruct (Ascii.eqb_spec a comma) as [->|Hne]; [reflexivity|].
  symmetry. apply N.eqb_neq. intros H. apply Hne.
  rewrite <- (ascii_N_embedding a), <- H. reflexivity.
Qed.

Lemma ws1_not_comma a : ws1 a = true -> (44 =? a)%N = false.
Proof.
  unfold ws1. rewrite orb_true_iff, andb_true_iff, !N.leb_le, N.eqb_eq.
  intros H. apply N.eqb_neq. lia.
Qed.

Lemma ws2_not_comma a b :
  ws2 a b = true -> (44 =? a)%N = false /\ (44 =? b)%N = false.
Proof.
  unfold ws2. rewrite andb_true_iff, !N.eqb_eq.
  intros H. split; apply N.eqb_neq; lia.
Qed.

Lemma ws3_not_comma a b c :
  ws3 a b c = true ->
  (44 =? a)%N = false /\ (44 =? b)%N = false /\ (44 =? c)%N = false.
Proof.
  unfold ws3.
  rewrite !orb_true_iff, !andb_true_iff, !orb_true_iff, !andb_true_iff,
    !N.eqb_eq, !N.leb_le.
  intros H. repeat split; apply N.eqb_neq; lia.
Qed.

Lemma strip_ws_comma : forall n l,
  (List.length l <= n)%nat -> has_comma (strip_ws l) = has_comma l.
Proof.
  induction n as [|n IH]; intros l Hl.
  - destruct l; [reflexivity|simpl in Hl; lia].
  - destruct l as [|a l1]; [reflexivity|]. cbn [strip_ws].
    destruct (ws1 a) eqn:E1.
    { rewrite IH by (simpl in Hl; lia).
      unfold has_comma. cbn [existsb]. rewrite (ws1_not_comma _ E1). reflexivity. }
    destruct l1 as [|b l2]; [reflexivity|].
    destruct (ws2 a b) eqn:E2.
    { rewrite IH by (simpl in Hl; lia).
      destruct (ws2_not_comma _ _ E2) as [Ha Hb].
      unfold has_comma. cbn [existsb]. rewrite Ha, Hb. reflexivity. }
    destruct l2 as [|c l3]; [reflexivity|].
    destruct (ws3 a b c) eqn:E3; [|reflexivity].
    rewrite IH by (simpl in Hl; lia).
    destruct (ws3_not_comma _ _ _ E3) as (Ha & Hb & Hc).
    unfold has_comma. cbn [existsb]. rewrite Ha, Hb, Hc. reflexivity.
Qed.

Lemma take_while_comma p l :
  (forall c, p c = true -> (44 =? c)%N = false) ->
  has_comma (snd (take_while p l)) = has_comma l.
Proof.
  intros Hp. induction l as [|c l IH]; [reflexivity|].
  cbn [take_while]. destruct (p c) eqn:E; [|reflexivity].
  destruct (take_while p l) as [ds r]. simpl in *.
  unfold has_comma in *. cbn [existsb]. rewrite (Hp _ E), IH. reflexivity.
Qed.

Lemma is_digit_not_comma c : is_digit c = true -> (44 =? c)%N = false.
Proof.
  unfold is_digit. rewrite andb_true_iff, !N.leb_le. intros H.
  apply N.eqb_neq. lia.
Qed.

Lemma is_hex_not_comma c : is_hex c = true -> (44 =? c)%N = false.
Proof.
  unfold is_hex, is_digit.
  rewrite !orb_true_iff, !andb_true_iff, !N.leb_le. intros H.
  apply N.eqb_neq. lia.
Qed.

Lemma is_octal_not_comma c : is_octal c = true -> (44 =? c)%N = false.
Proof.
  unfold is_octal. rewrite andb_true_iff, !N.leb_le. intros H.
  apply N.eqb_neq. lia.
Qed.

Lemma is_binary_not_comma c : is_binary c = true -> (44 =? c)%N = false.
Proof.
  unfold is_binary. rewrite andb_true_iff, !N.leb_le. intros H.
  apply N.eqb_neq. lia.
Qed.

Lemma take_sign_comma l : has_comma (snd (take_sign l)) = has_comma l.
Proof.
  destruct l as [|c l]; [reflexivity|]. unfold take_sign.
  destruct (c =? 45)%N eqn:E1.
  { apply N.eqb_eq in E1. subst. reflexivity. }
  destruct (c =? 43)%N eqn:E2; [|reflexivity].
  apply N.eqb_eq in E2. subst. reflexivity.
Qed.

Lemma strip_prefix_comma p : forall l r,
  strip_prefix p l = Some r -> has_comma l = has_comma p || has_comma r.
Proof.
  induction p as [|a p IH]; intros l r H; simpl in H.
  - injection H as ->. reflexivity.
  - destruct l as [|b l]; [discriminate|].
    destruct (a =? b)%N eqn:E; [|discriminate].
    apply N.eqb_eq in E. subst b.
    unfold has_comma in *. cbn [existsb]. rewrite (IH _ _ H), orb_assoc. reflexivity.
Qed.

Lemma take_exponent_comma l : has_comma (snd (take_exponent l)) = has_comma l.
Proof.
  destruct l as [|c l]; [reflexivity|]. unfold take_exponent.
  destruct ((c =? 101) || (c =? 69))%N eqn:E; [|reflexivity].
  pose proof (take_sign_comma l) as Hs.
  destruct (take_sign l) as [neg l2]. simpl in Hs.
  pose proof (take_while_comma is_digit l2 is_digit_not_comma) as Hd.
  destruct (take_while is_digit l2) as [ds r]. simpl in Hd.
  destruct ds; [reflexivity|]. cbn [snd].
  rewrite Hd, Hs.
  apply orb_true_iff in E. rewrite !N.eqb_eq in E.
  destruct E as [-> | ->]; reflexivity.
Qed.

Lemma parse_decimal_comma lit l n r :
  parse_decimal lit l = Some (n, r) -> has_comma l = has_comma r.
Proof.
  unfold parse_decimal. pose proof (take_sign_comma l) as Hs.
  destruct (take_sign l) as [neg l1]. simpl in Hs. rewrite <- Hs.
  destruct (strip_prefix (codes "Infinity") l1) as [r'|] eqn:Ei.
  { intros H. injection H as _ <-. rewrite (strip_prefix_comma _ _ _ Ei). reflexivity. }
  pose proof (take_while_comma is_digit l1 is_digit_not_comma) as H1.
  destruct (take_while is_digit l1) as [d1 l2]. simpl in H1. rewrite <- H1.
  assert (H2 : forall d2 l3,
             match l2 with
             | c :: l2' => if (c =? 46)%N then take_while is_digit l2' else ([], l2)
             | [] => ([], l2)
             end = (d2, l3) -> has_comma l3 = has_comma l2).
  { intros d2 l3 H. destruct l2 as [|c l2']; [injection H as _ <-; reflexivity|].
    destruct (c =? 46)%N eqn:E; [|injection H as _ <-; reflexivity].
    pose proof (take_while_comma is_digit l2' is_digit_not_comma) as Hd.
    rewrite H in Hd. simpl in Hd. rewrite Hd.
    apply N.eqb_eq in E. subst. reflexivity. }
  destruct (match l2 with
            | c :: l2' => if (c =? 46)%N then take_while is_digit l2' else ([], l2)
            | [] => ([], l2)
            end) as [d2 l3] eqn:E2.
  rewrite <- (H2 _ _ eq_refl).
  pose proof (take_exponent_comma l3) as He.
  destruct (take_exponent l3) as [ex r']. simpl in He.
  destruct d1, d2; intros H; try discriminate; injection H as _ <-; auto.
Qed.

Lemma parse_nondecimal_comma lit l n r :
  parse_nondecimal lit l = Some (n, r) -> has_comma l = has_comma r.
Proof.
  unfold parse_nondecimal. destruct l as [|z [|p l']]; try discriminate.
  destruct (z =? 48)%N eqn:Ez; [|discriminate]. simpl negb. cbv iota.
  apply N.eqb_eq in Ez. subst z.
  assert (Hgo : forall ok,
             (forall c, ok c = true -> (44 =? c)%N = false) ->
             forall b,
               (let (ds, r0) := take_while ok l' in
                match ds with
                | [] => None
                | _ => Some (if is_safe (radix_val b 0 ds) then Int (radix_val b 0 ds)
                             else Flt lit, r0)
                end) = Some (n, r) ->
               has_comma l' = has_comma r).
  { intros ok Hok b. pose proof (take_while_comma ok l' Hok) as Hd.
    destruct (take_while ok l') as [ds r0]. simpl in Hd.
    destruct ds; intros H; [discriminate|]. injection H as _ <-. auto. }
  assert (Hp : forall x, ((p =? x)%N = true) -> (44 =? p)%N = (44 =? x)%N).
  { intros x Hx. apply N.eqb_eq in Hx. subst. reflexivity. }
  unfold has_comma at 1. cbn [existsb]. fold (has_comma l').
  destruct ((p =? 120) || (p =? 88))%N eqn:E1.
  { intros H. rewrite (Hgo _ is_hex_not_comma _ H).
    apply orb_true_iff in E1. destruct E1 as [E|E]; rewrite (Hp _ E); reflexivity. }
  destruct ((p =? 111) || (p =? 79))%N eqn:E2.
  { intros H. rewrite (Hgo _ is_octal_not_comma _ H).
    apply orb_true_iff in E2. destruct E2 as [E|E]; rewrite (Hp _ E); reflexivity. }
  destruct ((p =? 98) || (p =? 66))%N eqn:E3; [|discriminate].
  intros H. rewrite (Hgo _ is_binary_not_comma _ H).
  apply orb_true_iff in E3. destruct E3 as [E|E]; rewrite (Hp _ E); reflexivity.
Qed.

Lemma string_to_number_comma s :
  includes comma s = true -> string_to_number s = NaN.
Proof.
  rewrite includes_codes. intros Hc. unfold string_to_number.
  pose proof (strip_ws_comma _ (codes s) (le_n _)) as Hs. rewrite Hc in Hs.
  destruct (strip_ws (codes s)) as [|c l] eqn:E; [discriminate|].
  assert (Hrest : forall rest, has_comma rest = true ->
                               forall n, match strip_ws rest with [] => n | _ => NaN end = NaN).
  { intros rest Hr n. pose proof (strip_ws_comma _ rest (le_n _)) as H.
    rewrite Hr in H. destruct (strip_ws rest); [discriminate|reflexivity]. }
  destruct (parse_nondecimal s (c :: l)) as [[n rest]|] eqn:En.
  - apply Hrest. rewrite <- (parse_nondecimal_comma _ _ _ _ En). exact Hs.
  - destruct (parse_decimal s (c :: l)) as [[n rest]|] eqn:Ed; [|reflexivity].
    apply Hrest. rewrite <- (parse_decimal_comma _ _ _ _ Ed). exact Hs.
Qed.

(** ** A value with a comma *)

Lemma split_nonempty sep s : split sep s <> [].
Proof.
  destruct s as [|c s]; simpl; [discriminate|].
  destruct (Ascii.eqb c sep); [discriminate|].
  destruct (split sep s); discriminate.
Qed.

(** Joining the pieces of a split gives the text back. *)
Lemma concat_split s : String.concat "," (split comma s) = s.
Proof.
  induction s as [|c s IH]; [reflexivity|]. cbn [split].
  destruct (Ascii.eqb_spec c comma) as [->|Hne].
  - pose proof (split_nonempty comma s) as Hn.
    destruct (split comma s) as [|w ws] eqn:E; [contradiction|].
    change (String.concat "," (EmptyString :: w :: ws))
      with ("" ++ "," ++ String.concat "," (w :: ws))%string.
    rewrite IH. reflexivity.
  - pose proof (split_nonempty comma s) as Hn.
    destruct (split comma s) as [|w ws] eqn:E; [contradiction|].
    destruct ws as [|w2 ws].
    + simpl in *. rewrite IH. reflexivity.
    + change (String.concat "," (String c w :: w2 :: ws))
        with (String c (w ++ "," ++ String.concat "," (w2 :: ws)))%string.
      change (String.concat "," (w :: w2 :: ws))
        with (w ++ "," ++ String.concat "," (w2 :: ws))%string in IH.
      rewrite IH. reflexivity.
Qed.

Lemma to_string_strings l :
  to_string (JArr (map JStr l)) = Ok (String.concat "," l).
Proof.
  induction l as [|x [|y l] IH]; try reflexivity.
  change (to_string (JArr (map JStr (x :: y :: l))))
    with (match to_string (JArr (map JStr (y :: l))) with
          | Ok b => Ok (x ++ "," ++ b)%string
          | Throw e => Throw e
          end).
  rewrite IH. reflexivity.
Qed.

(** A list of pieces obtained by splitting on a comma is never turned into
    a number. *)
Lemma coerce_number_split v :
  includes comma v = true ->
  coerce_number (JArr (map JStr (split comma v))) = Ok (JArr (map JStr (split comma v))).
Proof.
  intros H. unfold coerce_number, to_number.
  rewrite to_string_strings, concat_split, (string_to_number_comma _ H). reflexivity.
Qed.

Lemma map_entry_hyphen_witness :
  map_entry ("orderBy", JStr "name-asc") = Ok ("orderBy", JObj [("name", JStr "asc")]).
Proof. rewrite map_entry_hyphen by reflexivity. reflexivity. Defined.

Lemma map_entry_scalar_witness :
  map_entry ("take", JStr "5") = Ok ("take", JNum 5).
Proof. rewrite map_entry_scalar by reflexivity. reflexivity. Defined.

(** A value with a comma: under [distinct] the list of its pieces; under
    any other key the mapping built from its hyphen-separated pairs,
    unless one of the pairs has the key [toString]. *)
Lemma map_entry_comma key v :
  String.eqb key "where" = false ->
  includes comma v = true ->
  map_entry (key, JStr v) =
  if String.eqb key "distinct" then Ok (key, JArr (map JStr (split comma v)))
  else
    let o := fromEntries (map (fun subPair => entry_of_pieces (split hyphen subPair))
                              (split comma v)) in
    if has_own "toString" o then Throw no_primitive else Ok (key, JObj o).
Proof.
  intros Hk Hc. unfold map_entry, structure. rewrite Hk. simpl. rewrite Hc.
  destruct (String.eqb key "distinct").
  - rewrite (coerce_number_split _ Hc). reflexivity.
  - rewrite coerce_number_object.
    destruct (has_own "toString" _); reflexivity.
Qed.

Lemma map_entry_comma_witness :
  map_entry ("distinct", JStr "a,b,c") = Ok ("distinct", JArr [JStr "a"; JStr "b"; JStr "c"])
  /\ map_entry ("orderBy", JStr "x-asc,y-desc")
     = Ok ("orderBy", JObj [("x", JStr "asc"); ("y", JStr "desc")]).
Proof. split; rewrite map_entry_comma by reflexivity; reflexivity. Defined.

(** C8 (the code at the failing input).  A sort key named [toString]
    makes the numeric coercion throw a TypeError instead of yielding the
    one-entry mapping, also inside a comma-separated list; and a [where]
    value that parses to a one-element list is coerced to a number. *)
Theorem C8_coercion_of_non_scalars :
  mapQuery [("orderBy", JStr "toString-asc")] = Throw no_primitive
  /\ mapQuery [("orderBy", JStr "name-asc,toString-desc")] = Throw no_primitive
  /\ mapQuery [("where", JStr "[5]")] = Ok [("where", JNum 5)].
Proof. repeat split. Qed.

(** ** C9: normalizing what is already structured *)

Lemma parse_where_object ps : parse_where (JObj ps) = Throw malformed_where.
Proof.
  unfold parse_where, to_string. destruct (has_own "toString" ps); reflexivity.
Qed.

(** C9 (as stated, refuted).  Normalizing the already structured query
    [{where: {"a": 1}}] does not yield that object: it fails. *)
Lemma C9_structured_where_fails :
  mapQuery [("where", JObj [("a", JNum 1)])] = Throw malformed_where.
Proof. reflexivity. Qed.

(** C9 (amended).  [mapQuery] is not idempotent on structured input: a
    query whose [where] entry is already an object is rejected with the
    status-400 error; so a [where] text that parses to an object is
    normalized to that object once, and normalizing the result again
    fails. *)
Theorem C9_normalizing_twice_fails :
  (forall ps, mapQuery [("where", JObj ps)] = Throw malformed_where)
  /\ (forall text ps,
        JSON_parse text = Ok (JObj ps) -> has_own "toString" ps = false ->
        mapQuery [("where", JStr text)] = Ok [("where", JObj ps)]
        /\ rbind (mapQuery [("where", JStr text)]) mapQuery = Throw malformed_where).
Proof.
  assert (H1 : forall ps, mapQuery [("where", JObj ps)] = Throw malformed_where).
  { intros ps. unfold mapQuery, rmap, map_entry, structure. simpl.
    rewrite parse_where_object. reflexivity. }
  split; [exact H1|].
  intros text ps Hp Hts.
  assert (H2 : mapQuery [("where", JStr text)] = Ok [("where", JObj ps)]).
  { unfold mapQuery, rmap, map_entry, structure, parse_where. simpl.
    rewrite Hp, coerce_number_object, Hts. reflexivity. }
  split; [exact H2|]. rewrite H2. simpl. apply H1.
Qed.

Lemma C9_normalizing_twice_fails_witness :
  mapQuery [("where", JStr ("{" ++ dq ++ "a" ++ dq ++ ":1}"))]
  = Ok [("where", JObj [("a", JNum 1)])]
  /\ rbind (mapQuery [("where", JStr ("{" ++ dq ++ "a" ++ dq ++ ":1}"))]) mapQuery
     = Throw malformed_where.
Proof.
  apply (proj2 C9_normalizing_twice_fails); reflexivity.
Defined.

(** ** C10: the envelope of a single record *)

Lemma envelope_of_result env req s r s1 t1 w p :
  obtain_result env req s = (Ok r, s1, t1) ->
  In (WebhookTrigger w p) (trace_of (serve env req s)) ->
  webhookTriggerPayload env req r = Ok p.
Proof.
  intros Eo Hin.
  pose proof (obtain_result_emits env req s) as Ho. rewrite Eo in Ho. simpl in Ho.
  assert (H1 : ~ In (WebhookTrigger w p) t1).
  { intros H. rewrite Forall_forall in Ho. destruct (Ho _ H) as [Hw _]. discriminate. }
  assert (Hh : handler env req s =
               (result_of (after_result env req r s1), store_of (after_result env req r s1),
                t1 ++ trace_of (after_result env req r s1)))
    by (rewrite handler_stages; apply (bind_ok _ _ _ _ _ _ Eo)).
  assert (Hin' : In (WebhookTrigger w p) (trace_of (after_result env req r s1))).
  { unfold serve in Hin. rewrite Hh in Hin.
    destruct (result_of (after_result env req r s1)) as [[]|e].
    - simpl in Hin. apply in_app_or in Hin. tauto.
    - pose proof (next_err_no_webhook e (store_of (after_result env req r s1))) as He.
      destruct (next_err e _) as [[r2 s2] t2]. simpl in He.
      assert (Hin2 : In (WebhookTrigger w p)
                        ((t1 ++ trace_of (after_result env req r s1)) ++ t2))
        by exact Hin.
      apply in_app_or in Hin2. destruct Hin2 as [Hin2|Hin2].
      + apply in_app_or in Hin2. tauto.
      + rewrite Forall_forall in He. specialize (He _ Hin2). discriminate. }
  destruct (after_result_shape env req r s1)
    as [(e & s' & t & Ha & Ht) | (s' & pre & st & payload & Ha & Hpre & Hp)];
    rewrite Ha in Hin'; simpl in Hin'.
  - rewrite Forall_forall in Ht. specialize (Ht _ Hin'). discriminate.
  - apply in_app_or in Hin'. destruct Hin' as [Hin'|[Hin'|Hin']].
    + rewrite Forall_forall in Hpre. specialize (Hpre _ Hin'). discriminate.
    + discriminate.
    + apply in_map_iff in Hin'. destruct Hin' as (w' & Heq & _).
      injection Heq as _ <-. exact Hp.
Qed.

(** C10 (as stated, refuted).  A collection with a field named [length]:
    the created record, a single object, has a [length] greater than 0 and
    is delivered as the data of the envelope. *)
Lemma C10_record_with_length_field :
  trace_of (serve (sample_env [] [] [] film_db) (sample_req POST)
                  (init_store post_body [])) =
  [ PrismaCall Prisma.create
      (JObj [("data", JObj [("title", JStr "x"); ("body", JUndefined)]);
             ("select", JUndefined)]);
    HookCall afterOperation 0 (with_currentHook afterOperation ctx0) post_body;
    ResJson 200 (JObj [("id", JNum 1); ("length", JNum 5)]);
    WebhookTrigger on_writes
      {| event := Some create; collection := "posts";
         data := JObj [("id", JNum 1); ("length", JNum 5)];
         timestamp := "2024-01-01T00:00:00.000Z" |} ].
Proof. reflexivity. Qed.

(** C10 (amended).  When the result of the persistence step is a single
    record, every envelope delivered for the request has [data] null if
    the record has no property named [length]; if it has one, [data] is
    null or the record according to whether that property compares greater
    than 0. *)
Theorem C10_envelope_of_single_record env req s s1 t1 rec w p :
  obtain_result env req s = (Ok (JObj rec), s1, t1) ->
  In (WebhookTrigger w p) (trace_of (serve env req s)) ->
  (lookup "length" rec = None -> data p = JNull)
  /\ (forall v, lookup "length" rec = Some v ->
                (gt_zero v = Ok false -> data p = JNull)
                /\ (gt_zero v = Ok true -> data p = JObj rec)).
Proof.
  intros Eo Hin. pose proof (envelope_of_result _ _ _ _ _ _ _ _ Eo Hin) as Hp.
  unfold webhookTriggerPayload in Hp. simpl in Hp. split.
  - intros Hl. rewrite Hl in Hp. simpl in Hp. injection Hp as <-. reflexivity.
  - intros v Hl. rewrite Hl in Hp. split; intros Hg; rewrite Hg in Hp;
      injection Hp as <-; reflexivity.
Qed.

Lemma C10_envelope_of_single_record_witness :
  exists p,
    In (WebhookTrigger on_writes p)
       (trace_of (serve (sample_env [] [] [] sample_db) (sample_req POST)
                        (init_store post_body [])))
    /\ data p = JNull.
Proof.
  exists {| event := Some create; collection := "posts"; data := JNull;
            timestamp := "2024-01-01T00:00:00.000Z" |}.
  assert (Hin : In (WebhookTrigger on_writes
                      {| event := Some create; collection := "posts"; data := JNull;
                         timestamp := "2024-01-01T00:00:00.000Z" |})
                   (trace_of (serve (sample_env [] [] [] sample_db) (sample_req POST)
                                    (init_store post_body []))))
    by (vm_compute; auto).
  split; [exact Hin|].
  apply (proj1 (C10_envelope_of_single_record
                  (sample_env [] [] [] sample_db) (sample_req POST)
                  (init_store post_body [])
                  (set_ctx (with_currentHook modifyInput ctx0) (init_store post_body []))
                  [PrismaCall Prisma.create
                     (JObj [("data", JObj [("title", JStr "x"); ("body", JUndefined)]);
                            ("select", JUndefined)])]
                  [("title", JStr "x"); ("body", JUndefined)]
                  on_writes _ eq_refl Hin)).
  reflexivity.
Defined.

(** ** At most one persistence call *)

Lemma prisma_calls_app t1 t2 : prisma_calls (t1 ++ t2) = (prisma_calls t1 + prisma_calls t2)%nat.
Proof. unfold prisma_calls. rewrite filter_app, length_app. reflexivity. Qed.

Lemma prisma_calls_none t :
  Forall (fun ev => is_prisma ev = false) t -> prisma_calls t = 0%nat.
Proof.
  unfold prisma_calls. induction 1 as [|e t He _ IH]; simpl; [reflexivity|].
  rewrite He. exact IH.
Qed.

Lemma phase_no_prisma env req h ops s :
  prisma_calls (trace_of (phase env req h ops s)) = 0%nat.
Proof.
  apply prisma_calls_none. eapply Forall_impl; [|apply phase_emits].
  intros [] [H _]; simpl in *; try discriminate; reflexivity.
Qed.

Lemma prisma_one env m args s : prisma_calls (trace_of (prisma env m args s)) = 1%nat.
Proof. unfold prisma, bind, emit, lift. destruct (query env m args); reflexivity. Qed.

Lemma persist_at_most_one env m s :
  (prisma_calls (trace_of (persist env m s)) <= 1)%nat.
Proof.
  unfold persist. unfold bind at 1. unfold get at 1. cbv beta iota.
  unfold bind at 1. unfold lift at 1.
  destruct (get_prop (inputData s) "data") as [d|e]; [|unfold prisma_calls; simpl; lia].
  unfold bind at 1. unfold lift at 1.
  destruct (mergeData (models env) d) as [md|e]; [|unfold prisma_calls; simpl; lia].
  assert (Hk : forall k pm (f : JS -> JS),
             (prisma_calls
                (trace_of (bind (lift (get_prop (inputData s) k))
                                (fun w => prisma env pm (f w)) s)) <= 1)%nat).
  { intros k pm f. unfold bind at 1. unfold lift at 1.
    destruct (get_prop (inputData s) k) as [w|e]; [|unfold prisma_calls; simpl; lia].
    pose proof (prisma_one env pm (f w) s) as H1.
    destruct (prisma env pm (f w) s) as [[r s1] t1]. simpl in *. lia. }
  assert (Hgoal : forall x : Res JS * Store * list Event,
             (prisma_calls (trace_of x) <= 1)%nat ->
             (prisma_calls (trace_of (let '(r, s2, t2) := x in (r, s2, [] ++ [] ++ t2))) <= 1)%nat).
  { intros [[r s2] t2] H. exact H. }
  destruct m; try (unfold prisma_calls; simpl; lia); try destruct (isArray d);
    match goal with
    | |- context [bind (lift (get_prop (inputData s) ?k)) (fun w => prisma env ?pm (@?f w)) s] =>
        pose proof (Hk k pm f) as H;
        destruct (bind (lift (get_prop (inputData s) k)) (fun w => prisma env pm (f w)) s)
          as [[r s2] t2]; simpl in *; exact H
    end.
Qed.

Lemma bind_trace_cases {A B} (m : M A) (k : A -> M B) s :
  trace_of (bind m k s) = trace_of (m s)
  \/ exists a s1, trace_of (bind m k s) = trace_of (m s) ++ trace_of (k a s1).
Proof.
  unfold bind. destruct (m s) as [[[a|e] s1] t1]; [|left; reflexivity].
  right. exists a, s1. destruct (k a s1) as [[r s2] t2]. reflexivity.
Qed.

Lemma obtain_result_at_most_one env req s :
  (prisma_calls (trace_of (obtain_result env req s)) <= 1)%nat.
Proof.
  unfold obtain_result.
  destruct (bind_trace_cases
              (phase env req beforeOperation (CRUDHooks.beforeOperation (hooks_of env)))
              (fun _ =>
                 match method req with
                 | GET =>
                     bind get (fun s0 =>
                     bind (lift (mapQuery (reqQuery s0))) (fun mappedQuery =>
                     prisma env Prisma.findMany (JObj mappedQuery)))
                 | reqMethod =>
                     bind (phase env req validateInput
                             (CRUDHooks.validateInput (hooks_of env))) (fun _ =>
                     bind (phase env req modifyInput
                             (CRUDHooks.modifyInput (hooks_of env))) (fun _ =>
                     persist env reqMethod))
                 end) s) as [H|([] & s1 & H)]; cbv zeta; rewrite H.
  - rewrite phase_no_prisma. lia.
  - rewrite prisma_calls_app, phase_no_prisma. simpl.
    assert (Hw : forall m,
               (prisma_calls
                  (trace_of
                     (bind (phase env req validateInput
                              (CRUDHooks.validateInput (hooks_of env))) (fun _ =>
                      bind (phase env req modifyInput
                              (CRUDHooks.modifyInput (hooks_of env))) (fun _ =>
                      persist env m)) s1)) <= 1)%nat).
    { intros m.
      destruct (bind_trace_cases
                  (phase env req validateInput (CRUDHooks.validateInput (hooks_of env)))
                  (fun _ =>
                     bind (phase env req modifyInput
                             (CRUDHooks.modifyInput (hooks_of env))) (fun _ =>
                     persist env m)) s1) as [H2|([] & s2 & H2)]; rewrite H2.
      - rewrite phase_no_prisma. lia.
      - rewrite prisma_calls_app, phase_no_prisma. simpl.
        destruct (bind_trace_cases
                    (phase env req modifyInput (CRUDHooks.modifyInput (hooks_of env)))
                    (fun _ => persist env m) s2) as [H3|([] & s3 & H3)]; rewrite H3.
        + rewrite phase_no_prisma. lia.
        + rewrite prisma_calls_app, phase_no_prisma. simpl. apply persist_at_most_one. }
    destruct (method req); try apply Hw.
    unfold bind at 1. unfold get at 1. cbv beta iota.
    unfold bind at 1. unfold lift at 1.
    destruct (mapQuery (reqQuery s1)) as [q|e]; [|unfold prisma_calls; simpl; lia].
    pose proof (prisma_one env Prisma.findMany (JObj q) s1) as H1.
    destruct (prisma env Prisma.findMany (JObj q) s1) as [[r s2] t2]. simpl in *. lia.
Qed.

Lemma after_result_no_prisma env req r s :
  prisma_calls (trace_of (after_result env req r s)) = 0%nat.
Proof.
  apply prisma_calls_none. revert s. change (emits (fun ev => is_prisma ev = false)
                                                    (after_result env req r)).
  unfold after_result.
  apply emits_bind.
  { eapply emits_weaken; [|apply phase_emits].
    intros [] [H _]; simpl in *; try discriminate; reflexivity. }
  intros _. apply emits_bind.
  { eapply emits_weaken; [|apply res_json_emits].
    intros [] H; simpl in *; try discriminate; reflexivity. }
  intros _. apply emits_bind; [auto with emits|]. intros p.
  eapply emits_weaken; [|apply fan_out_emits]. intros e (w & _ & _ & ->). reflexivity.
Qed.

(** Whatever happens, a request makes at most one call to the persistence
    delegate. *)
Theorem at_most_one_persistence_call env req s :
  (prisma_calls (trace_of (serve env req s)) <= 1)%nat.
Proof.
  assert (Hh : (prisma_calls (trace_of (handler env req s)) <= 1)%nat).
  { rewrite handler_stages.
    pose proof (obtain_result_at_most_one env req s) as Ho.
    destruct (bind_trace_cases (obtain_result env req) (after_result env req) s)
      as [H|(r & s1 & H)]; rewrite H; [exact Ho|].
    rewrite prisma_calls_app, after_result_no_prisma. lia. }
  unfold serve. destruct (handler env req s) as [[[[]|e] s1] t1]; [exact Hh|].
  assert (He : prisma_calls (trace_of (next_err e s1)) = 0%nat).
  { apply prisma_calls_none. eapply Forall_impl; [|apply next_err_emits].
    intros ev [st ->]. reflexivity. }
  destruct (next_err e s1) as [[r s2] t2]. simpl in *.
  rewrite prisma_calls_app. lia.
Qed.

(** * More about [mapQuery] *)

(** ** Entry by entry *)

Lemma rmap_ok {A B} (f : A -> Res B) l : forall es,
  rmap f l = Ok es -> Forall2 (fun x y => f x = Ok y) l es.
Proof.
  induction l as [|x xs IH]; intros es H; simpl in H.
  - injection H as <-. constructor.
  - destruct (f x) as [y|e] eqn:Ex; [|discriminate].
    destruct (rmap f xs) as [ys|e]; [|discriminate].
    injection H as <-. constructor; [exact Ex|apply IH; reflexivity].
Qed.

Lemma rmap_throw {A B} (f : A -> Res B) l e :
  rmap f l = Throw e ->
  exists pre x post,
    l = pre ++ x :: post
    /\ Forall (fun a => exists b, f a = Ok b) pre
    /\ f x = Throw e.
Proof.
  induction l as [|x xs IH]; intros H; simpl in H; [discriminate|].
  destruct (f x) as [y|e'] eqn:Ex.
  - destruct (rmap f xs) as [ys|e'] eqn:Er; [discriminate|].
    injection H as ->.
    destruct (IH eq_refl) as (pre & z & post & -> & Hpre & Hz).
    exists (x :: pre), z, post. repeat split; [|exact Hz].
    constructor; [eauto|exact Hpre].
  - injection H as ->. exists [], x, xs. repeat split; [constructor|exact Ex].
Qed.

Lemma map_entry_key kv r : map_entry kv = Ok r -> fst r = fst kv.
Proof.
  destruct kv as [k v]. unfold map_entry.
  destruct (structure k v) as [nv|e]; [|discriminate].
  destruct (coerce_number nv) as [n|e]; [|discriminate].
  intros H. injection H as <-. reflexivity.
Qed.

Lemma lookup_absent k (ps : Props) : ~ In k (map fst ps) -> lookup k ps = None.
Proof.
  induction ps as [|[k1 v1] ps IH]; simpl; intros H; [reflexivity|].
  destruct (String.eqb k1 k) eqn:E.
  - apply String.eqb_eq in E. tauto.
  - apply IH. tauto.
Qed.

Lemma lookup_fold_set_prop k es : forall acc,
  NoDup (map fst es) ->
  lookup k (fold_left (fun a kv => set_prop (fst kv) (snd kv) a) es acc) =
  match lookup k es with Some v => Some v | None => lookup k acc end.
Proof.
  induction es as [|[k1 v1] es IH]; intros acc Hnd; simpl; [reflexivity|].
  inversion Hnd as [|? ? Hnotin Hnd']; subst.
  rewrite (IH _ Hnd'), lookup_set_prop.
  destruct (String.eqb k1 k) eqn:E; [|reflexivity].
  apply String.eqb_eq in E. subst k1.
  rewrite (lookup_absent _ _ Hnotin). reflexivity.
Qed.

Lemma lookup_entries k q es :
  Forall2 (fun x y => map_entry x = Ok y) q es ->
  match lookup k q with
  | Some v => exists v', map_entry (k, v) = Ok (k, v') /\ lookup k es = Some v'
  | None => lookup k es = None
  end.
Proof.
  induction 1 as [|[k1 v1] [k2 v2] q es Hxy _ IH]; simpl; [reflexivity|].
  pose proof (map_entry_key _ _ Hxy) as Hk. simpl in Hk. subst k2.
  destruct (String.eqb k1 k) eqn:E; [|exact IH].
  apply String.eqb_eq in E. subst k1. eauto.
Qed.

Lemma keys_entries q es :
  Forall2 (fun x y => map_entry x = Ok y) q es -> map fst es = map fst q.
Proof.
  induction 1 as [|x y q es Hxy _ IH]; simpl; [reflexivity|].
  rewrite (map_entry_key _ _ Hxy), IH. reflexivity.
Qed.

(** [mapQuery] works entry by entry: the result has the keys of the query,
    no other, and under each key what the callback makes of the value of
    that key alone. *)
Theorem mapQuery_entrywise q r :
  NoDup (map fst q) -> mapQuery q = Ok r ->
  forall k,
    match lookup k q with
    | Some v => exists v', map_entry (k, v) = Ok (k, v') /\ lookup k r = Some v'
    | None => lookup k r = None
    end.
Proof.
  intros Hnd Hq k. unfold mapQuery in Hq.
  destruct (rmap map_entry q) as [es|e] eqn:E; [|discriminate].
  injection Hq as <-. apply rmap_ok in E.
  assert (Hl : lookup k (fromEntries es) = lookup k es).
  { unfold fromEntries. rewrite lookup_fold_set_prop.
    - destruct (lookup k es); reflexivity.
    - rewrite (keys_entries _ _ E). exact Hnd. }
  rewrite Hl. apply lookup_entries. exact E.
Qed.

Lemma mapQuery_entrywise_witness :
  (exists v', map_entry ("take", JStr "5") = Ok ("take", v')
              /\ lookup "take" [("take", JNum 5); ("orderBy", JObj [("name", JStr "asc")])]
                 = Some v')
  /\ lookup "skip" [("take", JNum 5); ("orderBy", JObj [("name", JStr "asc")])] = None.
Proof.
  assert (Hnd : NoDup (map fst [("take", JStr "5"); ("orderBy", JStr "name-asc")])).
  { repeat constructor; simpl; intuition discriminate. }
  split.
  - exact (mapQuery_entrywise
             [("take", JStr "5"); ("orderBy", JStr "name-asc")]
             [("take", JNum 5); ("orderBy", JObj [("name", JStr "asc")])]
             Hnd eq_refl "take").
  - exact (mapQuery_entrywise
             [("take", JStr "5"); ("orderBy", JStr "name-asc")]
             [("take", JNum 5); ("orderBy", JObj [("name", JStr "asc")])]
             Hnd eq_refl "skip").
Defined.

(** ** What [mapQuery] throws *)

Lemma to_string_cons x rest :
  to_string (JArr (x :: rest)) =
  match match x with
        | JUndefined | JNull => Ok ""
        | _ => to_string x
        end
  with
  | Throw e => Throw e
  | Ok a =>
      match rest with
      | [] => Ok a
      | _ => match to_string (JArr rest) with
             | Ok b => Ok (a ++ "," ++ b)%string
             | Throw e => Throw e
             end
      end
  end.
Proof. reflexivity. Qed.

Lemma to_string_throws : forall v e,
  to_string v = Throw e -> e = no_primitive \/ exists w, e = OutOfModel w.
Proof.
  fix IH 1. intros v e. destruct v as [| |b|z|lit|s|items|ps].
  - discriminate.
  - discriminate.
  - destruct b; discriminate.
  - simpl. destruct (is_safe z); intros H; [discriminate|]. injection H as <-. right. eauto.
  - simpl. intros H. injection H as <-. right. eauto.
  - discriminate.
  - induction items as [|x rest IHrest]; [discriminate|].
    rewrite to_string_cons.
    destruct (match x with
              | JUndefined | JNull => Ok ""
              | _ => to_string x
              end) as [a|e'] eqn:Ex.
    + destruct rest as [|y rest']; [discriminate|].
      destruct (to_string (JArr (y :: rest'))) as [b|e''] eqn:Ej; [discriminate|].
      intros H. injection H as <-. apply IHrest. reflexivity.
    + intros H. injection H as <-. apply (IH x).
      destruct x; try discriminate; exact Ex.
  - simpl. destruct (has_own "toString" ps); intros H; [|discriminate].
    injection H as <-. left. reflexivity.
Qed.

Lemma coerce_number_throws v e :
  coerce_number v = Throw e -> e = no_primitive \/ exists w, e = OutOfModel w.
Proof.
  unfold coerce_number, to_number.
  destruct v as [| |b|z|lit|s|items|ps]; try discriminate;
    try (destruct (string_to_number s); discriminate).
  - destruct (to_string (JArr items)) as [s|e'] eqn:E.
    + destruct (string_to_number s); discriminate.
    + intros H. injection H as <-. exact (to_string_throws _ _ E).
  - destruct (to_string (JObj ps)) as [s|e'] eqn:E.
    + destruct (string_to_number s); discriminate.
    + intros H. injection H as <-. exact (to_string_throws _ _ E).
Qed.

Lemma js_includes_throws c v e : js_includes c v = Throw e -> exists m, e = TypeError m.
Proof. destruct v; simpl; intros H; try discriminate; injection H as <-; eauto. Qed.

Lemma js_split_throws c v e : js_split c v = Throw e -> exists m, e = TypeError m.
Proof. destruct v; simpl; intros H; try discriminate; injection H as <-; eauto. Qed.

Lemma structure_throws k v e :
  structure k v = Throw e -> in_model e ->
  (e = malformed_where /\ k = "where") \/ exists m, e = TypeError m.
Proof.
  unfold structure. destruct (String.eqb k "where") eqn:Ek.
  - apply String.eqb_eq in Ek. unfold parse_where.
    destruct (rbind (to_string v) JSON_parse) as [x|[]]; intros H Hm;
      try discriminate; injection H as <-; auto. destruct Hm.
  - intros H _. right.
    destruct (js_includes comma v) as [[]|e1] eqn:Ec.
    + destruct (js_split comma v) as [pieces|e2] eqn:Es.
      * destruct (String.eqb k "distinct"); discriminate.
      * destruct (String.eqb k "distinct"); injection H as <-;
          exact (js_split_throws _ _ _ Es).
    + destruct (js_includes hyphen v) as [[]|e2] eqn:Eh.
      * destruct (js_split hyphen v) as [pieces|e3] eqn:Es.
        -- destruct (entry_of_pieces pieces). discriminate.
        -- injection H as <-. exact (js_split_throws _ _ _ Es).
      * discriminate.
      * injection H as <-. exact (js_includes_throws _ _ _ Eh).
    + injection H as <-. exact (js_includes_throws _ _ _ Ec).
Qed.

Lemma map_entry_throws k v e :
  map_entry (k, v) = Throw e -> in_model e ->
  (e = malformed_where /\ k = "where") \/ exists m, e = TypeError m.
Proof.
  unfold map_entry. destruct (structure k v) as [nv|e1] eqn:Es.
  - destruct (coerce_number nv) as [n|e2] eqn:Ec; [discriminate|].
    intros H Hm. injection H as <-. right.
    destruct (coerce_number_throws _ _ Ec) as [->|[w ->]]; [unfold no_primitive; eauto|].
    destruct Hm.
  - intros H Hm. injection H as <-. exact (structure_throws _ _ _ Es Hm).
Qed.

(** [mapQuery] fails exactly at the first entry, in enumeration order, at
    which the callback throws, and with what the callback throws there:
    the status-400 error, which only an entry [where] can raise, or a
    TypeError; never the SyntaxError of [JSON.parse]. *)
Theorem mapQuery_failure q e :
  mapQuery q = Throw e ->
  exists pre k v post,
    q = pre ++ (k, v) :: post
    /\ Forall (fun kv => exists y, map_entry kv = Ok y) pre
    /\ map_entry (k, v) = Throw e
    /\ (in_model e -> (e = malformed_where /\ k = "where") \/ exists m, e = TypeError m).
Proof.
  unfold mapQuery. destruct (rmap map_entry q) as [es|e'] eqn:E; [discriminate|].
  intros H. injection H as ->.
  destruct (rmap_throw _ _ _ E) as (pre & [k v] & post & -> & Hpre & Hx).
  exists pre, k, v, post.
  split; [reflexivity|]. split; [exact Hpre|]. split; [exact Hx|].
  apply (map_entry_throws _ _ _ Hx).
Qed.

Lemma mapQuery_failure_witness :
  exists pre k v post,
    [("take", JStr "5"); ("where", JStr "{bad"); ("skip", JStr "1")] = pre ++ (k, v) :: post
    /\ Forall (fun kv => exists y, map_entry kv = Ok y) pre
    /\ map_entry (k, v) = Throw malformed_where
    /\ (in_model malformed_where ->
        (malformed_where = malformed_where /\ k = "where")
        \/ exists m, malformed_where = TypeError m).
Proof.
  exact (mapQuery_failure
           [("take", JStr "5"); ("where", JStr "{bad"); ("skip", JStr "1")]
           malformed_where eq_refl).
Defined.

(** ** Values with a hyphen *)

(** Outside [where], a value that contains a hyphen (a negative number, a
    date, a range) never comes out as a number or as a string: it becomes
    a mapping, or under [distinct] with a comma the list of its pieces. *)
Theorem hyphen_value_is_structured key v r :
  String.eqb key "where" = false ->
  includes hyphen v = true ->
  map_entry (key, JStr v) = Ok r ->
  fst r = key
  /\ ((exists ps, snd r = JObj ps)
      \/ (key = "distinct" /\ includes comma v = true
          /\ snd r = JArr (map JStr (split comma v)))).
Proof.
  intros Hk Hh. unfold map_entry, structure. rewrite Hk. simpl.
  destruct (includes comma v) eqn:Hc.
  - destruct (String.eqb key "distinct") eqn:Ed.
    + rewrite (coerce_number_split _ Hc). intros H. injection H as <-.
      apply String.eqb_eq in Ed. split; [reflexivity|]. right.
      split; [exact Ed|]. split; reflexivity.
    + rewrite coerce_number_object.
      destruct (has_own "toString" _); intros H; [discriminate|].
      injection H as <-. split; [reflexivity|]. left. simpl. eauto.
  - rewrite Hh. destruct (entry_of_pieces (split hyphen v)) as [subKey subValue].
    rewrite coerce_number_object.
    destruct (has_own "toString" _); intros H; [discriminate|].
    injection H as <-. split; [reflexivity|]. left. simpl. eauto.
Qed.

Lemma hyphen_value_is_structured_witness :
  fst ("take", JObj [("", JStr "5")]) = "take"
  /\ ((exists ps, snd ("take", JObj [("", JStr "5")]) = JObj ps)
      \/ ("take" = "distinct" /\ includes comma "-5" = true
          /\ snd ("take", JObj [("", JStr "5")]) = JArr (map JStr (split comma "-5")))).
Proof.
  exact (hyphen_value_is_structured "take" "-5" ("take", JObj [("", JStr "5")])
           eq_refl eq_refl eq_refl).
Defined.

(** ** Blank values *)

Lemma strip_ws_blank c : forall n l,
  (c <? 128)%N = true -> ws1 c = false ->
  (List.length l <= n)%nat -> strip_ws l = [] -> existsb (N.eqb c) l = false.
Proof.
  intros n l Hc Hw. apply N.ltb_lt in Hc. revert l.
  induction n as [|n IH]; intros l Hl Hs.
  - destruct l; [reflexivity|simpl in Hl; lia].
  - destruct l as [|a l1]; [reflexivity|]. cbn [strip_ws] in Hs.
    destruct (ws1 a) eqn:E1.
    { cbn [existsb]. rewrite (IH l1) by (simpl in Hl; try lia; assumption).
      rewrite orb_false_r. apply N.eqb_neq. intros ->. congruence. }
    destruct l1 as [|b l2]; [discriminate|].
    destruct (ws2 a b) eqn:E2.
    { cbn [existsb]. rewrite (IH l2) by (simpl in Hl; try lia; assumption).
      unfold ws2 in E2. rewrite andb_true_iff, !N.eqb_eq in E2.
      rewrite orb_false_r. apply orb_false_iff. split; apply N.eqb_neq; lia. }
    destruct l2 as [|d l3]; [discriminate|].
    destruct (ws3 a b d) eqn:E3; [|discriminate].
    cbn [existsb]. rewrite (IH l3) by (simpl in Hl; try lia; assumption).
    unfold ws3 in E3.
    rewrite !orb_true_iff, !andb_true_iff, !orb_true_iff, !andb_true_iff,
      !N.eqb_eq, !N.leb_le in E3.
    rewrite orb_false_r. repeat (apply orb_false_iff; split); apply N.eqb_neq; lia.
Qed.

Lemma includes_existsb c v :
  includes c v = existsb (N.eqb (N_of_ascii c)) (codes v).
Proof.
  induction v as [|a v IH]; [reflexivity|].
  cbn [includes]. rewrite IH. unfold codes. cbn [list_ascii_of_string map existsb].
  f_equal. destruct (Ascii.eqb_spec a c) as [->|Hne]; [symmetry; apply N.eqb_refl|].
  symmetry. apply N.eqb_neq. intros H. apply Hne.
  rewrite <- (ascii_N_embedding a), <- H, ascii_N_embedding. reflexivity.
Qed.

(** Outside [where], a value that is empty or holds white space only
    becomes the number 0. *)
Theorem blank_value_becomes_zero key v :
  String.eqb key "where" = false -> blank v = true ->
  map_entry (key, JStr v) = Ok (key, JNum 0).
Proof.
  intros Hk Hb. unfold blank in Hb.
  destruct (strip_ws (codes v)) as [|x l] eqn:Es; [|discriminate].
  assert (Hc : includes comma v = false).
  { rewrite includes_existsb.
    apply (strip_ws_blank _ (List.length (codes v)) (codes v)); [reflexivity|reflexivity|apply le_n|exact Es]. }
  assert (Hh : includes hyphen v = false).
  { rewrite includes_existsb.
    apply (strip_ws_blank _ (List.length (codes v)) (codes v)); [reflexivity|reflexivity|apply le_n|exact Es]. }
  unfold map_entry, structure. rewrite Hk. simpl. rewrite Hc, Hh.
  unfold coerce_number, to_number, string_to_number. rewrite Es. reflexivity.
Qed.

Lemma blank_value_becomes_zero_witness :
  map_entry ("title", JStr "") = Ok ("title", JNum 0)
  /\ map_entry ("title", JStr "  ") = Ok ("title", JNum 0).
Proof.
  split; apply blank_value_becomes_zero; reflexivity.
Defined.

(** ** Parameters that are not strings *)

Lemma includes_app c a b : includes c (a ++ b) = includes c a || includes c b.
Proof.
  induction a as [|d a IH]; simpl; [reflexivity|].
  rewrite IH. apply orb_assoc.
Qed.

Lemma includes_concat x y l : includes comma (String.concat "," (x :: y :: l)) = true.
Proof.
  change (String.concat "," (x :: y :: l))
    with (x ++ "," ++ String.concat "," (y :: l))%string.
  rewrite !includes_app. apply orb_true_iff. right. reflexivity.
Qed.

(** Outside [where], a parameter whose value is an object (a nested
    parameter) always makes the callback throw a TypeError, and a
    parameter given twice or more (a list of strings), none of them being
    the bare separator [","] or ["-"], is passed on as that list. *)
Theorem nested_and_repeated_parameters key :
  String.eqb key "where" = false ->
  (forall ps, exists m, map_entry (key, JObj ps) = Throw (TypeError m))
  /\ (forall x y l,
        Forall (fun s => s <> "," /\ s <> "-")%string (x :: y :: l) ->
        map_entry (key, JArr (map JStr (x :: y :: l)))
        = Ok (key, JArr (map JStr (x :: y :: l)))).
Proof.
  intros Hk. split.
  - intros ps. unfold map_entry, structure. rewrite Hk. simpl. eauto.
  - assert (Hno : forall (c : ascii) ls,
               Forall (fun s => s <> String c EmptyString) ls ->
               js_includes c (JArr (map JStr ls)) = Ok false).
    { intros c ls H. unfold js_includes. f_equal.
      induction H as [|s rest Hs _ IH]; simpl; [reflexivity|].
      rewrite IH, orb_false_r. apply String.eqb_neq. exact Hs. }
    intros x y l Hall. unfold map_entry, structure. rewrite Hk.
    rewrite (Hno comma) by (eapply Forall_impl; [|exact Hall]; intros s [H _]; exact H).
    rewrite (Hno hyphen) by (eapply Forall_impl; [|exact Hall]; intros s [_ H]; exact H).
    unfold coerce_number, to_number.
    rewrite to_string_strings, (string_to_number_comma _ (includes_concat x y l)).
    reflexivity.
Qed.

Lemma nested_and_repeated_parameters_witness :
  (forall ps, exists m, map_entry ("filter", JObj ps) = Throw (TypeError m))
  /\ (forall x y l,
        Forall (fun s => s <> "," /\ s <> "-")%string (x :: y :: l) ->
        map_entry ("filter", JArr (map JStr (x :: y :: l)))
        = Ok ("filter", JArr (map JStr (x :: y :: l)))).
Proof. exact (nested_and_repeated_parameters "filter" eq_refl). Defined.

(** ** Inside a mapping nothing is coerced *)

Lemma pieces_replace_prop k v ps :
  is_piece v -> Forall (fun kv => is_piece (snd kv)) ps ->
  Forall (fun kv => is_piece (snd kv)) (replace_prop k v ps).
Proof.
  intros Hv. induction 1 as [|[k1 v1] ps H1 H2 IH]; simpl; [constructor|].
  destruct (String.eqb k1 k); constructor; assumption.
Qed.

Lemma pieces_insert_index i k v ps :
  is_piece v -> Forall (fun kv => is_piece (snd kv)) ps ->
  Forall (fun kv => is_piece (snd kv)) (insert_index i k v ps).
Proof.
  intros Hv. induction 1 as [|[k1 v1] ps H1 H2 IH]; simpl;
    [constructor; [exact Hv|constructor]|].
  assert (Hhead : Forall (fun kv => is_piece (snd kv)) ((k, v) :: (k1, v1) :: ps))
    by (constructor; [exact Hv|constructor; assumption]).
  destruct (array_index k1) as [j|]; [|exact Hhead].
  destruct (j <? i); [|exact Hhead].
  constructor; assumption.
Qed.

Lemma pieces_set_prop k v ps :
  is_piece v -> Forall (fun kv => is_piece (snd kv)) ps ->
  Forall (fun kv => is_piece (snd kv)) (set_prop k v ps).
Proof.
  intros Hv Hps. unfold set_prop. destruct (has_own k ps).
  - apply pieces_replace_prop; assumption.
  - destruct (array_index k) as [i|].
    + apply pieces_insert_index; assumption.
    + apply Forall_app. split; [exact Hps|]. constructor; [exact Hv|constructor].
Qed.

Lemma piece_entry_of_pieces l : is_piece (snd (entry_of_pieces l)).
Proof.
  destruct l as [|k [|v l]]; simpl; unfold is_piece; eauto.
Qed.

Lemma pieces_fromEntries (es : list (string * JS)) :
  Forall (fun kv => is_piece (snd kv)) es ->
  Forall (fun kv => is_piece (snd kv)) (fromEntries es).
Proof.
  unfold fromEntries.
  assert (H : forall acc, Forall (fun kv => is_piece (snd kv)) acc ->
                          Forall (fun kv => is_piece (snd kv)) es ->
                          Forall (fun kv => is_piece (snd kv))
                                 (fold_left (fun a kv => set_prop (fst kv) (snd kv) a) es acc)).
  { induction es as [|[k v] es IH]; intros acc Hacc Hes; simpl; [exact Hacc|].
    inversion Hes as [|? ? Hv Hes']; subst.
    apply IH; [apply pieces_set_prop; assumption|exact Hes']. }
  apply H. constructor.
Qed.

(** When a value outside [where] is normalized to a mapping, every value
    of the mapping is a piece of the original text, still a string (or
    [undefined] for a pair without hyphen): numbers and booleans inside
    pairs are not coerced. *)
Theorem pairs_are_not_coerced key v ps :
  String.eqb key "where" = false ->
  map_entry (key, JStr v) = Ok (key, JObj ps) ->
  Forall (fun kv => is_piece (snd kv)) ps.
Proof.
  intros Hk. unfold map_entry, structure. rewrite Hk. simpl.
  destruct (includes comma v) eqn:Hc.
  - destruct (String.eqb key "distinct").
    + rewrite (coerce_number_split _ Hc). discriminate.
    + rewrite coerce_number_object.
      destruct (has_own "toString" _); intros H; [discriminate|].
      injection H as <-. apply pieces_fromEntries.
      apply Forall_map. apply Forall_forall. intros x _. apply piece_entry_of_pieces.
  - destruct (includes hyphen v) eqn:Hh.
    + pose proof (piece_entry_of_pieces (split hyphen v)) as Hp.
      destruct (entry_of_pieces (split hyphen v)) as [subKey subValue].
      rewrite coerce_number_object.
      destruct (has_own "toString" _); intros H; [discriminate|].
      injection H as <-. apply pieces_set_prop; [exact Hp|constructor].
    + unfold coerce_number. simpl.
      destruct (string_to_number v); discriminate.
Qed.

Lemma pairs_are_not_coerced_witness :
  Forall (fun kv => is_piece (snd kv)) [("id", JStr "5"); ("published", JStr "true")].
Proof.
  exact (pairs_are_not_coerced "cursor" "id-5,published-true"
           [("id", JStr "5"); ("published", JStr "true")] eq_refl eq_refl).
Defined.

(** * More about a request *)

(** ** The stages, once more *)

Lemma obtain_result_steps env req s :
  obtain_result env req s = bind (before_delegate env req) (fun _ => delegate_step env req) s.
Proof.
  unfold obtain_result, before_delegate, delegate_step, before_persist.
  destruct (method req); try reflexivity;
    rewrite bind_assoc; apply bind_ext; intros _ s1; rewrite bind_assoc; reflexivity.
Qed.

(** How the part after [resultData] runs, by the outcome of the
    [afterOperation] phase. *)
Lemma after_result_run env req r s1 :
  after_result env req r s1 =
  match phase env req afterOperation (CRUDHooks.afterOperation (hooks_of env)) s1 with
  | (Throw e, s2, t2) => (Throw e, s2, t2)
  | (Ok _, s2, t2) =>
      if headersSent s2 then (Throw headers_sent, s2, t2)
      else
        match webhookTriggerPayload env req r with
        | Throw e =>
            (Throw e, set_sent (Some (statusCode s2, r)) s2, t2 ++ [ResJson (statusCode s2) r])
        | Ok payload =>
            (Ok tt, set_sent (Some (statusCode s2, r)) s2,
             t2 ++ ResJson (statusCode s2) r
                :: map (fun w => WebhookTrigger w payload) (listeners env req))
        end
  end.
Proof.
  unfold after_result.
  destruct (phase env req afterOperation (CRUDHooks.afterOperation (hooks_of env)) s1)
    as [[[[]|e] s2] t2] eqn:Ea.
  2:{ rewrite (bind_throw _ _ _ _ _ _ Ea). reflexivity. }
  rewrite (bind_ok _ _ _ _ _ _ Ea). cbv beta.
  destruct (headersSent s2) eqn:Hs.
  - assert (Hr : res_json r s2 = (Throw headers_sent, s2, []))
      by (unfold res_json; rewrite Hs; reflexivity).
    rewrite (bind_throw _ _ _ _ _ _ Hr). simpl. rewrite app_nil_r. reflexivity.
  - assert (Hr : res_json r s2 =
                 (Ok tt, set_sent (Some (statusCode s2, r)) s2, [ResJson (statusCode s2) r]))
      by (unfold res_json; rewrite Hs; reflexivity).
    rewrite (bind_ok _ _ _ _ _ _ Hr). cbv beta.
    destruct (webhookTriggerPayload env req r) as [payload|e] eqn:Ep.
    + assert (Hl : lift (Ok payload) (set_sent (Some (statusCode s2, r)) s2) =
                   (Ok payload, set_sent (Some (statusCode s2, r)) s2, [])) by reflexivity.
      rewrite (bind_ok _ _ _ _ _ _ Hl). cbv beta. rewrite fan_out_run. reflexivity.
    + assert (Hl : lift (@Throw EventTriggerPayload e) (set_sent (Some (statusCode s2, r)) s2) =
                   (Throw e, set_sent (Some (statusCode s2, r)) s2, [])) by reflexivity.
      rewrite (bind_throw _ _ _ _ _ _ Hl). reflexivity.
Qed.

(** How [errHandler] runs. *)
Lemma errHandler_run err s :
  errHandler err s =
  match isPrismaErr err with
  | Throw e => (Throw e, s, [])
  | Ok prismaErr =>
      if headersSent s then (Ok tt, s, [LoggerCall err; ConsoleLog err])
      else
        match (if prismaErr then err_message err else message_or_self err) with
        | Throw e => (Throw e, set_statusCode 500 s, [])
        | Ok msg =>
            (Ok tt, set_sent (Some (500%nat, failure msg)) (set_statusCode 500 s),
             [ResJson 500 (failure msg); LoggerCall err; ConsoleLog err])
        end
  end.
Proof.
  unfold errHandler, bind, lift, get.
  destruct (isPrismaErr err) as [b|e]; [|reflexivity].
  destruct s as [c i a q sc [snt|]]; [reflexivity|]. simpl.
  destruct (if b then err_message err else message_or_self err); reflexivity.
Qed.

(** How the final handler runs. *)
Lemma finalhandler_run err s :
  finalhandler err s =
  match final_status err s with
  | Throw e => (Throw e, s, [])
  | Ok status =>
      if headersSent s then (Ok tt, s, [])
      else (Ok tt, set_sent (Some (status, page)) (set_statusCode status s),
            [ErrorPage status err])
  end.
Proof. reflexivity. Qed.

(** ** Counting responses *)

Lemma responses_app t1 t2 : responses (t1 ++ t2) = (responses t1 + responses t2)%nat.
Proof. unfold responses. rewrite filter_app, length_app. reflexivity. Qed.

Lemma responses_none t :
  Forall (fun ev => is_answer ev = false) t -> responses t = 0%nat.
Proof.
  unfold responses. induction 1 as [|e t He _ IH]; simpl; [reflexivity|].
  rewrite He. exact IH.
Qed.

Lemma no_response_in t st b :
  Forall (fun ev => is_answer ev = false) t -> ~ In (ResJson st b) t.
Proof.
  intros H Hin. rewrite Forall_forall in H. specialize (H _ Hin). discriminate.
Qed.

Lemma no_page_in t st e :
  Forall (fun ev => is_answer ev = false) t -> ~ In (ErrorPage st e) t.
Proof.
  intros H Hin. rewrite Forall_forall in H. specialize (H _ Hin). discriminate.
Qed.

Lemma webhooks_no_response (ws : list Webhook) p :
  Forall (fun ev => is_answer ev = false) (map (fun w => WebhookTrigger w p) ws).
Proof. induction ws; simpl; constructor; auto. Qed.

Lemma phase_no_response env req h ops s :
  Forall (fun ev => is_answer ev = false) (trace_of (phase env req h ops s)).
Proof.
  eapply Forall_impl; [|apply phase_emits].
  intros [] [H _]; simpl in *; try discriminate; reflexivity.
Qed.

(** Before [resultData] is assigned there are only calls of plugins and
    hooks and the call of the delegate. *)
Lemma obtain_result_quiet env req :
  emits (fun ev => is_webhook ev = false /\ is_answer ev = false /\ is_log ev = false)
        (obtain_result env req).
Proof.
  assert (Hph : forall h ops,
             emits (fun ev => is_webhook ev = false /\ is_answer ev = false
                              /\ is_log ev = false)
                   (phase env req h ops)).
  { intros h ops. eapply emits_weaken; [|apply phase_emits].
    intros [] [H _]; simpl in *; try discriminate; auto. }
  assert (Hpr : forall pm args,
             emits (fun ev => is_webhook ev = false /\ is_answer ev = false
                              /\ is_log ev = false)
                   (prisma env pm args)).
  { intros pm args. eapply emits_weaken; [|apply prisma_emits]. intros ev ->. auto. }
  assert (Hpe : forall m,
             emits (fun ev => is_webhook ev = false /\ is_answer ev = false
                              /\ is_log ev = false)
                   (persist env m)).
  { intros m. eapply emits_weaken; [|apply persist_emits].
    intros [] H; simpl in *; try discriminate; auto. }
  unfold obtain_result.
  apply emits_bind; [apply Hph|]. intros _.
  destruct (method req);
    try (apply emits_bind; [apply Hph|]; intros _;
         apply emits_bind; [apply Hph|]; intros _; apply Hpe).
  apply emits_bind; [auto with emits|]. intros s0.
  apply emits_bind; [auto with emits|]. intros q. apply Hpr.
Qed.

Lemma obtain_result_no_response env req s :
  Forall (fun ev => is_answer ev = false) (trace_of (obtain_result env req s)).
Proof.
  eapply Forall_impl; [|apply obtain_result_quiet]. intros ev (_ & H & _). exact H.
Qed.

Lemma next_err_responses e s :
  (responses (trace_of (next_err e s)) <= 1)%nat
  /\ (headersSent s = true -> responses (trace_of (next_err e s)) = 0%nat)
  /\ (result_of (next_err e s) = Ok tt ->
      headersSent (store_of (next_err e s)) = true).
Proof.
  assert (Hf : (responses (trace_of (finalhandler e s)) <= 1)%nat
               /\ (headersSent s = true -> responses (trace_of (finalhandler e s)) = 0%nat)
               /\ (result_of (finalhandler e s) = Ok tt ->
                   headersSent (store_of (finalhandler e s)) = true)).
  { rewrite finalhandler_run.
    destruct (final_status e s) as [st|e1]; [|simpl; repeat split; auto; discriminate].
    destruct (headersSent s) eqn:Hs; simpl; repeat split; auto; discriminate. }
  assert (Ho : forall w,
             (responses (trace_of (lift (@Throw unit (OutOfModel w)) s)) <= 1)%nat
             /\ (headersSent s = true ->
                 responses (trace_of (lift (@Throw unit (OutOfModel w)) s)) = 0%nat)
             /\ (result_of (lift (@Throw unit (OutOfModel w)) s) = Ok tt ->
                 headersSent (store_of (lift (@Throw unit (OutOfModel w)) s)) = true)).
  { intros w. simpl. repeat split; auto; discriminate. }
  unfold next_err. destruct e as [l m st|m|m|n m|v|w]; try exact Hf.
  destruct (negb (truthy v)); [apply Ho|].
  destruct v; try exact Hf. destruct (_ || _); [apply Ho|exact Hf].
Qed.

Lemma serve_after_throw env req s e s1 t1 :
  handler env req s = (Throw e, s1, t1) ->
  (responses (trace_of (serve env req s))
   <= responses t1 + (if headersSent s1 then 0 else 1))%nat
  /\ (result_of (serve env req s) = Ok tt ->
      headersSent (store_of (serve env req s)) = true).
Proof.
  intros H. rewrite (serve_throw _ _ _ _ _ _ H). simpl.
  destruct (next_err_responses e s1) as (H1 & H0 & Hr).
  split; [|exact Hr]. rewrite responses_app.
  destruct (headersSent s1); [rewrite H0 by reflexivity|]; lia.
Qed.

(** Together, the handler's [res.json] and the final handler write at most
    one response for a request, whatever the hooks and plugins do; and
    when the request has ended, a response has been sent (by one of the
    two, or before, by a hook or a plugin). *)
Theorem at_most_one_response env req s :
  (responses (trace_of (serve env req s)) <= 1)%nat
  /\ (result_of (serve env req s) = Ok tt ->
      headersSent (store_of (serve env req s)) = true).
Proof.
  pose proof (obtain_result_no_response env req s) as Ho.
  destruct (obtain_result env req s) as [[[r|e] s1] t1] eqn:Eo; simpl in Ho.
  2:{ assert (Hh : handler env req s = (Throw e, s1, t1))
        by (rewrite handler_stages; apply (bind_throw _ _ _ _ _ _ Eo)).
      destruct (serve_after_throw _ _ _ _ _ _ Hh) as [H1 H2].
      split; [|exact H2]. rewrite (responses_none _ Ho) in H1.
      destruct (headersSent s1); lia. }
  assert (Hh : handler env req s =
               (result_of (after_result env req r s1), store_of (after_result env req r s1),
                t1 ++ trace_of (after_result env req r s1)))
    by (rewrite handler_stages; apply (bind_ok _ _ _ _ _ _ Eo)).
  rewrite after_result_run in Hh.
  pose proof (phase_no_response env req afterOperation
                (CRUDHooks.afterOperation (hooks_of env)) s1) as Hp.
  destruct (phase env req afterOperation (CRUDHooks.afterOperation (hooks_of env)) s1)
    as [[[[]|e] s2] t2]; simpl in Hp.
  2:{ cbv [result_of store_of trace_of fst snd] in Hh. destruct (serve_after_throw _ _ _ _ _ _ Hh) as [H1 H2].
      split; [|exact H2].
      rewrite responses_app, (responses_none _ Ho), (responses_none _ Hp) in H1.
      destruct (headersSent s2); lia. }
  destruct (headersSent s2) eqn:Hs.
  { cbv [result_of store_of trace_of fst snd] in Hh. destruct (serve_after_throw _ _ _ _ _ _ Hh) as [H1 H2].
    split; [|exact H2].
    rewrite responses_app, (responses_none _ Ho), (responses_none _ Hp), Hs in H1. lia. }
  destruct (webhookTriggerPayload env req r) as [payload|e]; cbv [result_of store_of trace_of fst snd] in Hh.
  - rewrite (serve_ok _ _ _ _ _ Hh). simpl. split; [|reflexivity].
    rewrite !responses_app, (responses_none _ Ho), (responses_none _ Hp).
    change (ResJson (statusCode s2) r
              :: map (fun w => WebhookTrigger w payload) (listeners env req))
      with ([ResJson (statusCode s2) r]
              ++ map (fun w => WebhookTrigger w payload) (listeners env req)).
    rewrite responses_app, (responses_none _ (webhooks_no_response _ _)). simpl. lia.
  - destruct (serve_after_throw _ _ _ _ _ _ Hh) as [H1 H2].
    split; [|exact H2].
    rewrite !responses_app, (responses_none _ Ho), (responses_none _ Hp) in H1.
    simpl in H1. lia.
Qed.

(** ** Where a response comes from *)

Lemma errHandler_response e s st b :
  In (ResJson st b) (trace_of (errHandler e s)) ->
  headersSent s = false /\ st = 500%nat /\ exists m, b = failure m.
Proof.
  rewrite errHandler_run.
  destruct (isPrismaErr e) as [p|e1]; [|intros []].
  destruct (headersSent s).
  { simpl. intros [H|[H|[]]]; discriminate. }
  destruct (if p then err_message e else message_or_self e) as [msg|e1]; [|intros []].
  simpl. intros [H|[H|[H|[]]]]; try discriminate.
  injection H as <- <-. eauto.
Qed.

Lemma handler_response env req s st b :
  In (ResJson st b) (trace_of (handler env req s)) ->
  exists s1 t1 s2 t2,
    obtain_result env req s = (Ok b, s1, t1)
    /\ phase env req afterOperation (CRUDHooks.afterOperation (hooks_of env)) s1
       = (Ok tt, s2, t2)
    /\ headersSent s2 = false /\ st = statusCode s2.
Proof.
  pose proof (obtain_result_no_response env req s) as Ho.
  rewrite handler_stages.
  destruct (obtain_result env req s) as [[[r|e] s1] t1] eqn:Eo; simpl in Ho.
  2:{ rewrite (bind_throw _ _ _ _ _ _ Eo). simpl. intros H.
      destruct (no_response_in _ _ _ Ho H). }
  rewrite (bind_ok_trace _ _ _ _ _ _ Eo), after_result_run.
  pose proof (phase_no_response env req afterOperation
                (CRUDHooks.afterOperation (hooks_of env)) s1) as Hp.
  destruct (phase env req afterOperation (CRUDHooks.afterOperation (hooks_of env)) s1)
    as [[[[]|e] s2] t2] eqn:Ep; simpl in Hp.
  2:{ simpl. intros H. apply in_app_or in H.
      destruct H as [H|H]; [destruct (no_response_in _ _ _ Ho H)
                           |destruct (no_response_in _ _ _ Hp H)]. }
  destruct (headersSent s2) eqn:Hs.
  { simpl. intros H. apply in_app_or in H.
    destruct H as [H|H]; [destruct (no_response_in _ _ _ Ho H)
                         |destruct (no_response_in _ _ _ Hp H)]. }
  assert (Hkey : forall rest,
             Forall (fun ev => is_answer ev = false) rest ->
             In (ResJson st b) (t1 ++ t2 ++ ResJson (statusCode s2) r :: rest) ->
             b = r /\ st = statusCode s2).
  { intros rest Hrest H. apply in_app_or in H.
    destruct H as [H|H]; [destruct (no_response_in _ _ _ Ho H)|].
    apply in_app_or in H.
    destruct H as [H|H]; [destruct (no_response_in _ _ _ Hp H)|].
    destruct H as [H|H]; [injection H as <- <-; auto|].
    destruct (no_response_in _ _ _ Hrest H). }
  destruct (webhookTriggerPayload env req r) as [payload|e]; simpl; intros H.
  - destruct (Hkey _ (webhooks_no_response _ _) H) as [-> ->].
    exists s1, t1, s2, t2. auto.
  - destruct (Hkey [] (Forall_nil _) H) as [-> ->].
    exists s1, t1, s2, t2. auto.
Qed.

Lemma serve_response env req s st b :
  In (ResJson st b) (trace_of (serve env req s)) ->
  In (ResJson st b) (trace_of (handler env req s)).
Proof.
  destruct (handler env req s) as [[[[]|e] s1] t1] eqn:Eh.
  - rewrite (serve_ok _ _ _ _ _ Eh). auto.
  - rewrite (serve_throw _ _ _ _ _ _ Eh). simpl.
    intros H. apply in_app_or in H. destruct H as [H|H]; [exact H|].
    pose proof (next_err_emits e s1) as Hn. rewrite Forall_forall in Hn.
    destruct (Hn _ H) as [st' Heq]. discriminate.
Qed.

(** ** The delegate step *)

Lemma prisma_run env m args s :
  prisma env m args s = (query env m args, s, [PrismaCall m args]).
Proof. unfold prisma, bind, emit, lift. destruct (query env m args); reflexivity. Qed.

Lemma lift_bind_run {A B} (x : Res A) (k : A -> M B) s :
  bind (lift x) k s =
  match x with
  | Ok a => k a s
  | Throw e => (Throw e, s, [])
  end.
Proof.
  unfold bind, lift. destruct x as [a|e]; [|reflexivity].
  destruct (k a s) as [[r s2] t2]. reflexivity.
Qed.

Lemma get_bind_run {B} (k : Store -> M B) s : bind get k s = k s s.
Proof. unfold bind, get. destruct (k s s) as [[r s2] t2]. reflexivity. Qed.

Lemma delegate_step_run env req s r s' t :
  delegate_step env req s = (Ok r, s', t) ->
  s' = s
  /\ ((exists m args, t = [PrismaCall m args] /\ query env m args = Ok r
                      /\ flippedCrudMapping (method req) <> None)
      \/ (flippedCrudMapping (method req) = None /\ r = JArr [] /\ t = [])).
Proof.
  assert (Hp : forall m args,
             flippedCrudMapping (method req) <> None ->
             prisma env m args s = (Ok r, s', t) ->
             s' = s
             /\ ((exists m args, t = [PrismaCall m args] /\ query env m args = Ok r
                                 /\ flippedCrudMapping (method req) <> None)
                 \/ (flippedCrudMapping (method req) = None /\ r = JArr [] /\ t = []))).
  { intros m args Hm. rewrite prisma_run. intros H. injection H as Hq <- <-.
    split; [reflexivity|]. left. eauto. }
  assert (Hk : forall k m (f : JS -> JS),
             flippedCrudMapping (method req) <> None ->
             bind (lift (get_prop (inputData s) k)) (fun w => prisma env m (f w)) s
             = (Ok r, s', t) ->
             s' = s
             /\ ((exists m args, t = [PrismaCall m args] /\ query env m args = Ok r
                                 /\ flippedCrudMapping (method req) <> None)
                 \/ (flippedCrudMapping (method req) = None /\ r = JArr [] /\ t = []))).
  { intros k m f Hm. rewrite lift_bind_run.
    destruct (get_prop (inputData s) k) as [w|e]; [|discriminate]. apply Hp. exact Hm. }
  unfold delegate_step.
  destruct (method req) eqn:Em.
  { rewrite get_bind_run, lift_bind_run.
    destruct (mapQuery (reqQuery s)) as [q|e]; [|discriminate].
    apply Hp. discriminate. }
  all: unfold persist; rewrite get_bind_run, lift_bind_run;
    destruct (get_prop (inputData s) "data") as [d|e]; try discriminate;
    rewrite lift_bind_run;
    destruct (mergeData (models env) d) as [md|e]; try discriminate.
  - destruct (isArray d); apply Hk; discriminate.
  - apply Hk; discriminate.
  - intros H; injection H as <- <- <-; split; [reflexivity|]; right; auto.
  - apply Hk; discriminate.
  - intros H; injection H as <- <- <-; split; [reflexivity|]; right; auto.
  - intros H; injection H as <- <- <-; split; [reflexivity|]; right; auto.
  - intros H; injection H as <- <- <-; split; [reflexivity|]; right; auto.
  - intros H; injection H as <- <- <-; split; [reflexivity|]; right; auto.
Qed.

Lemma before_delegate_emits env req :
  emits (fun ev => is_prisma ev = false /\ is_webhook ev = false
                   /\ is_response ev = false /\ is_log ev = false)
        (before_delegate env req).
Proof.
  assert (Hph : forall h ops,
             emits (fun ev => is_prisma ev = false /\ is_webhook ev = false
                              /\ is_response ev = false /\ is_log ev = false)
                   (phase env req h ops)).
  { intros h ops. eapply emits_weaken; [|apply phase_emits].
    intros [] [H _]; simpl in *; try discriminate; auto. }
  unfold before_delegate, before_persist.
  destruct (method req); try apply Hph;
    (apply emits_bind; [apply Hph|]; intros _;
     apply emits_bind; [apply Hph|]; intros _; apply Hph).
Qed.

(** The only value the route handler ever passes to [res.json] is
    [resultData]: every response it writes has [resultData] as its body,
    whatever the [afterOperation] hooks and plugins return or do to the
    shared objects.  (A hook or a plugin that answers the request itself
    is no call of the handler.)
    For a method of the table [resultData] is the value returned by the
    one call of the delegate; for any other method it is the empty
    list. *)
Theorem response_is_the_result env req s r s1 t1 :
  obtain_result env req s = (Ok r, s1, t1) ->
  (forall st b, In (ResJson st b) (trace_of (serve env req s)) -> b = r)
  /\ (flippedCrudMapping (method req) <> None ->
      exists m args t0, t1 = t0 ++ [PrismaCall m args] /\ query env m args = Ok r)
  /\ (flippedCrudMapping (method req) = None -> r = JArr []).
Proof.
  intros Eo. split.
  { intros st b H. apply serve_response in H.
    destruct (handler_response _ _ _ _ _ H) as (s1' & t1' & _ & _ & Eo' & _).
    rewrite Eo in Eo'. injection Eo' as -> _ _. reflexivity. }
  rewrite obtain_result_steps in Eo. unfold bind in Eo.
  destruct (before_delegate env req s) as [[[[]|e] s0] t0]; [|discriminate].
  destruct (delegate_step env req s0) as [[[r'|e] s'] t] eqn:Ed; [|discriminate].
  injection Eo as -> -> <-.
  destruct (delegate_step_run _ _ _ _ _ _ Ed) as [_ [(m & args & -> & Hq & Hm)|(Hm & -> & ->)]].
  - split; [intros _; eauto|]. intros H. contradiction.
  - split; [intros H; contradiction|auto].
Qed.

Lemma response_is_the_result_witness :
  (forall st b,
      In (ResJson st b)
         (trace_of (serve (env_after [noop]) (sample_req POST) (init_store post_body []))) ->
      b = JObj [("title", JStr "x"); ("body", JUndefined)])
  /\ (flippedCrudMapping (method (sample_req POST)) <> None ->
      exists m args t0,
        [PrismaCall Prisma.create
           (JObj [("data", JObj [("title", JStr "x"); ("body", JUndefined)]);
                  ("select", JUndefined)])]
        = t0 ++ [PrismaCall m args]
        /\ query (env_after [noop]) m args
           = Ok (JObj [("title", JStr "x"); ("body", JUndefined)]))
  /\ (flippedCrudMapping (method (sample_req POST)) = None ->
      JObj [("title", JStr "x"); ("body", JUndefined)] = JArr []).
Proof.
  exact (response_is_the_result (env_after [noop]) (sample_req POST)
           (init_store post_body []) _ _ _ eq_refl).
Defined.

(** ** The envelope of a list *)

(** When the result of the delegate is a list (the rows of a read), every
    envelope delivered for the request names the operation, the key of the
    collection and the time read from the clock, and its data are the rows
    when there is at least one and null when there is none. *)
Theorem envelope_of_rows env req s rows s1 t1 w p :
  obtain_result env req s = (Ok (JArr rows), s1, t1) ->
  In (WebhookTrigger w p) (trace_of (serve env req s)) ->
  p = {| event := flippedCrudMapping (method req);
         collection := cKey env;
         data := match rows with [] => JNull | _ => JArr rows end;
         timestamp := now req |}.
Proof.
  intros Eo Hin. pose proof (envelope_of_result _ _ _ _ _ _ _ _ Eo Hin) as Hp.
  unfold webhookTriggerPayload in Hp. simpl in Hp.
  injection Hp as <-. destruct rows; reflexivity.
Qed.

Lemma envelope_of_rows_witness :
  {| event := Some read; collection := "posts"; data := JNull;
     timestamp := "2024-01-01T00:00:00.000Z" |}
  = {| event := flippedCrudMapping (method (sample_req GET));
       collection := cKey (sample_env [] [] [] empty_db);
       data := match @nil JS with [] => JNull | _ => JArr [] end;
       timestamp := now (sample_req GET) |}.
Proof.
  apply (envelope_of_rows (sample_env [] [] [] empty_db) (sample_req GET)
           (init_store (JObj []) []) [] (init_store (JObj []) [])
           [PrismaCall Prisma.findMany (JObj [])] on_reads _ eq_refl).
  vm_compute. auto.
Defined.

(** ** A read *)

(** A read calls [findMany] with the whole normalized query, and with
    nothing else, as the query stands when the [beforeOperation] phase has
    run. *)
Theorem read_hands_over_the_normalized_query env req s s1 t1 mappedQuery :
  method req = GET ->
  phase env req beforeOperation (CRUDHooks.beforeOperation (hooks_of env)) s
  = (Ok tt, s1, t1) ->
  mapQuery (reqQuery s1) = Ok mappedQuery ->
  exists rest,
    trace_of (serve env req s)
    = t1 ++ PrismaCall Prisma.findMany (JObj mappedQuery) :: rest.
Proof.
  intros Hm Hp Hq.
  assert (Ho : obtain_result env req s =
               (query env Prisma.findMany (JObj mappedQuery), s1,
                t1 ++ [PrismaCall Prisma.findMany (JObj mappedQuery)])).
  { unfold obtain_result. rewrite Hm, (bind_ok _ _ _ _ _ _ Hp).
    rewrite get_bind_run, lift_bind_run, Hq, prisma_run. reflexivity. }
  destruct (query env Prisma.findMany (JObj mappedQuery)) as [r|e].
  - assert (Hh : trace_of (handler env req s) =
                 (t1 ++ [PrismaCall Prisma.findMany (JObj mappedQuery)])
                 ++ trace_of (after_result env req r s1))
      by (rewrite handler_stages; apply (bind_ok_trace _ _ _ _ _ _ Ho)).
    rewrite <- app_assoc in Hh. simpl in Hh.
    destruct (handler env req s) as [[[[]|e] s2] t2] eqn:Eh.
    + rewrite (serve_ok _ _ _ _ _ Eh). simpl in *. eauto.
    + rewrite (serve_throw _ _ _ _ _ _ Eh). simpl in *. rewrite Hh.
      rewrite <- app_assoc. simpl. eauto.
  - assert (Hh : handler env req s =
                 (Throw e, s1, t1 ++ [PrismaCall Prisma.findMany (JObj mappedQuery)]))
      by (rewrite handler_stages; apply (bind_throw _ _ _ _ _ _ Ho)).
    rewrite (serve_throw _ _ _ _ _ _ Hh). simpl.
    rewrite <- app_assoc. simpl. eauto.
Qed.

Lemma read_hands_over_the_normalized_query_witness :
  exists rest,
    trace_of (serve (sample_env [] [] [] sample_db) (sample_req GET)
                    (init_store (JObj []) [("take", JStr "5"); ("orderBy", JStr "id-desc")]))
    = [] ++ PrismaCall Prisma.findMany
              (JObj [("take", JNum 5); ("orderBy", JObj [("id", JStr "desc")])]) :: rest.
Proof.
  exact (read_hands_over_the_normalized_query (sample_env [] [] [] sample_db) (sample_req GET)
           (init_store (JObj []) [("take", JStr "5"); ("orderBy", JStr "id-desc")])
           (init_store (JObj []) [("take", JStr "5"); ("orderBy", JStr "id-desc")]) []
           [("take", JNum 5); ("orderBy", JObj [("id", JStr "desc")])]
           eq_refl eq_refl eq_refl).
Defined.

(** ** Refusing by throwing *)

Lemma next_err_quiet e s :
  Forall (fun ev => is_prisma ev = false /\ is_webhook ev = false
                    /\ is_response ev = false /\ is_log ev = false)
         (trace_of (next_err e s)).
Proof.
  eapply Forall_impl; [|apply next_err_emits]. intros ev [st ->]. auto.
Qed.

Lemma finalhandler_trace e s st :
  final_status e s = Ok st ->
  trace_of (finalhandler e s) = if headersSent s then [] else [ErrorPage st e].
Proof.
  intros H. rewrite finalhandler_run, H. destruct (headersSent s); reflexivity.
Qed.

(** A hook or a plugin that throws in a phase before the call of the
    delegate ends the request there: the error goes to the final handler,
    which answers with its error page unless a response has been sent;
    the delegate is not called, no webhook is triggered, [res.json] is not
    called, and neither the logger nor [console.log] is called. *)
Theorem throwing_before_the_delegate_denies env req s e s1 t1 :
  before_delegate env req s = (Throw e, s1, t1) -> passed_on e = true ->
  serve env req s =
  (result_of (finalhandler e s1), store_of (finalhandler e s1),
   t1 ++ trace_of (finalhandler e s1))
  /\ (forall st, final_status e s1 = Ok st ->
                 trace_of (serve env req s)
                 = t1 ++ (if headersSent s1 then [] else [ErrorPage st e]))
  /\ Forall (fun ev => is_prisma ev = false /\ is_webhook ev = false
                       /\ is_response ev = false /\ is_log ev = false)
            (trace_of (serve env req s)).
Proof.
  intros Hb He.
  pose proof (before_delegate_emits env req s) as Hem. rewrite Hb in Hem. simpl in Hem.
  assert (Hh : handler env req s = (Throw e, s1, t1)).
  { rewrite handler_stages.
    apply bind_throw. rewrite obtain_result_steps. apply (bind_throw _ _ _ _ _ _ Hb). }
  pose proof (next_err_quiet e s1) as Hq.
  rewrite (serve_throw _ _ _ _ _ _ Hh), (next_err_passed_on _ He) in *.
  split; [reflexivity|]. simpl. split.
  - intros st Hst. rewrite (finalhandler_trace _ _ _ Hst). reflexivity.
  - apply Forall_app. split; [exact Hem|exact Hq].
Qed.

Lemma throwing_before_the_delegate_denies_witness :
  serve (sample_env [refuse] [] [] sample_db) (sample_req POST) (init_store post_body [])
  = (Ok tt,
     set_sent (Some (500%nat, page)) (set_statusCode 500 (init_store post_body [])),
     [HookCall beforeOperation 0 ctx0 post_body] ++ [ErrorPage 500 forbidden]).
Proof.
  exact (proj1 (throwing_before_the_delegate_denies
                  (sample_env [refuse] [] [] sample_db) (sample_req POST)
                  (init_store post_body []) forbidden (init_store post_body [])
                  [HookCall beforeOperation 0 ctx0 post_body] eq_refl eq_refl)).
Defined.

(** ** After the delegate has been called *)

(** An [afterOperation] hook or plugin that throws turns a request whose
    operation has been carried out into a failure: the error goes to the
    final handler, which answers with its error page unless a response has
    been sent; [res.json] is not called, no webhook is triggered and
    neither the logger nor [console.log] is called. *)
Theorem throwing_after_the_delegate env req s r s1 t1 e s2 t2 :
  obtain_result env req s = (Ok r, s1, t1) ->
  phase env req afterOperation (CRUDHooks.afterOperation (hooks_of env)) s1
  = (Throw e, s2, t2) ->
  passed_on e = true ->
  serve env req s =
  (result_of (finalhandler e s2), store_of (finalhandler e s2),
   t1 ++ t2 ++ trace_of (finalhandler e s2))
  /\ (forall st, final_status e s2 = Ok st ->
                 trace_of (serve env req s)
                 = t1 ++ t2 ++ (if headersSent s2 then [] else [ErrorPage st e]))
  /\ Forall (fun ev => is_webhook ev = false /\ is_response ev = false
                       /\ is_log ev = false)
            (trace_of (serve env req s)).
Proof.
  intros Eo Ep He.
  pose proof (obtain_result_quiet env req s) as Ho. rewrite Eo in Ho. simpl in Ho.
  pose proof (phase_emits env req afterOperation
                (CRUDHooks.afterOperation (hooks_of env)) s1) as Hp.
  rewrite Ep in Hp. simpl in Hp.
  assert (Hh : handler env req s = (Throw e, s2, t1 ++ t2)).
  { rewrite handler_stages, (bind_ok _ _ _ _ _ _ Eo), after_result_run, Ep. reflexivity. }
  pose proof (next_err_quiet e s2) as Hq.
  rewrite (serve_throw _ _ _ _ _ _ Hh), (next_err_passed_on _ He), <- app_assoc in *.
  split; [reflexivity|]. simpl. split.
  - intros st Hst. rewrite (finalhandler_trace _ _ _ Hst). reflexivity.
  - repeat (apply Forall_app; split).
    + eapply Forall_impl; [|exact Ho].
      intros [] (H1 & H2 & H3); simpl in *; try discriminate; auto.
    + eapply Forall_impl; [|exact Hp].
      intros [] [H _]; simpl in *; try discriminate; auto.
    + eapply Forall_impl; [|exact Hq]. intros ev (_ & H1 & H2 & H3). auto.
Qed.

Lemma throwing_after_the_delegate_witness :
  serve (env_after [refuse]) (sample_req POST) (init_store post_body [])
  = (Ok tt,
     set_sent (Some (500%nat, page))
              (set_statusCode 500
                 (set_ctx (with_currentHook afterOperation ctx0) (init_store post_body []))),
     [PrismaCall Prisma.create
        (JObj [("data", JObj [("title", JStr "x"); ("body", JUndefined)]);
               ("select", JUndefined)])]
     ++ [HookCall afterOperation 0 (with_currentHook afterOperation ctx0) post_body]
     ++ [ErrorPage 500 forbidden]).
Proof.
  exact (proj1 (throwing_after_the_delegate
                  (env_after [refuse]) (sample_req POST) (init_store post_body [])
                  _ _ _ forbidden _ _ eq_refl eq_refl eq_refl)).
Defined.

(** When a hook or a plugin has already answered the request by the end
    of the [afterOperation] phase, the handler's [res.json] fails, nothing
    more is written to the response, and no webhook is triggered although
    the operation has been carried out. *)
Theorem answered_by_a_hook env req s r s1 t1 s2 t2 :
  obtain_result env req s = (Ok r, s1, t1) ->
  phase env req afterOperation (CRUDHooks.afterOperation (hooks_of env)) s1
  = (Ok tt, s2, t2) ->
  headersSent s2 = true ->
  handler env req s = (Throw headers_sent, s2, t1 ++ t2)
  /\ serve env req s = (Ok tt, s2, t1 ++ t2)
  /\ Forall (fun ev => is_webhook ev = false /\ is_answer ev = false)
            (trace_of (serve env req s)).
Proof.
  intros Eo Ep Hs.
  pose proof (obtain_result_quiet env req s) as Ho. rewrite Eo in Ho. simpl in Ho.
  pose proof (phase_emits env req afterOperation
                (CRUDHooks.afterOperation (hooks_of env)) s1) as Hp.
  rewrite Ep in Hp. simpl in Hp.
  assert (Hh : handler env req s = (Throw headers_sent, s2, t1 ++ t2)).
  { rewrite handler_stages, (bind_ok _ _ _ _ _ _ Eo), after_result_run, Ep, Hs.
    reflexivity. }
  assert (Hsv : serve env req s = (Ok tt, s2, t1 ++ t2)).
  { rewrite (serve_throw _ _ _ _ _ _ Hh).
    change (next_err headers_sent s2) with (finalhandler headers_sent s2).
    rewrite finalhandler_run. unfold final_status. simpl. rewrite Hs. simpl.
    rewrite app_nil_r. reflexivity. }
  split; [exact Hh|]. split; [exact Hsv|]. rewrite Hsv. simpl.
  apply Forall_app. split.
  - eapply Forall_impl; [|exact Ho]. intros ev (H1 & H2 & _). auto.
  - eapply Forall_impl; [|exact Hp].
    intros [] [H _]; simpl in *; try discriminate; auto.
Qed.

Lemma answered_by_a_hook_witness :
  serve (env_after [answer]) (sample_req POST) (init_store post_body [])
  = (Ok tt,
     set_sent (Some (204%nat, JNull))
              (set_ctx (with_currentHook afterOperation ctx0) (init_store post_body [])),
     [PrismaCall Prisma.create
        (JObj [("data", JObj [("title", JStr "x"); ("body", JUndefined)]);
               ("select", JUndefined)])]
     ++ [HookCall afterOperation 0 (with_currentHook afterOperation ctx0) post_body]).
Proof.
  exact (proj1 (proj2 (answered_by_a_hook (env_after [answer]) (sample_req POST)
                         (init_store post_body []) _ _ _ _ _ eq_refl eq_refl eq_refl))).
Defined.

(** ** The status of a response *)

Lemma preserves_bind {A B} (m : M A) (k : A -> M B) :
  preserves_status m -> (forall a, preserves_status (k a)) -> preserves_status (bind m k).
Proof.
  intros Hm Hk s. specialize (Hm s). unfold bind.
  destruct (m s) as [[[a|e] s1] t1]; [|exact Hm].
  specialize (Hk a s1). destruct (k a s1) as [[r s2] t2].
  unfold store_of in *. simpl in *. congruence.
Qed.

Lemma preserves_ret {A} (a : A) : preserves_status (ret a).
Proof. intros s. reflexivity. Qed.

Lemma preserves_lift {A} (r : Res A) : preserves_status (lift r).
Proof. intros s. reflexivity. Qed.

Lemma preserves_get : preserves_status get.
Proof. intros s. reflexivity. Qed.

Lemma preserves_emit e : preserves_status (emit e).
Proof. intros s. reflexivity. Qed.

Lemma preserves_call {A} (f : Store -> Res A * Store) :
  keeps_status f -> preserves_status (call f).
Proof.
  intros H s. specialize (H s). unfold call.
  destruct (f s) as [[a|e] s']; exact H.
Qed.

Lemma preserves_prisma env m args : preserves_status (prisma env m args).
Proof. intros s. rewrite prisma_run. reflexivity. Qed.

Lemma preserves_run_plugins req h ps :
  (forall p, In p ps -> keeps_status (fn p req)) -> preserves_status (run_plugins req h ps).
Proof.
  unfold run_plugins. induction ps as [|p ps IH]; intros H; simpl.
  - apply preserves_ret.
  - apply preserves_bind.
    + apply preserves_bind; [apply preserves_emit|]. intros _.
      apply preserves_call. apply H. left. reflexivity.
    + intros _. apply IH. intros q Hq. apply H. right. exact Hq.
Qed.

Lemma preserves_run_hooks req h ops : forall i,
  (forall op, In op ops -> keeps_status (op req)) -> preserves_status (run_hooks req h i ops).
Proof.
  induction ops as [|op ops IH]; intros i H; simpl.
  - apply preserves_ret.
  - apply preserves_bind; [apply preserves_get|]. intros s.
    apply preserves_bind; [apply preserves_emit|]. intros _.
    apply preserves_bind; [apply preserves_call; apply H; left; reflexivity|]. intros _.
    apply IH. intros q Hq. apply H. right. exact Hq.
Qed.

Lemma preserves_phase env req h ops :
  (forall p, In p (activePlugins env) -> keeps_status (fn p req)) ->
  (forall op, In op (or_empty ops) -> keeps_status (op req)) ->
  preserves_status (phase env req h ops).
Proof.
  intros Hp Ho. unfold phase.
  apply preserves_bind; [intros s; reflexivity|]. intros _.
  apply preserves_bind; [apply preserves_run_plugins; exact Hp|]. intros _.
  apply preserves_run_hooks. exact Ho.
Qed.

Lemma preserves_persist env m : preserves_status (persist env m).
Proof.
  unfold persist.
  apply preserves_bind; [apply preserves_get|]. intros s.
  apply preserves_bind; [apply preserves_lift|]. intros d.
  apply preserves_bind; [apply preserves_lift|]. intros md.
  destruct m; try apply preserves_ret; try destruct (isArray d);
    (apply preserves_bind; [apply preserves_lift|]; intros ?; apply preserves_prisma).
Qed.

Lemma preserves_obtain_result env req :
  status_untouched env req -> preserves_status (obtain_result env req).
Proof.
  intros [Hp Ho].
  assert (Hph : forall h ops,
             (forall op, In op (or_empty ops) -> In op (all_hooks env)) ->
             preserves_status (phase env req h ops)).
  { intros h ops Hin. apply preserves_phase; [exact Hp|].
    intros op Hop. apply Ho. apply Hin. exact Hop. }
  assert (H1 : preserves_status
                 (phase env req beforeOperation (CRUDHooks.beforeOperation (hooks_of env)))).
  { apply Hph. intros op H. unfold all_hooks. apply in_or_app. auto. }
  assert (H2 : preserves_status
                 (phase env req validateInput (CRUDHooks.validateInput (hooks_of env)))).
  { apply Hph. intros op H. unfold all_hooks.
    apply in_or_app. right. apply in_or_app. auto. }
  assert (H3 : preserves_status
                 (phase env req modifyInput (CRUDHooks.modifyInput (hooks_of env)))).
  { apply Hph. intros op H. unfold all_hooks.
    apply in_or_app. right. apply in_or_app. right. apply in_or_app. auto. }
  unfold obtain_result. apply preserves_bind; [exact H1|]. intros _.
  destruct (method req);
    try (apply preserves_bind; [exact H2|]; intros _;
         apply preserves_bind; [exact H3|]; intros _; apply preserves_persist).
  apply preserves_bind; [apply preserves_get|]. intros s.
  apply preserves_bind; [apply preserves_lift|]. intros q. apply preserves_prisma.
Qed.

Lemma preserves_res_json body : preserves_status (res_json body).
Proof. intros s. unfold res_json. destruct (headersSent s); reflexivity. Qed.

Lemma preserves_fan_out env req payload : preserves_status (fan_out env req payload).
Proof. intros s. rewrite fan_out_run. reflexivity. Qed.

Lemma preserves_after_phase env req :
  status_untouched env req ->
  preserves_status (phase env req afterOperation (CRUDHooks.afterOperation (hooks_of env))).
Proof.
  intros [Hp Ho]. apply preserves_phase; [exact Hp|]. intros op Hop. apply Ho.
  unfold all_hooks.
  apply in_or_app. right. apply in_or_app. right. apply in_or_app. auto.
Qed.

Lemma preserves_handler env req :
  status_untouched env req -> preserves_status (handler env req).
Proof.
  intros Hu. unfold handler.
  pose proof (preserves_obtain_result env req Hu) as Ho. unfold obtain_result in Ho.
  intros s. rewrite <- bind_assoc. revert s.
  apply preserves_bind; [exact Ho|]. intros r.
  apply preserves_bind; [apply preserves_after_phase; exact Hu|]. intros _.
  apply preserves_bind; [apply preserves_res_json|]. intros _.
  apply preserves_bind; [apply preserves_lift|]. intros p. apply preserves_fan_out.
Qed.

Lemma final_status_of_status e s s' :
  statusCode s = statusCode s' -> final_status e s = final_status e s'.
Proof.
  intros H. unfold final_status, getResponseStatusCode. rewrite H. reflexivity.
Qed.

(** When no hook and no plugin assigns [res.statusCode]: every response
    written by [res.json] has the status the response started with (the
    handler sets none), and every error page has the status the final
    handler derives from the error and from that initial status: the
    error's own status when it carries one from 400 to 599, otherwise the
    initial status when that is from 400 to 599, otherwise 500. *)
Theorem status_of_every_answer env req s :
  status_untouched env req ->
  (forall st b, In (ResJson st b) (trace_of (serve env req s)) -> st = statusCode s)
  /\ (forall st e, In (ErrorPage st e) (trace_of (serve env req s)) ->
                   final_status e s = Ok st).
Proof.
  intros Hu. split.
  - intros st b H. apply serve_response in H.
    destruct (handler_response _ _ _ _ _ H) as (s1 & t1 & s2 & t2 & Eo & Ep & _ & ->).
    pose proof (preserves_obtain_result env req Hu s) as H1. rewrite Eo in H1.
    pose proof (preserves_after_phase env req Hu s1) as H2. rewrite Ep in H2.
    unfold store_of in *. simpl in *. congruence.
  - intros st e H.
    assert (Hq : emits (fun ev => is_answer ev = false \/ is_response ev = true)
                       (handler env req)).
    { apply handler_emits; try (intros; simpl; auto).
      eapply emits_weaken; [|apply phase_emits].
      intros [] [Hh _]; simpl in *; try discriminate; auto. }
    specialize (Hq s). pose proof (preserves_handler env req Hu s) as Hs.
    destruct (handler env req s) as [[[[]|e'] s1] t1] eqn:Eh.
    + rewrite (serve_ok _ _ _ _ _ Eh) in H. simpl in *.
      rewrite Forall_forall in Hq. destruct (Hq _ H); discriminate.
    + rewrite (serve_throw _ _ _ _ _ _ Eh) in H. simpl in *.
      apply in_app_or in H. destruct H as [H|H].
      { rewrite Forall_forall in Hq. destruct (Hq _ H); discriminate. }
      unfold store_of in Hs. simpl in Hs.
      rewrite <- (final_status_of_status e s1 s Hs).
      assert (Hf : forall x, In (ErrorPage st e) (trace_of (finalhandler x s1)) ->
                             final_status e s1 = Ok st).
      { intros x. rewrite finalhandler_run.
        destruct (final_status x s1) as [c|e1] eqn:Ef; [|intros []].
        destruct (headersSent s1); [intros []|].
        simpl. intros [Heq|[]]. injection Heq as <- <-. exact Ef. }
      unfold next_err in H. destruct e' as [l m c|m|m|n m|v|w];
        try (apply (Hf _ H)); try destruct H.
      destruct (negb (truthy v)); [destruct H|].
      destruct v; try (apply (Hf _ H)).
      destruct (_ || _); [destruct H|apply (Hf _ H)].
Qed.

Lemma status_of_every_answer_witness :
  (forall st b,
      In (ResJson st b)
         (trace_of (serve (sample_env [deny] [] [flag_plugin] sample_db) (sample_req GET)
                          (init_store (JObj []) [("where", JStr "{bad")]))) ->
      st = statusCode (init_store (JObj []) [("where", JStr "{bad")]))
  /\ (forall st e,
        In (ErrorPage st e)
           (trace_of (serve (sample_env [deny] [] [flag_plugin] sample_db) (sample_req GET)
                            (init_store (JObj []) [("where", JStr "{bad")]))) ->
        final_status e (init_store (JObj []) [("where", JStr "{bad")]) = Ok st).
Proof.
  apply (status_of_every_answer
           (sample_env [deny] [] [flag_plugin] sample_db) (sample_req GET)
           (init_store (JObj []) [("where", JStr "{bad")])).
  split.
  - intros p [<-|[]] s. reflexivity.
  - intros op H s. unfold all_hooks in H. simpl in H.
    destruct H as [<-|[<-|[]]]; reflexivity.
Defined.

(** * More about the error middleware *)

Lemma errHandler_responses e s :
  (responses (trace_of (errHandler e s)) <= 1)%nat
  /\ (headersSent s = true -> responses (trace_of (errHandler e s)) = 0%nat)
  /\ (result_of (errHandler e s) = Ok tt ->
      headersSent (store_of (errHandler e s)) = true).
Proof.
  rewrite errHandler_run.
  destruct (isPrismaErr e) as [b|e1]; [|simpl; repeat split; auto; discriminate].
  destruct (headersSent s) eqn:Hs; [simpl; auto|].
  destruct (if b then err_message e else message_or_self e) as [msg|e1]; simpl.
  - repeat split; auto. discriminate.
  - repeat split; auto; discriminate.
Qed.

(** Whatever it is given, [errHandler] writes a response only when none
    has been sent, at most one, always with status 500 and the body
    [{success: false, message}]: a status carried by the error is never
    used.  When it returns, the last two things it has done are the call
    of the logger and of [console.log], in this order, with the error. *)
Theorem errHandler_answers_500 err s :
  (forall st b, In (ResJson st b) (trace_of (errHandler err s)) ->
                headersSent s = false /\ st = 500%nat /\ exists m, b = failure m)
  /\ (responses (trace_of (errHandler err s)) <= 1)%nat
  /\ (result_of (errHandler err s) = Ok tt ->
      exists pre,
        trace_of (errHandler err s) = pre ++ [LoggerCall err; ConsoleLog err]
        /\ (pre = [] \/ exists m, pre = [ResJson 500 (failure m)])).
Proof.
  split; [intros st b; apply errHandler_response|].
  split; [apply errHandler_responses|].
  rewrite errHandler_run.
  destruct (isPrismaErr err) as [p|e]; [|discriminate].
  destruct (headersSent s).
  { intros _. exists []. auto. }
  destruct (if p then err_message err else message_or_self err) as [msg|e]; [|discriminate].
  intros _. exists [ResJson 500 (failure msg)]. split; [reflexivity|]. right. eauto.
Qed.

(** A thrown value that is not an [Error] (a string, a number, a list, a
    plain object) is answered with that value itself as the message. *)
Theorem errHandler_on_thrown_value v s :
  plain_thrown v = true -> headersSent s = false ->
  errHandler (Thrown v) s =
  (Ok tt, set_sent (Some (500%nat, failure v)) (set_statusCode 500 s),
   [ResJson 500 (failure v); LoggerCall (Thrown v); ConsoleLog (Thrown v)]).
Proof.
  intros Hv Hs. rewrite errHandler_run, Hs.
  assert (Hp : isPrismaErr (Thrown v) = Ok false).
  { unfold isPrismaErr, constructor_name.
    destruct v as [| |b|z|lit|str|items|ps]; try discriminate; try reflexivity.
    simpl in Hv. unfold has_own in Hv.
    destruct (lookup "constructor" ps); [discriminate|reflexivity]. }
  rewrite Hp. reflexivity.
Qed.

Lemma errHandler_on_thrown_value_witness :
  errHandler (Thrown (JObj [("code", JNum 7)])) (init_store (JObj []) []) =
  (Ok tt,
   set_sent (Some (500%nat, failure (JObj [("code", JNum 7)])))
            (set_statusCode 500 (init_store (JObj []) [])),
   [ResJson 500 (failure (JObj [("code", JNum 7)]));
    LoggerCall (Thrown (JObj [("code", JNum 7)]));
    ConsoleLog (Thrown (JObj [("code", JNum 7)]))]).
Proof. apply errHandler_on_thrown_value; reflexivity. Defined.

(** * The entry point *)

(** ** Own properties after [define] and a spread *)

Section ObjectFacts.
Context {V : Type}.
Implicit Types (ps : list (string * V)) (k : string) (v : V).

Lemma own_app k ps qs :
  own k (ps ++ qs) = match own k ps with Some v => Some v | None => own k qs end.
Proof.
  induction ps as [|[k' v'] ps IH]; simpl; [reflexivity|].
  destruct (String.eqb k' k); [reflexivity|exact IH].
Qed.

Lemma own_none k ps : own k ps = None <-> ~ In k (map fst ps).
Proof.
  induction ps as [|[k1 v1] ps IH]; simpl; [tauto|].
  destruct (String.eqb k1 k) eqn:E.
  - apply String.eqb_eq in E. split; [discriminate|tauto].
  - apply String.eqb_neq in E. tauto.
Qed.

Lemma own_in k v ps : NoDup (map fst ps) -> (In (k, v) ps <-> own k ps = Some v).
Proof.
  induction ps as [|[k1 v1] ps IH]; simpl; intros Hnd.
  - split; [tauto|discriminate].
  - inversion Hnd as [|? ? Hnotin Hnd']; subst.
    destruct (String.eqb k1 k) eqn:E.
    + apply String.eqb_eq in E. subst k1. split.
      * intros [H|H]; [injection H as ->; reflexivity|].
        exfalso. apply Hnotin. apply (in_map fst) in H. exact H.
      * intros H. injection H as ->. auto.
    + apply String.eqb_neq in E. rewrite <- (IH Hnd'). split.
      * intros [H|H]; [injection H as -> _; contradiction|exact H].
      * auto.
Qed.

Lemma own_redefine k k' v ps :
  own k' (redefine k v ps) =
  if String.eqb k k' then match own k ps with Some _ => Some v | None => None end
  else own k' ps.
Proof.
  induction ps as [|[k1 v1] ps IH]; simpl.
  - destruct (String.eqb k k'); reflexivity.
  - destruct (String.eqb k1 k) eqn:E1; simpl.
    + apply String.eqb_eq in E1. subst k1.
      destruct (String.eqb k k'); reflexivity.
    + destruct (String.eqb k1 k') eqn:E2.
      * destruct (String.eqb k k') eqn:E3; [|reflexivity].
        apply String.eqb_eq in E2, E3. subst.
        rewrite String.eqb_refl in E1. discriminate.
      * exact IH.
Qed.

Lemma own_define_index i k k' v ps :
  own k ps = None ->
  own k' (define_index i k v ps) = if String.eqb k k' then Some v else own k' ps.
Proof.
  induction ps as [|[k1 v1] ps IH]; simpl; intros Hk.
  - destruct (String.eqb k k'); reflexivity.
  - destruct (String.eqb k1 k) eqn:E1; [discriminate|].
    assert (Hhead : own k' ((k, v) :: (k1, v1) :: ps) =
                    if String.eqb k k' then Some v else own k' ((k1, v1) :: ps))
      by reflexivity.
    destruct (array_index k1) as [j|]; [|exact Hhead].
    destruct (j <? i); [|exact Hhead].
    simpl. destruct (String.eqb k1 k') eqn:E2.
    + destruct (String.eqb k k') eqn:E3; [|reflexivity].
      apply String.eqb_eq in E2, E3. subst.
      rewrite String.eqb_refl in E1. discriminate.
    + apply IH. exact Hk.
Qed.

Lemma own_define k k' v ps :
  own k' (define k v ps) = if String.eqb k k' then Some v else own k' ps.
Proof.
  unfold define. destruct (own k ps) as [x|] eqn:E.
  - rewrite own_redefine, E. reflexivity.
  - destruct (array_index k) as [i|].
    + apply own_define_index. exact E.
    + rewrite own_app. simpl.
      destruct (String.eqb k k') eqn:E1.
      * apply String.eqb_eq in E1. subst. rewrite E. reflexivity.
      * destruct (own k' ps); reflexivity.
Qed.

Lemma own_spread k (src : list (string * V)) : forall target : list (string * V),
  NoDup (map fst src) ->
  own k (spread target src) =
  match own k src with Some v => Some v | None => own k target end.
Proof.
  unfold spread.
  induction src as [|[k1 v1] src IH]; intros target Hnd; simpl; [reflexivity|].
  inversion Hnd as [|? ? Hnotin Hnd']; subst.
  rewrite (IH _ Hnd'), own_define.
  destruct (String.eqb k1 k) eqn:E; [|reflexivity].
  apply String.eqb_eq in E. subst k1.
  apply own_none in Hnotin. rewrite Hnotin. reflexivity.
Qed.

(** ** The keys of an object stay distinct *)

Lemma keys_redefine k v ps : map fst (redefine k v ps) = map fst ps.
Proof.
  induction ps as [|[k1 v1] ps IH]; simpl; [reflexivity|].
  destruct (String.eqb k1 k); simpl; [reflexivity|]. rewrite IH. reflexivity.
Qed.

Lemma keys_define_index i k v ps x :
  In x (map fst (define_index i k v ps)) <-> x = k \/ In x (map fst ps).
Proof.
  induction ps as [|[k1 v1] ps IH]; simpl; [intuition congruence|].
  destruct (array_index k1) as [j|]; [|simpl; intuition congruence].
  destruct (j <? i); simpl; [|intuition congruence].
  rewrite IH. intuition congruence.
Qed.

Lemma nodup_define_index i k v ps :
  ~ In k (map fst ps) -> NoDup (map fst ps) -> NoDup (map fst (define_index i k v ps)).
Proof.
  induction ps as [|[k1 v1] ps IH]; simpl; intros Hk Hnd.
  - repeat constructor. intros [].
  - inversion Hnd as [|? ? Hnotin Hnd']; subst.
    assert (Hhead : NoDup (k :: k1 :: map fst ps)) by (constructor; assumption).
    destruct (array_index k1) as [j|]; [|exact Hhead].
    destruct (j <? i); [|exact Hhead].
    simpl. constructor.
    + rewrite keys_define_index. intros [->|H]; tauto.
    + apply IH; tauto.
Qed.

Lemma nodup_define k v ps : NoDup (map fst ps) -> NoDup (map fst (define k v ps)).
Proof.
  intros Hnd. unfold define. destruct (own k ps) as [x|] eqn:E.
  - rewrite keys_redefine. exact Hnd.
  - apply own_none in E. destruct (array_index k) as [i|].
    + apply nodup_define_index; assumption.
    + rewrite map_app. simpl. apply NoDup_app; [exact Hnd|repeat constructor; intros []|].
      intros x Hx [<-|[]]. contradiction.
Qed.

Lemma nodup_spread (src : list (string * V)) : forall target : list (string * V),
  NoDup (map fst target) -> NoDup (map fst (spread target src)).
Proof.
  unfold spread. induction src as [|[k1 v1] src IH]; intros target Hnd; simpl; [exact Hnd|].
  apply IH. apply nodup_define. exact Hnd.
Qed.

End ObjectFacts.

(** ** The registry and its routes *)

Lemma define_nil {V} k (v : V) : define k v [] = [(k, v)].
Proof. unfold define. simpl. destruct (array_index k); reflexivity. Qed.

Lemma own_registry collections session users k :
  NoDup (map fst (or_empty collections)) ->
  own k (defaultAndCustomCollections collections session users) =
  if String.eqb (usersKey session) k then Some users else own k (or_empty collections).
Proof.
  intros Hnd. unfold defaultAndCustomCollections, usersCollection.
  rewrite define_nil, own_spread by (repeat constructor; intros []).
  simpl. destruct (String.eqb (usersKey session) k); [reflexivity|].
  rewrite own_spread by exact Hnd. destruct (own k (or_empty collections)); reflexivity.
Qed.

Lemma nodup_registry collections session users :
  NoDup (map fst (defaultAndCustomCollections collections session users)).
Proof.
  unfold defaultAndCustomCollections. apply nodup_spread, nodup_spread. constructor.
Qed.

(** The entry point registers one route per key of the registry.  The key
    [session.slug] (["users"] without session or slug, and for the empty
    slug) always serves the built-in users collection, whatever the
    configuration declares under that key; every other declared collection
    is served as declared; nothing else is served; and the collections
    [GET /] lists are the paths of these routes. *)
Theorem routes_of_the_registry o :
  NoDup (map fst (or_empty (Options.collections o))) ->
  NoDup (map cKey (collection_routes o))
  /\ (forall k c,
        (exists env, In env (collection_routes o) /\ cKey env = k /\ cValue env = c)
        <-> (if String.eqb (usersKey (Options.session o)) k then c = Options.users o
             else own k (or_empty (Options.collections o)) = Some c))
  /\ index_collections (defaultAndCustomCollections (Options.collections o)
                          (Options.session o) (Options.users o))
     = map (fun env => "/" ++ cKey env)%string (collection_routes o).
Proof.
  intros Hnd.
  pose proof (nodup_registry (Options.collections o) (Options.session o) (Options.users o))
    as Hreg.
  assert (Hkeys : map cKey (collection_routes o)
                  = map fst (defaultAndCustomCollections (Options.collections o)
                               (Options.session o) (Options.users o))).
  { unfold collection_routes. rewrite map_map. reflexivity. }
  split; [rewrite Hkeys; exact Hreg|].
  split; [|unfold index_collections, collection_routes; rewrite !map_map; reflexivity].
  intros k c.
  assert (Hin : (exists env, In env (collection_routes o) /\ cKey env = k /\ cValue env = c)
                <-> In (k, c) (defaultAndCustomCollections (Options.collections o)
                                 (Options.session o) (Options.users o))).
  { unfold collection_routes. split.
    - intros (env & H & <- & <-). apply in_map_iff in H.
      destruct H as ([k' c'] & <- & H). exact H.
    - intros H. eexists. split; [apply in_map_iff; eexists; split; [reflexivity|exact H]|].
      split; reflexivity. }
  rewrite Hin, (own_in _ _ _ Hreg), (own_registry _ _ _ _ Hnd).
  destruct (String.eqb (usersKey (Options.session o)) k); [|reflexivity].
  split; [intros H; injection H as <-; reflexivity|intros ->; reflexivity].
Qed.

Lemma routes_of_the_registry_witness :
  NoDup (map cKey (collection_routes sample_options))
  /\ (forall k c,
        (exists env, In env (collection_routes sample_options)
                     /\ cKey env = k /\ cValue env = c)
        <-> (if String.eqb (usersKey (Options.session sample_options)) k
             then c = Options.users sample_options
             else own k (or_empty (Options.collections sample_options)) = Some c))
  /\ index_collections (defaultAndCustomCollections (Options.collections sample_options)
                          (Options.session sample_options) (Options.users sample_options))
     = map (fun env => "/" ++ cKey env)%string (collection_routes sample_options).
Proof.
  apply routes_of_the_registry. simpl.
  repeat constructor; simpl; intuition discriminate.
Defined.

(** ** Decimal indices *)

Lemma digits_val_acc_app l1 : forall a l2,
  digits_val_acc a (l1 ++ l2) = digits_val_acc (digits_val_acc a l1) l2.
Proof. induction l1 as [|c l1 IH]; intros a l2; simpl; [reflexivity|apply IH]. Qed.

Lemma single_digit z acc :
  0 <= z < 10 ->
  codes (String (ascii_of_nat (48 + Z.to_nat (z mod 10))) acc)
  = [Z.to_N (48 + z)] ++ codes acc
  /\ canonical z [Z.to_N (48 + z)].
Proof.
  intros Hz. rewrite Z.mod_small by exact Hz. split.
  - unfold codes. cbn [list_ascii_of_string map app]. f_equal.
    unfold ascii_of_nat. rewrite N_ascii_embedding; lia.
  - unfold canonical. repeat split.
    + cbn [forallb]. unfold is_digit.
      rewrite andb_true_r. apply andb_true_iff. rewrite !N.leb_le. lia.
    + unfold digits_val. cbn [digits_val_acc]. unfold digit_val. lia.
    + destruct (Z.eq_dec z 0) as [->|Hne]; [right; auto|]. left. lia.
    + intros k Hk _. simpl. lia.
Qed.

Lemma pos_digits_S f z acc :
  pos_digits (S f) z acc =
  if z <? 10 then String (ascii_of_nat (48 + Z.to_nat (z mod 10))) acc
  else pos_digits f (z / 10) (String (ascii_of_nat (48 + Z.to_nat (z mod 10))) acc).
Proof. reflexivity. Qed.

Lemma pos_digits_canonical : forall f z acc,
  0 <= z < 10 ^ Z.of_nat (S f) ->
  exists ds, codes (pos_digits (S f) z acc) = ds ++ codes acc /\ canonical z ds.
Proof.
  induction f as [|f IH]; intros z acc Hz.
  - assert (Hz' : 0 <= z < 10) by (change (10 ^ Z.of_nat 1) with 10 in Hz; exact Hz).
    rewrite pos_digits_S. assert (E : (z <? 10) = true) by (apply Z.ltb_lt; lia).
    rewrite E. exists [Z.to_N (48 + z)]. apply single_digit. exact Hz'.
  - rewrite pos_digits_S. destruct (z <? 10) eqn:E.
    { apply Z.ltb_lt in E. exists [Z.to_N (48 + z)]. apply single_digit. lia. }
    apply Z.ltb_ge in E.
    assert (Hq : 0 <= z / 10 < 10 ^ Z.of_nat (S f)).
    { split; [apply Z.div_pos; lia|].
      apply Z.div_lt_upper_bound; [lia|].
      rewrite (Nat2Z.inj_succ (S f)), Z.pow_succ_r in Hz by lia. lia. }
    destruct (IH (z / 10) (String (ascii_of_nat (48 + Z.to_nat (z mod 10))) acc) Hq)
      as (ds & Hc & Hf & Hv & Hh & Hl).
    assert (Hm : 0 <= z mod 10 < 10) by (apply Z.mod_pos_bound; lia).
    destruct (single_digit (z mod 10) acc Hm) as [Hd (Hdf & Hdv & _ & _)].
    rewrite Z.mod_mod in Hd by lia.
    exists (ds ++ [Z.to_N (48 + z mod 10)]). split.
    { rewrite Hc, Hd, app_assoc. reflexivity. }
    unfold canonical. repeat split.
    + rewrite forallb_app, Hf, Hdf. reflexivity.
    + unfold digits_val in *. rewrite digits_val_acc_app, Hv.
      cbn [digits_val_acc]. unfold digit_val.
      pose proof (Z.div_mod z 10). lia.
    + destruct ds as [|c rest]; [contradiction|]. simpl.
      destruct Hh as [Hh|[Hh _]]; [left; exact Hh|].
      exfalso. assert (1 <= z / 10) by (apply Z.div_le_lower_bound; lia). lia.
    + intros k Hk Hzk. rewrite length_app. simpl.
      destruct k as [|[|k]]; [lia| |].
      { change (10 ^ Z.of_nat 1) with 10 in Hzk. lia. }
      assert (List.length ds <= S k)%nat; [|lia].
      apply Hl; [lia|].
      apply Z.div_lt_upper_bound; [lia|].
      rewrite (Nat2Z.inj_succ (S k)), Z.pow_succ_r in Hzk by lia. lia.
Qed.

(** Reading back the key under which an array holds its element [z]. *)
Lemma array_index_string_of_Z z :
  0 <= z < 4294967295 -> array_index (string_of_Z z) = Some z.
Proof.
  intros Hz. unfold string_of_Z.
  assert (E : (z <? 0) = false) by (apply Z.ltb_ge; lia). rewrite E.
  assert (H20 : 10 ^ Z.of_nat 20 = 100000000000000000000) by reflexivity.
  destruct (pos_digits_canonical 19 z EmptyString) as (ds & Hc & Hf & Hv & Hh & Hl);
    [lia|].
  change (codes "") with (@nil N) in Hc. rewrite app_nil_r in Hc.
  unfold array_index. rewrite Hc.
  destruct ds as [|c rest]; [contradiction|].
  rewrite Hf, Hv.
  assert (H1 : (negb (c =? 48)%N || match rest with [] => true | _ => false end) = true).
  { destruct Hh as [Hh|[_ ->]]; [|apply orb_true_r].
    apply N.eqb_neq in Hh. rewrite Hh. reflexivity. }
  assert (H2 : (List.length (c :: rest) <=? 10)%nat = true).
  { apply Nat.leb_le. apply Hl; [lia|].
    assert (H10 : 10 ^ Z.of_nat 10 = 10000000000) by reflexivity. lia. }
  assert (H3 : (z <? 4294967295) = true) by (apply Z.ltb_lt; lia).
  rewrite H1, H2, H3. reflexivity.
Qed.

Lemma key_neq i j :
  0 <= i < 4294967295 -> 0 <= j < 4294967295 -> i <> j ->
  String.eqb (string_of_Z i) (string_of_Z j) = false.
Proof.
  intros Hi Hj Hne. apply String.eqb_neq. intros H.
  apply (f_equal array_index) in H.
  rewrite !array_index_string_of_Z in H by assumption. congruence.
Qed.

(** ** Arrays as objects *)

Section ArrayFacts.
Context {V : Type}.
Implicit Types (l done tail rest : list V) (x y : V).

Lemma elements_app l : forall i l2,
  elements i (l ++ l2) = elements i l ++ elements (i + Z.of_nat (List.length l)) l2.
Proof.
  induction l as [|a l IH]; intros i l2.
  - simpl. rewrite Z.add_0_r. reflexivity.
  - cbn [app elements List.length]. rewrite IH. do 3 f_equal. lia.
Qed.

Lemma own_elements_out l : forall i j,
  0 <= i -> i + Z.of_nat (List.length l) <= j -> j < 4294967295 ->
  own (string_of_Z j) (elements i l) = None.
Proof.
  induction l as [|a l IH]; intros i j Hi Hj Hlim; [reflexivity|].
  cbn [elements own List.length] in *.
  rewrite key_neq by lia. apply IH; lia.
Qed.

Lemma own_elements_at done : forall i y rest,
  0 <= i -> i + Z.of_nat (List.length done) < 4294967295 ->
  own (string_of_Z (i + Z.of_nat (List.length done))) (elements i (done ++ y :: rest))
  = Some y.
Proof.
  induction done as [|a done IH]; intros i y rest Hi Hlim.
  - cbn [app elements own List.length]. rewrite Z.add_0_r, String.eqb_refl. reflexivity.
  - cbn [app elements own List.length] in *.
    rewrite key_neq by lia.
    replace (i + Z.of_nat (S (List.length done)))
      with (i + 1 + Z.of_nat (List.length done)) by lia.
    apply IH; lia.
Qed.

Lemma redefine_elements done : forall i x y rest,
  0 <= i -> i + Z.of_nat (List.length done) < 4294967295 ->
  redefine (string_of_Z (i + Z.of_nat (List.length done))) x (elements i (done ++ y :: rest))
  = elements i (done ++ x :: rest).
Proof.
  induction done as [|a done IH]; intros i x y rest Hi Hlim.
  - cbn [app elements redefine List.length]. rewrite Z.add_0_r, String.eqb_refl. reflexivity.
  - cbn [app elements redefine List.length] in *.
    rewrite key_neq by lia. f_equal.
    replace (i + Z.of_nat (S (List.length done)))
      with (i + 1 + Z.of_nat (List.length done)) by lia.
    apply IH; lia.
Qed.

Lemma define_index_end l : forall i n k x,
  0 <= i -> i + Z.of_nat (List.length l) <= n -> n < 4294967295 ->
  define_index n k x (elements i l) = elements i l ++ [(k, x)].
Proof.
  induction l as [|a l IH]; intros i n k x Hi Hn Hlim; [reflexivity|].
  cbn [elements define_index app List.length] in *.
  rewrite array_index_string_of_Z by lia.
  assert (E : (i <? n) = true) by (apply Z.ltb_lt; lia). rewrite E.
  f_equal. apply IH; lia.
Qed.

(** Assigning the element at position [length done] of an array-like
    object: the element there is replaced, or the object grows by one. *)
Lemma define_next done x tail :
  Z.of_nat (List.length (done ++ tail)) <= 4294967295 ->
  Z.of_nat (List.length done) < 4294967295 ->
  define (string_of_Z (Z.of_nat (List.length done))) x (elements 0 (done ++ tail))
  = elements 0 (done ++ x :: tl tail).
Proof.
  intros Hlen Hd. unfold define. destruct tail as [|y rest].
  - rewrite app_nil_r. rewrite own_elements_out by lia.
    rewrite array_index_string_of_Z by lia.
    rewrite define_index_end by lia.
    rewrite elements_app. reflexivity.
  - pose proof (own_elements_at done 0 y rest) as Ho.
    pose proof (redefine_elements done 0 x y rest) as Hr.
    rewrite Z.add_0_l in Ho, Hr. rewrite Ho by lia. apply Hr; lia.
Qed.

Lemma tl_skipn : forall n l, tl (skipn n l) = skipn (S n) l.
Proof.
  induction n as [|n IH]; intros [|a l]; try reflexivity.
  change (skipn (S (S n)) (a :: l)) with (skipn (S n) l). apply IH.
Qed.

Lemma spread_elements l : forall done a,
  Z.of_nat (List.length a) <= 4294967295 ->
  Z.of_nat (List.length done + List.length l) <= 4294967295 ->
  spread (elements 0 (done ++ skipn (List.length done) a))
         (elements (Z.of_nat (List.length done)) l)
  = elements 0 ((done ++ l) ++ skipn (List.length (done ++ l)) a).
Proof.
  induction l as [|x l IH]; intros done a Ha Hd.
  - unfold spread. simpl. rewrite !app_nil_r. reflexivity.
  - unfold spread. cbn [elements fold_left fst snd List.length] in *.
    rewrite define_next.
    + rewrite tl_skipn.
      replace (Z.of_nat (List.length done) + 1)
        with (Z.of_nat (List.length (done ++ [x])))
        by (rewrite length_app; simpl; lia).
      replace (done ++ x :: skipn (S (List.length done)) a)
        with ((done ++ [x]) ++ skipn (List.length (done ++ [x])) a).
      2:{ rewrite <- app_assoc, length_app. simpl.
          replace (List.length done + 1)%nat with (S (List.length done)) by lia.
          reflexivity. }
      pose proof (IH (done ++ [x]) a Ha) as H. unfold spread in H. rewrite H.
      * rewrite <- !app_assoc. reflexivity.
      * rewrite length_app. simpl. lia.
    + rewrite length_app, length_skipn. lia.
    + lia.
Qed.

End ArrayFacts.

(** ** [GET /]: the plugins *)

(** The field [plugins] of the answer to [GET /] is the array-like object
    of the inactive plugins followed by the active plugins from position
    [inactivePlugins.length] on: an active plugin whose position in its
    list is below the number of inactive plugins is not listed. *)
Theorem index_lists_inactive_over_active activePlugins inactivePlugins :
  Z.of_nat (List.length activePlugins) <= 4294967295 ->
  Z.of_nat (List.length inactivePlugins) <= 4294967295 ->
  index_plugins activePlugins inactivePlugins
  = elements 0 (inactivePlugins ++ skipn (List.length inactivePlugins) activePlugins).
Proof.
  intros Ha Hi. unfold index_plugins.
  assert (H1 : spread [] (elements 0 activePlugins) = elements 0 activePlugins).
  { pose proof (spread_elements activePlugins [] []) as H.
    simpl in H. rewrite skipn_nil, app_nil_r in H. apply H; simpl; lia. }
  rewrite H1.
  pose proof (spread_elements inactivePlugins [] activePlugins) as H.
  simpl in H. apply H; lia.
Qed.

Lemma index_lists_inactive_over_active_witness :
  index_plugins [flag_plugin] [idle_plugin] = elements 0 ([idle_plugin] ++ [])
  /\ index_plugins [flag_plugin; idle_plugin] [idle_plugin]
     = elements 0 ([idle_plugin] ++ [idle_plugin]).
Proof.
  split.
  - apply (index_lists_inactive_over_active [flag_plugin] [idle_plugin]); simpl; lia.
  - apply (index_lists_inactive_over_active [flag_plugin; idle_plugin] [idle_plugin]);
      simpl; lia.
Defined.

(** ** The plugin routes *)

(** A request [/plugins/title/action] calls the operation the last segment
    names, once, with the title, and answers with a confirmation, or gives
    the error of the operation to [next]; for any other last
    segment both routes pass the request on and no operation is called. *)
Theorem plugin_routes_dispatch run title action :
  plugin_routes run title action =
  match operation_named action with
  | None => (Next, [])
  | Some op =>
      (match run op title with
       | Throw e => NextErr e
       | Ok _ => Json (JObj [("message",
                              JStr (confirmation op ++ title ++ restart_notice))])
       end,
       [(op, title)])
  end.
Proof.
  unfold plugin_routes, operation_named, installOrUninstall_route, enableOrDisable_route.
  destruct (String.eqb_spec action "install") as [->|H1].
  { simpl. destruct (run PluginOperations.install title); reflexivity. }
  destruct (String.eqb_spec action "uninstall") as [->|H2].
  { simpl. destruct (run PluginOperations.uninstall title); reflexivity. }
  destruct (String.eqb_spec action "enable") as [->|H3].
  { simpl. destruct (run PluginOperations.enable title); reflexivity. }
  destruct (String.eqb_spec action "disable") as [->|H4].
  { simpl. destruct (run PluginOperations.disable title); reflexivity. }
  reflexivity.
Qed.

(** * Requests outside the table, and where errors end *)

Lemma listeners_unmapped env req :
  flippedCrudMapping (method req) = None -> listeners env req = [].
Proof.
  intros H. unfold listeners. rewrite H.
  induction (mergedWebhooks env) as [|w ws IH]; simpl; [reflexivity|exact IH].
Qed.

(** When the handler runs to its end on a method outside the table, the
    last thing the request does is answer with the empty list, under the
    current status, and that is its only response. *)
Lemma unmapped_answer env req s :
  flippedCrudMapping (method req) = None ->
  result_of (handler env req s) = Ok tt ->
  exists pre st,
    trace_of (handler env req s) = pre ++ [ResJson st (JArr [])]
    /\ Forall (fun ev => is_answer ev = false) pre
    /\ sent (store_of (handler env req s)) = Some (st, JArr []).
Proof.
  intros Hm. rewrite handler_stages.
  pose proof (obtain_result_no_response env req s) as Ho.
  destruct (obtain_result env req s) as [[[r|e] s1] t1] eqn:Eo; simpl in Ho.
  2:{ rewrite (bind_throw _ _ _ _ _ _ Eo). discriminate. }
  assert (Hr : r = JArr []).
  { rewrite obtain_result_steps in Eo. unfold bind in Eo.
    destruct (before_delegate env req s) as [[[[]|e] s0] t0]; [|discriminate].
    destruct (delegate_step env req s0) as [[[r'|e] s'] t] eqn:Ed; [|discriminate].
    injection Eo as -> _ _.
    destruct (delegate_step_run _ _ _ _ _ _ Ed) as [_ [(m & args & _ & _ & H)|(_ & H & _)]];
      [contradiction|exact H]. }
  subst r.
  rewrite (bind_ok _ _ _ _ _ _ Eo), after_result_run.
  pose proof (phase_no_response env req afterOperation
                (CRUDHooks.afterOperation (hooks_of env)) s1) as Hp.
  destruct (phase env req afterOperation (CRUDHooks.afterOperation (hooks_of env)) s1)
    as [[[[]|e] s2] t2]; simpl in Hp; [|discriminate].
  destruct (headersSent s2); [discriminate|].
  destruct (webhookTriggerPayload env req (JArr [])) as [payload|e]; [|discriminate].
  intros _. rewrite (listeners_unmapped _ _ Hm).
  exists (t1 ++ t2), (statusCode s2). simpl. rewrite <- app_assoc.
  split; [reflexivity|]. split; [|reflexivity].
  apply Forall_app. split; assumption.
Qed.

(** ** C3: the method table and the other methods *)

(** C3 (as stated, refuted).  A PATCH to the collection route is served by
    the handler: the hooks run and the answer is 200 with an empty list,
    not 404. *)
Lemma C3_patch_is_served :
  serve (sample_env [deny] [] [] sample_db) (sample_req PATCH) (init_store (JObj []) []) =
  (Ok tt,
   set_sent (Some (200%nat, JArr []))
            (set_ctx (with_currentHook afterOperation ctx0) (init_store (JObj []) [])),
   [ HookCall beforeOperation 0 ctx0 (JObj []);
     HookCall afterOperation 0 (with_currentHook afterOperation ctx0) (JObj []);
     ResJson 200 (JArr []) ]).
Proof. reflexivity. Qed.

(** C3 (amended).  The table is a bijection between GET, POST, PUT, DELETE
    and read, create, update, delete, and no other method has an
    operation.  The route handler does not reject a request with another
    method: run for such a request, it goes through the four hook phases,
    evaluates [inputData.data] and [mergeData], and answers with the empty
    list; the whole request makes no persistence call and triggers no
    webhook, and when nothing throws and no hook has answered, it calls
    every plugin and hook of the four phases and ends with the one
    response: the empty list under the current status. *)
Theorem C3_method_table_and_other_methods :
  (forall op, flippedCrudMapping (crudMapping op) = Some op) /\
  (forall m op, flippedCrudMapping m = Some op -> crudMapping op = m) /\
  (forall m, flippedCrudMapping m = None <-> ~ In m [GET; POST; PUT; DELETE]) /\
  (forall env req s,
      flippedCrudMapping (method req) = None ->
      handler env req s = unmapped_method env req s
      /\ Forall (fun ev => is_prisma ev = false /\ is_webhook ev = false)
                (trace_of (serve env req s))
      /\ (result_of (handler env req s) = Ok tt ->
          calls (trace_of (serve env req s)) = expected_calls env req
          /\ exists pre st,
               trace_of (serve env req s) = pre ++ [ResJson st (JArr [])]
               /\ Forall (fun ev => is_answer ev = false) pre
               /\ sent (store_of (serve env req s)) = Some (st, JArr []))).
Proof.
  split; [intros []; reflexivity|].
  split; [intros [] [] H; simpl in H; try discriminate; reflexivity|].
  split.
  - intros m. split.
    + intros H Hin. simpl in Hin.
      destruct Hin as [<-|[<-|[<-|[<-|[]]]]]; discriminate.
    + intros H. destruct m; try reflexivity; exfalso; apply H; simpl; auto.
  - intros env req s H. split; [apply handler_unmapped; exact H|]. split.
    + apply serve_emits.
      * eapply emits_ext; [intros s'; symmetry; apply handler_unmapped; exact H|].
        apply unmapped_method_emits.
      * intros st e. auto.
    + intros Hok. split.
      * rewrite calls_serve. apply (proj2 (follows_handler env req s) tt). exact Hok.
      * destruct (unmapped_answer env req s H Hok) as (pre & st & Ht & Hpre & Hs).
        destruct (handler env req s) as [[[[]|e] s1] t1] eqn:Eh; [|discriminate].
        rewrite (serve_ok _ _ _ _ _ Eh). exists pre, st. auto.
Qed.

Lemma C3_method_table_and_other_methods_witness :
  flippedCrudMapping PATCH = None /\
  handler (sample_env [deny] [] [flag_plugin] sample_db) (sample_req PATCH)
          (init_store (JObj []) [])
  = unmapped_method (sample_env [deny] [] [flag_plugin] sample_db) (sample_req PATCH)
                    (init_store (JObj []) []).
Proof.
  split; [reflexivity|].
  apply (proj2 (proj2 (proj2 C3_method_table_and_other_methods))).
  reflexivity.
Defined.

(** ** C6: errors never reach [errHandler] *)

(** C6 (the code at the failing input).  The [beforeOperation] hook of a
    POST throws [new Error("forbidden")].  The error is given to [next] and
    ends in the final handler, which answers with status 500 and its own
    page.  [errHandler], which for this error would have written the JSON
    body and called the logger and [console.log], is not run: no request
    calls the logger or [console.log], and the only value the handler
    passes to [res.json] is its [resultData]. *)
Theorem C6_errors_bypass_errHandler :
  serve (sample_env [refuse] [] [] sample_db) (sample_req POST) (init_store post_body [])
  = (Ok tt,
     set_sent (Some (500%nat, page)) (set_statusCode 500 (init_store post_body [])),
     [HookCall beforeOperation 0 ctx0 post_body; ErrorPage 500 forbidden])
  /\ trace_of (errHandler forbidden (init_store post_body []))
     = [ResJson 500 (JObj [("success", JBool false); ("message", JStr "forbidden")]);
        LoggerCall forbidden; ConsoleLog forbidden]
  /\ (forall env req s,
        Forall (fun ev => is_log ev = false) (trace_of (serve env req s)))
  /\ (forall env req s st b,
        In (ResJson st b) (trace_of (serve env req s)) ->
        exists s1 t1, obtain_result env req s = (Ok b, s1, t1)).
Proof.
  split; [reflexivity|]. split; [reflexivity|]. split.
  - intros env req. apply serve_emits; [|reflexivity].
    apply handler_emits; try (intros; reflexivity).
    intros h ops. eapply emits_weaken; [|apply phase_emits].
    intros [] [H _]; simpl in *; try discriminate; reflexivity.
  - intros env req s st b H. apply serve_response in H.
    destruct (handler_response _ _ _ _ _ H) as (s1 & t1 & _ & _ & Eo & _). eauto.
Qed.
